(** * Price monitor (watch.py): fetch layer, price extraction chain,
      normaliser and change detector, embedded and verified.

    Conventions of the embedding.
    - Text is [string]; a character is one code point below 256.
    - An amount is kept as the rational number its decimal text denotes;
      the literals Python reads as inf or nan have no value here (the
      model's [float] rejects them). Where the program computes with
      amounts, in the change detector, the arithmetic is binary64: see
      [Binary64], whose [of_Q] is the double float() returns for the text.
    - Time, randomness and the network are explicit: a [World] carries the
      clock and the throttle table, and an [Env] answers each random draw
      and each request.
    - Library code (bs4, json, urllib) is a parameter, see [Externals]. *)

From Stdlib Require Import ZArith QArith Qabs Qround Qminmax Qfield Lqa Ascii String DecimalString List Sorted Bool Lia.
From Stdlib Require Import SpecFloat.
From stdpp Require Import base option gmap strings.

Local Open Scope string_scope.
Local Open Scope Z_scope.
#[local] Arguments String.append !s1 s2 : simpl nomatch.

(** ** Characters and text *)

Module Text.

Definition code (c : ascii) : N := N_of_ascii c.

Definition between (lo hi : N) (c : ascii) : bool :=
  ((lo <=? code c) && (code c <=? hi))%N.

(** [0-9] *)
Definition is_digit (c : ascii) : bool := between 48 57 c.

Definition is_upper (c : ascii) : bool := between 65 90 c.
Definition is_lower (c : ascii) : bool := between 97 122 c.
Definition is_alpha (c : ascii) : bool := is_upper c || is_lower c.

(** [\s] of the re module on text below code point 256. *)
Definition is_space (c : ascii) : bool :=
  between 9 13 c || between 28 32 c ||
  (code c =? 133)%N || (code c =? 160)%N.

(** str.lower() on one character below code point 256. *)
Definition lower_char (c : ascii) : ascii :=
  if is_upper c || (between 192 222 c && negb (code c =? 215)%N)
  then ascii_of_N (code c + 32) else c.

Fixpoint lower (s : string) : string :=
  match s with
  | EmptyString => EmptyString
  | String c s' => String (lower_char c) (lower s')
  end.

Definition eqc (a b : ascii) : bool := Ascii.eqb a b.

(** Equality of characters under re.I, for an unaccented pattern letter. *)
Definition eqc_nocase (a b : ascii) : bool :=
  Ascii.eqb a b || (is_alpha a && is_alpha b && Ascii.eqb (lower_char a) (lower_char b)).

(** [starts_with_by eq p s]: [p] is a prefix of [s], characters compared by [eq]
    (pattern character first). *)
Fixpoint starts_with_by (eq : ascii -> ascii -> bool) (p s : string) : bool :=
  match p, s with
  | EmptyString, _ => true
  | String a p', String b s' => eq a b && starts_with_by eq p' s'
  | String _ _, EmptyString => false
  end.

Definition starts_with := starts_with_by eqc.

Fixpoint drop (n : nat) (s : string) : string :=
  match n, s with
  | O, _ => s
  | S n', String _ s' => drop n' s'
  | S _, EmptyString => EmptyString
  end.

(** [needle in s] *)
Fixpoint contains (needle s : string) : bool :=
  starts_with needle s ||
  match s with
  | EmptyString => false
  | String _ s' => contains needle s'
  end.

(** s.count(c) for a one-character argument *)
Fixpoint count (c : ascii) (s : string) : nat :=
  match s with
  | EmptyString => O
  | String a s' => (if eqc a c then 1 else 0) + count c s'
  end.

(** s.replace(c, "", n): drop the first [n] occurrences of [c]. *)
Fixpoint remove_first (n : nat) (c : ascii) (s : string) : string :=
  match n, s with
  | O, _ => s
  | _, EmptyString => EmptyString
  | S n', String a s' =>
      if eqc a c then remove_first n' c s' else String a (remove_first n c s')
  end.

Fixpoint keep (p : ascii -> bool) (s : string) : string :=
  match s with
  | EmptyString => EmptyString
  | String a s' => if p a then String a (keep p s') else keep p s'
  end.

Fixpoint all (p : ascii -> bool) (s : string) : bool :=
  match s with
  | EmptyString => true
  | String a s' => p a && all p s'
  end.

(** Longest prefix of characters satisfying [p], and the rest. *)
Fixpoint span (p : ascii -> bool) (s : string) : string * string :=
  match s with
  | EmptyString => (EmptyString, EmptyString)
  | String a s' =>
      if p a then let '(x, y) := span p s' in (String a x, y)
      else (EmptyString, s)
  end.

Fixpoint drop_while (p : ascii -> bool) (s : string) : string :=
  match s with
  | EmptyString => EmptyString
  | String a s' => if p a then drop_while p s' else s
  end.

(** The text without its longest suffix of characters satisfying [p]. *)
Fixpoint drop_while_end (p : ascii -> bool) (s : string) : string :=
  match s with
  | EmptyString => EmptyString
  | String a s' =>
      match drop_while_end p s' with
      | EmptyString => if p a then EmptyString else String a EmptyString
      | t => String a t
      end
  end.

(** Decimal rendering of a natural number, as str(int) gives it. *)
Definition of_nat (n : nat) : string := NilEmpty.string_of_uint (Nat.to_uint n).

End Text.

(** ** float(): reading a decimal literal *)

Module Float.
Import Text.

(** The characters float() strips at both ends. *)
Definition is_strip (c : ascii) : bool :=
  between 9 13 c || (code c =? 32)%N || (code c =? 133)%N || (code c =? 160)%N.

Definition strip (s : string) : string :=
  drop_while_end is_strip (drop_while is_strip s).

Definition underscore : ascii := "_".

(** Underscores are legal only between two digits; [prev] is the previous
    character. The result is the text without them. *)
Fixpoint drop_underscores (prev : ascii) (s : string) : option string :=
  match s with
  | EmptyString => if eqc prev underscore then None else Some EmptyString
  | String c s' =>
      if eqc c underscore then
        if is_digit prev then drop_underscores c s' else None
      else if eqc prev underscore && negb (is_digit c) then None
      else option_map (String c) (drop_underscores c s')
  end.

Definition digit_val (c : ascii) : Z := Z.of_N (code c) - 48.

Fixpoint digits_val_from (acc : Z) (s : string) : Z :=
  match s with
  | EmptyString => acc
  | String c s' => digits_val_from (10 * acc + digit_val c) s'
  end.

Definition digits_val (s : string) : Z := digits_val_from 0 s.

Definition len (s : string) : Z := Z.of_nat (String.length s).

(** A sign, if any, and the rest. [true] is minus. *)
Definition take_sign (s : string) : bool * string :=
  match s with
  | String "-" s' => (true, s')
  | String "+" s' => (false, s')
  | _ => (false, s)
  end.

(** digits [. digits] | . digits : the two digit runs and the rest, when at
    least one digit is present. *)
Definition take_number (s : string) : option (string * string * string) :=
  let '(ip, r) := span is_digit s in
  let '(fp, r') :=
    match r with
    | String "." r1 => span is_digit r1
    | _ => (EmptyString, r)
    end in
  if ((String.length ip =? 0) && (String.length fp =? 0))%nat then None
  else Some (ip, fp, r').

(** [e|E] [sign] digits, taken only when complete. *)
Definition take_exponent (s : string) : Z * string :=
  match s with
  | String e r =>
      if eqc e "e" || eqc e "E" then
        let '(neg, r1) := take_sign r in
        let '(ds, r2) := span is_digit r1 in
        if (String.length ds =? 0)%nat then (0, s)
        else ((if neg then - digits_val ds else digits_val ds), r2)
      else (0, s)
  | EmptyString => (0, s)
  end.

(** The value of mantissa [m] scaled by ten to the [e]. *)
Definition scale (m : Z) (e : Z) : Q :=
  if 0 <=? e then Qred (inject_Z (m * 10 ^ e))
  else Qred (Qmake m (Z.to_pos (10 ^ (- e)))).

(** float(s) on a decimal literal; [None] is ValueError. *)
Definition float (s : string) : option Q :=
  match drop_underscores "000" (strip s) with
  | None => None
  | Some t =>
      let '(neg, t1) := take_sign t in
      match take_number t1 with
      | None => None
      | Some (ip, fp, r) =>
          let '(e, r') := take_exponent r in
          match r' with
          | EmptyString =>
              let m := digits_val (ip ++ fp) in
              let v := scale m (e - len fp) in
              Some (if neg then Qred (- v) else v)
          | String _ _ => None
          end
      end
  end.

End Float.

(** ** norm_price *)

(** The configurable pattern of a rule removes single characters: it is a
    character class, given by the characters it matches. *)
Definition regex := ascii -> bool.

(** DEFAULT_REGEX, [^0-9\.] *)
Definition DEFAULT_REGEX : regex :=
  fun c => negb (Text.is_digit c || Text.eqc c ".").

(** re.sub(regex, "", text) *)
Definition re_sub_empty (r : regex) (text : string) : string :=
  Text.keep (fun c => negb (r c)) text.

Definition dot : ascii := ".".

(** The step of norm_price between cleaning and parsing. *)
Definition collapse_dots (cleaned : string) : string :=
  if (1 <? Text.count dot cleaned)%nat
  then Text.remove_first (Text.count dot cleaned - 1) dot cleaned
  else cleaned.

Definition norm_price (text : option string) (r : regex) : option Q :=
  match text with
  | None => None
  | Some t =>
      let cleaned := collapse_dots (re_sub_empty r t) in
      match cleaned with
      | EmptyString => None
      | _ => Float.float cleaned
      end
  end.


(** ** Exceptions and results *)

Inductive exn :=
| ValueError (msg : string)
| HTTPError (status_code : Z)          (* resp.raise_for_status() *)
| RequestException (msg : string)      (* requests.get: connection, timeout *)
| LibraryError (msg : string).         (* raised inside bs4 or urllib *)

Inductive result (A : Type) :=
| Ok (a : A)
| Raise (e : exn).
Arguments Ok {A} a.
Arguments Raise {A} e.

(** ** Library code the program calls *)

(** A bs4 element: node.get(attr) reads [tag_attrs], node.get_text(strip=True)
    is [tag_text]. An attribute value is kept as the text str() makes of
    it. *)
Record Tag := { tag_attrs : list (string * string); tag_text : string }.

Fixpoint assoc {A} (k : string) (l : list (string * A)) : option A :=
  match l with
  | [] => None
  | (k', v) :: l' => if String.eqb k' k then Some v else assoc k l'
  end.

Definition tag_get (node : Tag) (attr : string) : option string :=
  assoc attr (tag_attrs node).

(** A parsed document: soup.select_one(sel), and the texts
    s.get_text(strip=True) of soup.select('script[type="application/ld+json"]'). *)
Record Soup := {
  select_one : string -> result (option Tag);
  ld_json_scripts : list string
}.

(** A value built by json.loads; a mapping lists its keys once each, in
    order. *)
#[warnings="-register-all"] Inductive json :=
| JNull
| JBool (b : bool)
| JNum (q : Q)
| JStr (s : string)
| JList (items : list json)
| JDict (fields : list (string * json)).

Class Externals := {
  (** urlsplit(url).netloc *)
  netloc : string -> result string;
  (** BeautifulSoup(html, "lxml"), or with "html.parser" when that raises *)
  BeautifulSoup : string -> Soup;
  (** json.loads; [None] when it raises *)
  json_loads : string -> option json;
  (** str(p) *)
  py_str : json -> string
}.

(** quote(s, safe=''): every byte outside [A-Za-z0-9_.~-] of the UTF-8
    encoding becomes %XX. *)
Module Quote.
Import Text.

Definition hex_digit (n : N) : ascii :=
  if (n <? 10)%N then ascii_of_N (48 + n) else ascii_of_N (55 + n).

Definition percent (b : N) (rest : string) : string :=
  String "%" (String (hex_digit (b / 16)) (String (hex_digit (b mod 16)) rest)).

Definition unreserved (c : ascii) : bool :=
  is_alpha c || is_digit c || eqc c "_" || eqc c "." || eqc c "-" || eqc c "~".

Fixpoint quote (s : string) : string :=
  match s with
  | EmptyString => EmptyString
  | String c s' =>
      if unreserved c then String c (quote s')
      else if (code c <? 128)%N then percent (code c) (quote s')
      else percent (192 + code c / 64) (percent (128 + code c mod 64) (quote s'))
  end.

End Quote.

(** ** Configuration (environment variables and module constants) *)

Record Config := {
  SCRAPERAPI_KEY : string;
  CHANGE_THRESHOLD_PCT : Q;
  MIN_PRICE_FLOOR : Q
}.

Definition default_config : Config :=
  {| SCRAPERAPI_KEY := ""; CHANGE_THRESHOLD_PCT := 0; MIN_PRICE_FLOOR := 400 |}.

Definition MIN_DOMAIN_GAP : Q := 3.
Definition MAX_TRIES : nat := 3.

(** ** The world: clock, throttle table, randomness, network *)

Record Response := { status_code : Z; text : string }.

(** What the [n]-th request does: it takes [elapsed] seconds and either
    returns a response or raises. *)
Record Reply := { outcome : result Response; elapsed : Q }.

Record Env := {
  (** the [n]-th value of random.random() *)
  random : nat -> Q;
  (** the [n]-th call of requests.get, on the given target *)
  http : nat -> string -> Reply
}.

(** Draws lie in the unit interval and a request takes no negative time. *)
Definition env_ok (env : Env) : Prop :=
  (forall n, 0 <= random env n <= 1)%Q /\
  (forall n target, 0 <= elapsed (http env n target))%Q.

Inductive Event :=
| Slept (secs : Q)
| Requested (target : string) (at_time : Q).

Record World := {
  clock : Q;                       (* time.time() *)
  _LAST_FETCH : gmap string Q;     (* domain -> last fetch time *)
  draws : nat;                     (* random values used so far *)
  requests : nat;                  (* requests issued so far *)
  trace : list Event               (* sleeps and requests, oldest first *)
}.

Definition Qltb (x y : Q) : bool := negb (Qle_bool y x).

(** time.sleep(secs): the clock moves on by [secs]. *)
Definition sleep (secs : Q) (w : World) : World :=
  {| clock := Qred (clock w + secs); _LAST_FETCH := _LAST_FETCH w;
     draws := draws w; requests := requests w;
     trace := (trace w ++ [Slept secs])%list |}.

(** random.uniform(a, b) = a + (b - a) * random.random() *)
Definition uniform (env : Env) (a b : Q) (w : World) : Q * World :=
  (Qred (a + (b - a) * random env (draws w)),
   {| clock := clock w; _LAST_FETCH := _LAST_FETCH w;
      draws := S (draws w); requests := requests w; trace := trace w |}).

Definition set_last_fetch (dom : string) (w : World) : World :=
  {| clock := clock w; _LAST_FETCH := <[dom := clock w]> (_LAST_FETCH w);
     draws := draws w; requests := requests w; trace := trace w |}.

(** requests.get(target, headers=HEADERS, timeout=45) *)
Definition requests_get (env : Env) (target : string) (w : World)
  : result Response * World :=
  let reply := http env (requests w) target in
  (outcome reply,
   {| clock := Qred (clock w + elapsed reply); _LAST_FETCH := _LAST_FETCH w;
      draws := draws w; requests := S (requests w);
      trace := (trace w ++ [Requested target (clock w)])%list |}).

(** ** The fetch layer *)

Section Fetch.
Context {ext : Externals} (cfg : Config) (env : Env).

Definition _throttle (url : string) (w : World) : result unit * World :=
  match netloc url with
  | Raise e => (Raise e, w)
  | Ok dom =>
      let now := clock w in
      let last := default 0%Q (_LAST_FETCH w !! dom) in
      let gap := (now - last)%Q in
      let '(jitter, w1) := uniform env (-5) 5 w in
      let wait := (MIN_DOMAIN_GAP - gap + jitter)%Q in
      let w2 := if Qltb 0 wait then sleep wait w1 else w1 in
      (Ok tt, set_last_fetch dom w2)
  end.

Definition maybe_proxy (url : string) : string :=
  if negb (String.eqb (SCRAPERAPI_KEY cfg) "") && Text.contains "hydrow.com" url
  then "https://api.scraperapi.com/?api_key=" ++ SCRAPERAPI_KEY cfg
       ++ "&url=" ++ Quote.quote url
  else url.

(** resp.raise_for_status() *)
Definition raise_for_status (resp : Response) : result unit :=
  if (400 <=? status_code resp) && (status_code resp <? 600)
  then Raise (HTTPError (status_code resp)) else Ok tt.

Definition exhausted (url : string) : exn :=
  ValueError ("Too Many Requests / server errors after " ++ Text.of_nat MAX_TRIES
              ++ " tries for " ++ url).

(** The loop of http_get_with_backoff with [tries] iterations left. *)
Fixpoint backoff_loop (tries : nat) (delay : Q) (url : string) (w : World)
  : result Response * World :=
  match tries with
  | O => (Raise (exhausted url), w)
  | S tries' =>
      match _throttle url w with
      | (Raise e, w1) => (Raise e, w1)
      | (Ok _, w1) =>
          let target := maybe_proxy url in
          match requests_get env target w1 with
          | (Raise e, w2) => (Raise e, w2)
          | (Ok resp, w2) =>
              if status_code resp =? 429 then
                let '(j, w3) := uniform env 0 1.5 w2 in
                let w4 := sleep (delay + j) w3 in
                backoff_loop tries' (Qred (Qmin (delay * 2) 30)) url w4
              else if (500 <=? status_code resp) && (status_code resp <? 600) then
                let '(j, w3) := uniform env 0 1.0 w2 in
                let w4 := sleep (delay + j) w3 in
                backoff_loop tries' (Qred (Qmin (delay * 2) 30)) url w4
              else
                match raise_for_status resp with
                | Raise e => (Raise e, w2)
                | Ok _ => (Ok resp, w2)
                end
          end
      end
  end.

Definition http_get_with_backoff (url : string) (w : World)
  : result Response * World :=
  backoff_loop MAX_TRIES 2 url w.

End Fetch.

(** ** The price extraction chain *)

Module Pattern.
Import Text.

(** [\d,\.] *)
Definition is_tok (c : ascii) : bool := is_digit c || eqc c "," || eqc c ".".

(** ([0-9][\d,\.]+) at the head of [s]: the group, which is as long as it
    can be. *)
Definition token_at (s : string) : option string :=
  match s with
  | String d r =>
      if is_digit d then
        match span is_tok r with
        | (EmptyString, _) => None
        | (g, _) => Some (String d g)
        end
      else None
  | EmptyString => None
  end.

(** re.findall(r"\$([0-9][\d,\.]+)", s). The scan resumes behind a match;
    a group holds no dollar sign, so resuming at the next character finds
    the same matches (see [findall_dollar_skip]). *)
Fixpoint findall_dollar (s : string) : list string :=
  match s with
  | EmptyString => []
  | String c s' =>
      match (if eqc c "$" then token_at s' else None) with
      | Some tok => tok :: findall_dollar s'
      | None => findall_dollar s'
      end
  end.

(** re.sub(r"\s+", " ", s); [in_run] says the previous character was
    white space. *)
Fixpoint collapse_ws (in_run : bool) (s : string) : string :=
  match s with
  | EmptyString => EmptyString
  | String c s' =>
      if is_space c then
        if in_run then collapse_ws true s' else String " " (collapse_ws true s')
      else String c (collapse_ws false s')
  end.

(** The four financing-footnote patterns differ in the product named and in
    whether (?!\+) follows it. *)
Record Footnote := { product : string; not_plus : bool }.

Definition based_on : string := "Based on a price of".

(** Based on a price of\s*\$([0-9][\d,\.]+) at the head of [s] *)
Definition match_tail (s : string) : option string :=
  if starts_with_by eqc_nocase based_on s then
    match drop_while is_space (drop (String.length based_on) s) with
    | String "$" r => token_at r
    | _ => None
    end
  else None.

(** .*? followed by the tail: the dot takes one character more, never a
    newline, each time the tail fails. *)
Fixpoint lazy_tail (s : string) : option string :=
  match match_tail s with
  | Some g => Some g
  | None =>
      match s with
      | EmptyString => None
      | String c s' => if eqc c "010" then None else lazy_tail s'
      end
  end.

Definition match_here (p : Footnote) (s : string) : option string :=
  if starts_with_by eqc_nocase (product p) s then
    let r := drop (String.length (product p)) s in
    if not_plus p && starts_with "+" r then None else lazy_tail r
  else None.

(** re.search(pat, s, flags=re.I): group 1 of the leftmost match *)
Fixpoint search (p : Footnote) (s : string) : option string :=
  match match_here p s with
  | Some g => Some g
  | None =>
      match s with
      | EmptyString => None
      | String _ s' => search p s'
      end
  end.

Definition for_hint (ph : string) : option Footnote :=
  if contains "bike+" ph || contains "bike plus" ph then
    Some {| product := "Get the Peloton Bike+"; not_plus := false |}
  else if contains "bike" ph then
    Some {| product := "Get the Peloton Bike"; not_plus := true |}
  else if contains "tread" ph || contains "treadmill" ph then
    Some {| product := "Get the Peloton Tread"; not_plus := true |}
  else if contains "row" ph then
    Some {| product := "Get the Peloton Row"; not_plus := false |}
  else None.

End Pattern.

(** Truth value of a JSON value. *)
Definition truthy (v : json) : bool :=
  match v with
  | JNull => false
  | JBool b => b
  | JNum q => negb (Qeq_bool q 0)
  | JStr s => negb (String.eqb s "")
  | JList items => match items with [] => false | _ => true end
  | JDict fields => match fields with [] => false | _ => true end
  end.

Fixpoint find_price (obj : json) : option json :=
  match obj with
  | JDict fields =>
      match (match assoc "price" fields with
             | Some p => if truthy p then Some p else None
             | None => None
             end) with
      | Some p => Some p
      | None =>
          match (fix offers (l : list (string * json)) : option json :=
                   match l with
                   | [] => None
                   | (k, v) :: l' =>
                       if String.eqb k "offers" then find_price v else offers l'
                   end) fields with
          | Some p => Some p
          | None =>
              (fix values (l : list (string * json)) : option json :=
                 match l with
                 | [] => None
                 | (_, v) :: l' =>
                     match find_price v with
                     | Some p => Some p
                     | None => values l'
                     end
                 end) fields
          end
      end
  | JList items =>
      (fix each (l : list json) : option json :=
         match l with
         | [] => None
         | it :: l' =>
             match find_price it with
             | Some p => Some p
             | None => each l'
             end
         end) items
  | _ => None
  end.

(** max(candidates), with the first element as the start. *)
Definition py_max (first : Q) (others : list Q) : Q :=
  fold_left (fun m x => if Qltb m x then x else m) others first.

Definition no_price : exn :=
  ValueError "Selector not found and no fallback price detected".

(** node.get(attr) if attr and attr != "inner_text"
    else node.get_text(strip=True) *)
Definition raw_of (node : Tag) (attr : string) : option string :=
  if negb (String.eqb attr "") && negb (String.eqb attr "inner_text")
  then tag_get node attr else Some (tag_text node).

Section Extract.
Context {ext : Externals} (cfg : Config) (env : Env).

(** 1) the rule's selector. [None]: fall through. *)
Definition selector_price (soup : Soup) (selector attr : string) (r : regex)
  : result (option Q) :=
  if String.eqb selector "" then Ok None
  else
    match select_one soup selector with
    | Raise e => Raise e
    | Ok None => Ok None
    | Ok (Some node) =>
        let raw := raw_of node attr in
        Ok (norm_price raw r)
    end.

(** 2) JSON-LD price fields, script by script. *)
Fixpoint jsonld_price (scripts : list string) (r : regex) : option Q :=
  match scripts with
  | [] => None
  | s :: rest =>
      match json_loads s with
      | None => jsonld_price rest r
      | Some data =>
          match find_price data with
          | None => jsonld_price rest r
          | Some p =>
              match norm_price (Some (py_str p)) r with
              | Some amount => Some amount
              | None => jsonld_price rest r
              end
          end
      end
  end.

(** 3) the Peloton financing footnote. *)
Definition peloton_price (url html : string) (r : regex)
  (product_hint : option string) : option Q :=
  match product_hint with
  | None => None
  | Some hint =>
      if Text.contains "onepeloton.com" url && negb (String.eqb hint "") then
        let text := Pattern.collapse_ws false html in
        match Pattern.for_hint (Text.lower hint) with
        | None => None
        | Some pat =>
            match Pattern.search pat text with
            | None => None
            | Some g => norm_price (Some g) r
            end
        end
      else None
  end.

(** The amounts the final fallback sees: each token normalised, those
    without a value dropped. *)
Definition dollar_amounts (html : string) (r : regex) : list Q :=
  omap (fun n => norm_price (Some n) r) (Pattern.findall_dollar html).

Definition above_floor (a : Q) : bool := Qle_bool (MIN_PRICE_FLOOR cfg) a.

(** 4) the largest dollar amount on the page, above the floor if any is. *)
Definition heuristic_price (html : string) (r : regex) : result Q :=
  match dollar_amounts html r with
  | [] => Raise no_price
  | a :: amounts =>
      match List.filter above_floor (a :: amounts) with
      | [] => Ok (py_max a amounts)
      | c :: candidates => Ok (py_max c candidates)
      end
  end.

Definition extract_from (url html : string) (selector attr : string) (r : regex)
  (product_hint : option string) : result Q :=
  let soup := BeautifulSoup html in
  match selector_price soup selector attr r with
  | Raise e => Raise e
  | Ok (Some amount) => Ok amount
  | Ok None =>
      match jsonld_price (ld_json_scripts soup) r with
      | Some amount => Ok amount
      | None =>
          match peloton_price url html r product_hint with
          | Some amt => Ok amt
          | None => heuristic_price html r
          end
      end
  end.

Definition extract_price (url selector attr : string) (r : regex)
  (product_hint : option string) (w : World) : result Q * World :=
  match http_get_with_backoff cfg env url w with
  | (Raise e, w') => (Raise e, w')
  | (Ok resp, w') =>
      (extract_from url (text resp) selector attr r product_hint, w')
  end.

End Extract.

(** ** Binary64 numbers

    The float of Python is IEEE 754 binary64, rounding to nearest with ties
    to even. Its values and operations are those of the standard library's
    specification of floating-point arithmetic, at 53 bits of precision and
    exponents below 1024. *)

Module Binary64.

Definition prec : Z := 53.
Definition emax : Z := 1024.

Definition binary64 : Type := spec_float.

Definition zero : binary64 := S754_zero false.

(** float(text), for a text that denotes the rational [q]: the double
    nearest to [q]. The quotient of the two integers is rounded once. A text
    that denotes zero gives 0.0 whatever its sign; the sign of a zero bears
    on no comparison and no branch of the program. *)
Definition of_Q (q : Q) : binary64 :=
  match Qnum q with
  | Z0 => zero
  | Zpos n =>
      SFdiv prec emax (S754_finite false n 0) (S754_finite false (Qden q) 0)
  | Zneg n =>
      SFdiv prec emax (S754_finite true n 0) (S754_finite false (Qden q) 0)
  end.

(** x - y, x / y, x * y, abs(x) *)
Definition sub : binary64 -> binary64 -> binary64 := SFsub prec emax.
Definition div : binary64 -> binary64 -> binary64 := SFdiv prec emax.
Definition mul : binary64 -> binary64 -> binary64 := SFmul prec emax.
Definition abs : binary64 -> binary64 := SFabs.

(** x == y and x <= y; both are False when a nan is compared. *)
Definition eqb : binary64 -> binary64 -> bool := SFeqb.
Definition leb : binary64 -> binary64 -> bool := SFleb.

(** bool(x): every float but 0.0 and -0.0 is true, a nan too. *)
Definition truthy (x : binary64) : bool := negb (eqb x zero).

Definition is_nan (x : binary64) : bool :=
  match x with S754_nan => true | _ => false end.

(** math.isfinite(x) *)
Definition finite (x : binary64) : bool :=
  match x with S754_zero _ | S754_finite _ _ _ => true | _ => false end.

(** Zero of either sign, a positive number or plus infinity. *)
Definition not_negative (x : binary64) : bool :=
  match x with
  | S754_zero _ | S754_infinity false | S754_finite false _ _ => true
  | _ => false
  end.

(** [x] is not a nan and its sign bit is [s]. *)
Definition signed (s : bool) (x : binary64) : Prop :=
  match x with
  | S754_zero s' | S754_infinity s' | S754_finite s' _ _ => s' = s
  | S754_nan => False
  end.

End Binary64.

(** ** History and the change detector *)

Record Observation := {
  ts : Z;                       (* UTC time, whole seconds *)
  competitor : string;
  product_name : string;
  amount : option Q;            (* absent in a stored entry without the field *)
  currency : string
}.

(** One row of the watch list, as the locals the loop computes from it:
    the url is normalised, blanks are replaced by their defaults. *)
Record Rule := {
  comp : string;
  name : string;
  url : string;
  selector : string;
  attr : string;
  rule_currency : string;
  rule_regex : regex
}.

(** A digest line, kept as its fields. *)
Inductive Line :=
| INIT (comp name : string) (amount : Q) (currency url : string)
| CHANGE (comp name : string) (prev amount : Binary64.binary64)
    (currency : string) (pct : Binary64.binary64) (url : string)
| ERROR (comp name : string) (e : exn) (url : string).

(** What the body of the loop of main prints itself: its [skip] notice, a
    digest line, or the note of a minor or absent change. The retry notices
    http_get_with_backoff prints while a page is fetched are not recorded. *)
Inductive Printed :=
| PSkip (comp name : string)
| PLine (line : Line)
| PMinor (comp name : string) (prev amount : Binary64.binary64)
    (currency : string) (pct : Binary64.binary64)
| PNoChange (comp name : string) (amount : Q) (currency : string).

Record Run := {
  world : World;
  history : gmap string (list Observation);
  events_by_comp : gmap string (list Line);
  init_count : nat;
  change_count : nat;
  error_count : nat;
  loop_prints : list Printed    (* the prints of the loop body, in order *)
}.

(** The classification of one successful extraction. *)
Inductive Outcome :=
| Init
| NoChange
| MinorChangeIgnored (from to pct : Binary64.binary64)
| Change (from to pct : Binary64.binary64).

(** (abs(amount - prev) / prev * 100) if prev else 100.0 *)
Definition change_pct (prev amount : Binary64.binary64) : Binary64.binary64 :=
  if Binary64.truthy prev
  then Binary64.mul
         (Binary64.div (Binary64.abs (Binary64.sub amount prev)) prev)
         (Binary64.of_Q 100)
  else Binary64.of_Q 100.

(** The branches on prev, on amount != prev and on
    pct >= CHANGE_THRESHOLD_PCT. *)
Definition detect (threshold : Binary64.binary64)
  (prev : option Binary64.binary64) (amount : Binary64.binary64) : Outcome :=
  match prev with
  | None => Init
  | Some prev =>
      if negb (Binary64.eqb amount prev) then
        let pct := change_pct prev amount in
        if Binary64.leb threshold pct then Change prev amount pct
        else MinorChangeIgnored prev amount pct
      else NoChange
  end.

(** history.get(key, [{}])[-1].get("amount") if history.get(key) else None *)
Definition previous (h : gmap string (list Observation)) (key : string)
  : option Q :=
  match h !! key with
  | Some entries =>
      match last entries with
      | Some o => amount o
      | None => None
      end
  | None => None
  end.

(** history.setdefault(key, []).append(entry) *)
Definition append_entry (key : string) (entry : Observation)
  (h : gmap string (list Observation)) : gmap string (list Observation) :=
  <[key := (default [] (h !! key) ++ [entry])%list]> h.

(** events_by_comp[comp].append(line) *)
Definition add_event (c : string) (line : Line)
  (ev : gmap string (list Line)) : gmap string (list Line) :=
  <[c := (default [] (ev !! c) ++ [line])%list]> ev.

(** The entry the loop builds for an extracted amount; the clock is read
    behind the extraction. *)
Definition observe (r : Rule) (amt : Q) (w : World) : Observation :=
  {| ts := Qfloor (clock w); competitor := comp r; product_name := name r;
     amount := Some amt; currency := rule_currency r |}.

Section Main.
Context {ext : Externals} (cfg : Config) (env : Env).

(** The branch of the loop body taken when extraction raises. *)
Definition on_error (r : Rule) (e : exn) (w : World) (st : Run) : Run :=
  let line := ERROR (comp r) (name r) e (url r) in
  {| world := w; history := history st;
     events_by_comp := add_event (comp r) line (events_by_comp st);
     init_count := init_count st; change_count := change_count st;
     error_count := S (error_count st);
     loop_prints := (loop_prints st ++ [PLine line])%list |}.

(** The rest of the loop body once extraction returned [amt]. *)
Definition on_amount (r : Rule) (amt : Q) (w : World) (st : Run) : Run :=
  let key := url r in
  let prev := previous (history st) key in
  let entry := observe r amt w in
  let h := append_entry key entry (history st) in
  match detect (Binary64.of_Q (CHANGE_THRESHOLD_PCT cfg))
          (option_map Binary64.of_Q prev) (Binary64.of_Q amt) with
  | Init =>
      let line := INIT (comp r) (name r) amt (rule_currency r) (url r) in
      {| world := w; history := h;
         events_by_comp := add_event (comp r) line (events_by_comp st);
         init_count := S (init_count st); change_count := change_count st;
         error_count := error_count st;
         loop_prints := (loop_prints st ++ [PLine line])%list |}
  | Change from to pct =>
      let line := CHANGE (comp r) (name r) from to (rule_currency r) pct (url r) in
      {| world := w; history := h;
         events_by_comp := add_event (comp r) line (events_by_comp st);
         init_count := init_count st; change_count := S (change_count st);
         error_count := error_count st;
         loop_prints := (loop_prints st ++ [PLine line])%list |}
  | MinorChangeIgnored from to pct =>
      {| world := w; history := h;
         events_by_comp := events_by_comp st;
         init_count := init_count st; change_count := change_count st;
         error_count := error_count st;
         loop_prints := (loop_prints st ++
           [PMinor (comp r) (name r) from to (rule_currency r) pct])%list |}
  | NoChange =>
      {| world := w; history := h;
         events_by_comp := events_by_comp st;
         init_count := init_count st; change_count := change_count st;
         error_count := error_count st;
         loop_prints := (loop_prints st ++ [PNoChange (comp r) (name r) amt (rule_currency r)])%list |}
  end.

Definition skip (r : Rule) (st : Run) : Run :=
  {| world := world st; history := history st;
     events_by_comp := events_by_comp st;
     init_count := init_count st; change_count := change_count st;
     error_count := error_count st;
     loop_prints := (loop_prints st ++ [PSkip (comp r) (name r)])%list |}.

(** One iteration of the loop of main. *)
Definition process_rule (r : Rule) (st : Run) : Run :=
  if String.eqb (url r) "" || String.eqb (selector r) "" then skip r st
  else
    match extract_price cfg env (url r) (selector r) (attr r) (rule_regex r)
            (Some (name r)) (world st) with
    | (Raise e, w) => on_error r e w st
    | (Ok amt, w) => on_amount r amt w st
    end.

(** for r in rows: ... *)
Definition main_loop (rows : list Rule) (st : Run) : Run :=
  fold_left (fun st r => process_rule r st) rows st.

End Main.



(** ** A fixture: small stand-ins for the library code and the network,
    used to run the definitions on concrete inputs. *)

Module Fixture.

(** The host of a plain scheme://host/path url. *)
Definition host (url : string) : string :=
  let after :=
    (fix go (s : string) : string :=
       match s with
       | String "/" (String "/" r) => r
       | String _ s' => go s'
       | EmptyString => EmptyString
       end) url in
  fst (Text.span (fun c => negb (Text.eqc c "/")) after).

Definition price_tag : Tag :=
  {| tag_attrs := [("content", "1299.00")]; tag_text := "$1,299.00" |}.

(** A product page: span.price holds $1,299.00 and the JSON-LD block says
    999. *)
Definition product_page : string :=
  "<span class=price>$1,299.00</span><script type=ld>{offers:{price:999}}</script>".

(** A page without markup the selector or JSON-LD could use. *)
Definition plain_page : string := "$5 shipping and $999 price".

Definition soup_of (html : string) : Soup :=
  if String.eqb html product_page then
    {| select_one := fun sel =>
         if String.eqb sel "span.price" then Ok (Some price_tag) else Ok None;
       ld_json_scripts := ["{offers:{price:999}}"] |}
  else {| select_one := fun _ => Ok None; ld_json_scripts := [] |}.

Definition loads (s : string) : option json :=
  if String.eqb s "{offers:{price:999}}"
  then Some (JDict [("offers", JDict [("price", JNum 999)])])
  else None.

Definition str_of (v : json) : string :=
  match v with
  | JStr s => s
  | JNum q => if Qeq_bool q 999 then "999" else ""
  | _ => ""
  end.

#[export] Instance ext : Externals :=
  {| netloc := fun url => Ok (host url);
     BeautifulSoup := soup_of;
     json_loads := loads;
     py_str := str_of |}.

(** A server that answers every request at once with [status] and [body],
    and a random source that always returns a half. *)
Definition constant_env (status : Z) (body : string) : Env :=
  {| random := fun _ => 1 # 2;
     http := fun _ _ =>
       {| outcome := Ok {| status_code := status; text := body |};
          elapsed := 1 # 4 |} |}.

Definition world0 : World :=
  {| clock := 1000; _LAST_FETCH := ∅; draws := 0; requests := 0; trace := [] |}.

Definition run0 : Run :=
  {| world := world0; history := ∅; events_by_comp := ∅;
     init_count := 0; change_count := 0; error_count := 0; loop_prints := [] |}.

Definition rower_rule : Rule :=
  {| comp := "Hydrow"; name := "Rower"; url := "https://shop.example/p";
     selector := "span.price"; attr := "inner_text"; rule_currency := "USD";
     rule_regex := DEFAULT_REGEX |}.

Definition stored (a : Q) : Observation :=
  {| ts := 900; competitor := "Hydrow"; product_name := "Rower";
     amount := Some a; currency := "USD" |}.

(** A run that starts with one stored amount for the rower's url. *)
Definition run_with (a : Q) : Run :=
  {| world := world0;
     history := {[ "https://shop.example/p" := [stored a] ]};
     events_by_comp := ∅;
     init_count := 0; change_count := 0; error_count := 0; loop_prints := [] |}.

End Fixture.

(** ** Vocabulary of the statements *)

(** The characters of a literal digits.digits *)
Definition is_plain (c : ascii) : bool := Text.is_digit c || Text.eqc c dot.

Definition dollar : ascii := "$".

(** The text behind a digit offers nothing to extend a group with. *)
Definition stops (rest : string) : bool :=
  match rest with
  | EmptyString => true
  | String c _ => negb (Pattern.is_tok c)
  end.

(** [chrono lo hi l]: the timestamps of [l] do not decrease and lie between
    [lo] and [hi]. *)
Fixpoint chrono (lo hi : Z) (l : list Observation) : Prop :=
  match l with
  | [] => lo <= hi
  | o :: l' => lo <= ts o /\ chrono (ts o) hi l'
  end.

(** The rules of a watch list that share the history key [key]. *)
Fixpoint rules_on (key : string) (rows : list Rule) : nat :=
  match rows with
  | [] => 0
  | r :: rows' => (if String.eqb (url r) key then 1 else 0) + rules_on key rows'
  end.

(** The statuses the fetcher retries. *)
Definition retryable (status : Z) : bool :=
  (status =? 429) || ((500 <=? status) && (status <? 600)).

(** The upper end of the jitter added to the base delay of a retry. *)
Definition retry_jitter (status : Z) : Q := if status =? 429 then 1.5 else 1.0.

(** The seconds _throttle would have to wait in [w] for the domain [dom]:
    MIN_DOMAIN_GAP - gap + jitter. *)
Definition throttle_wait (env : Env) (dom : string) (w : World) : Q :=
  (MIN_DOMAIN_GAP - (clock w - default 0 (_LAST_FETCH w !! dom))
   + fst (uniform env (-5) 5 w))%Q.

(** A pattern of the normalize_regex column that keeps the minus sign,
    [^0-9\.\-] *)
Definition SIGNED_REGEX : regex :=
  fun c => negb (Text.is_digit c || Text.eqc c "." || Text.eqc c "-").

(** What "with the default threshold 0 every change qualifies" entails:
    whatever amount is stored and whatever amount differs from it, the
    detector at threshold 0 answers Change. *)
Definition zero_threshold_reports_every_change : Prop :=
  forall prev amt : Q,
    Binary64.eqb (Binary64.of_Q amt) (Binary64.of_Q prev) = false ->
    exists pct,
      detect (Binary64.of_Q 0) (Some (Binary64.of_Q prev)) (Binary64.of_Q amt)
      = Change (Binary64.of_Q prev) (Binary64.of_Q amt) pct.

(** Every request of [env] is answered with a 429 or 5xx response. *)
Definition always_retryable (env : Env) : Prop :=
  forall n target, exists resp,
    outcome (http env n target) = Ok resp /\ retryable (status_code resp) = true.

(** What "any other non-2xx status fails immediately" entails, 429 and 5xx
    being retried until the loop raises: a response the fetcher returns has
    a 2xx status. *)
Definition other_status_fails : Prop :=
  forall (ext : Externals) (cfg : Config) (env : Env) (url : string)
         (w w' : World) (resp : Response),
    http_get_with_backoff cfg env url w = (Ok resp, w') ->
    200 <= status_code resp < 300.




(** ** More of watch.py: mail, url normalisation, rows, the history file *)

Module Str.

(** s.strip() *)
Definition strip (s : string) : string :=
  Text.drop_while_end Text.is_space (Text.drop_while Text.is_space s).

(** s.split(c) for a one-character separator *)
Fixpoint split_on (c : ascii) (s : string) : list string :=
  match s with
  | EmptyString => [EmptyString]
  | String a s' =>
      if Text.eqc a c then EmptyString :: split_on c s'
      else match split_on c s' with
           | x :: xs => String a x :: xs
           | [] => [String a EmptyString]
           end
  end.

(** x or y, for a text that may be missing *)
Definition or_else (x : option string) (y : string) : string :=
  match x with
  | Some (String a s') => String a s'
  | _ => y
  end.

End Str.

Record EmailConfig := {
  EMAIL_HOST : string;
  EMAIL_PORT : Z;
  EMAIL_USER : string;
  EMAIL_PASS : string;
  EMAIL_FROM : string;
  EMAIL_TO : string
}.

(** The MIMEText message send_email builds. *)
Record Message := {
  msg_subject : string;
  msg_from : string;
  msg_to : string;
  msg_body : string
}.

(** What send_email does: one of its two notices, or the SMTP session
    (connect, starttls, login, sendmail) with what it is given. *)
Inductive Mailed :=
| EmailDisabled (subject : string)
| EmailNoRecipients (subject : string)
| Handed (host : string) (port : Z) (user pass from : string)
    (recipients : list string) (msg : Message).

Definition comma : ascii := ",".

(** [e.strip() for e in EMAIL_TO.split(",") if e.strip()] *)
Definition recipients_of (email_to : string) : list string :=
  List.filter (fun e => negb (String.eqb e ""))
    (List.map Str.strip (Str.split_on comma email_to)).

Definition send_email (ecfg : EmailConfig) (subject body : string) : Mailed :=
  if String.eqb (EMAIL_HOST ecfg) "" || String.eqb (EMAIL_USER ecfg) ""
     || String.eqb (EMAIL_PASS ecfg) "" || String.eqb (EMAIL_TO ecfg) ""
  then EmailDisabled subject
  else
    match recipients_of (EMAIL_TO ecfg) with
    | [] => EmailNoRecipients subject
    | recipients =>
        Handed (EMAIL_HOST ecfg) (EMAIL_PORT ecfg) (EMAIL_USER ecfg) (EMAIL_PASS ecfg)
          (EMAIL_FROM ecfg) recipients
          {| msg_subject := subject; msg_from := EMAIL_FROM ecfg;
             msg_to := String.concat ", " recipients; msg_body := body |}
    end.

(** The five parts urlsplit gives. *)
Record SplitResult := {
  scheme : string;
  netloc_part : string;
  path : string;
  query : string;
  fragment : string
}.

(** urllib.parse, as normalize_url uses it. *)
Class UrlLib := {
  urlsplit : string -> result SplitResult;
  parse_qsl : string -> result (list (string * string));
  urlencode : list (string * string) -> string;
  urlunsplit : SplitResult -> string
}.

(** k.lower().startswith("utm_") *)
Definition is_utm (k : string) : bool := Text.starts_with "utm_" (Text.lower k).

Definition keep_pairs (pairs : list (string * string)) : list (string * string) :=
  List.filter (fun kv => negb (is_utm (fst kv))) pairs.

Definition with_query (parts : SplitResult) (q : string) : SplitResult :=
  {| scheme := scheme parts; netloc_part := netloc_part parts; path := path parts;
     query := q; fragment := fragment parts |}.

Definition normalize_url {lib : UrlLib} (STRIP_UTM : bool) (u : string) : string :=
  if String.eqb u "" || negb STRIP_UTM then u
  else
    match urlsplit u with
    | Raise _ => u
    | Ok parts =>
        match parse_qsl (query parts) with
        | Raise _ => u
        | Ok pairs => urlunsplit (with_query parts (urlencode (keep_pairs pairs)))
        end
    end.

(** One row of watchlist.csv: a column is [None] where DictReader has no
    value for it. *)
Record Row := {
  col_competitor : option string;
  col_product_name : option string;
  col_product_url : option string;
  col_price_selector_css : option string;
  col_price_attribute : option string;
  col_currency : option string;
  col_normalize_regex : option string
}.

(** The locals at the head of the loop body. [compile] turns the text of a
    pattern into the class it stands for, [default_regex] is the text of
    DEFAULT_REGEX. *)
Definition rule_of_row {lib : UrlLib} (STRIP_UTM : bool) (DEFAULT_CURRENCY : string)
  (default_regex : string) (compile : string -> regex) (r : Row) : Rule :=
  {| comp := Str.strip (Str.or_else (col_competitor r) "");
     name := Str.or_else (Some (Str.strip (Str.or_else (col_product_name r) "")))
               "Product";
     url := normalize_url STRIP_UTM (Str.strip (Str.or_else (col_product_url r) ""));
     selector := Str.strip (Str.or_else (col_price_selector_css r) "");
     attr := Str.or_else
               (Some (Str.strip (Str.or_else (col_price_attribute r) "inner_text")))
               "inner_text";
     rule_currency :=
       Str.or_else
         (Some (Str.strip (Str.or_else (col_currency r) DEFAULT_CURRENCY)))
         DEFAULT_CURRENCY;
     rule_regex :=
       compile (Str.or_else (Some (Str.or_else (col_normalize_regex r) default_regex))
                  default_regex) |}.

(** json.dump and json.load on the history. *)
Class JsonFile := {
  dumps : gmap string (list Observation) -> string;
  (** [None] when json.load raises JSONDecodeError *)
  loads : string -> option (gmap string (list Observation))
}.

(** The files, and which calls the operating system refuses. *)
Record Disk := {
  files : gmap string string;
  readable : string -> bool;      (* open(path, "r") succeeds on an existing file *)
  writable : string -> bool;      (* open(path, "w") succeeds *)
  (* json.dump into the file opened at path raises once that many
     characters are written; None when it writes all of them *)
  write_stops : string -> option nat;
  replace_works : bool            (* os.replace succeeds *)
}.

Definition HISTORY_FILE : string := "history.json".

Definition load_history {jf : JsonFile} (d : Disk) : gmap string (list Observation) :=
  match files d !! HISTORY_FILE with
  | None => ∅
  | Some content =>
      if readable d HISTORY_FILE then
        match loads content with
        | Some data => data
        | None => ∅
        end
      else ∅
  end.

Definition with_files (d : Disk) (fs : gmap string string) : Disk :=
  {| files := fs; readable := readable d; writable := writable d;
     write_stops := write_stops d; replace_works := replace_works d |}.

(** How save_history ends. *)
Inductive Saved := SavedOk | SaveRaised.

(** with open(path, "w", encoding="utf-8") as f: json.dump(data, f, indent=2)
    Opening empties the file; a dump that raises leaves what it had written
    so far. *)
Definition write_json {jf : JsonFile} (path : string)
  (data : gmap string (list Observation)) (d : Disk) : Saved * Disk :=
  if writable d path then
    match write_stops d path with
    | Some n =>
        (SaveRaised,
         with_files d (<[path := String.substring 0 n (dumps data)]> (files d)))
    | None => (SavedOk, with_files d (<[path := dumps data]> (files d)))
    end
  else (SaveRaised, d).

Definition save_history {jf : JsonFile} (data : gmap string (list Observation))
  (d : Disk) : Saved * Disk :=
  let tmp := HISTORY_FILE ++ ".tmp" in
  match write_json tmp data d with
  | (SaveRaised, d1) => (SaveRaised, d1)
  | (SavedOk, d1) =>
      if replace_works d then
        (* os.replace(tmp, HISTORY_FILE) *)
        (SavedOk,
         with_files d1 (<[HISTORY_FILE := dumps data]> (delete tmp (files d1))))
      else
        (* except Exception: write HISTORY_FILE directly *)
        write_json HISTORY_FILE data d1
  end.

Definition start_of_run (w : World) (h : gmap string (list Observation)) : Run :=
  {| world := w; history := h; events_by_comp := ∅;
     init_count := 0; change_count := 0; error_count := 0; loop_prints := [] |}.

(** main from load_history() to save_history(history), on rows already
    read. *)
Definition main_until_save {ext : Externals} {jf : JsonFile} (cfg : Config)
  (env : Env) (rows : list Rule) (w : World) (d : Disk) : Saved * Disk * Run :=
  let st := main_loop cfg env rows (start_of_run w (load_history d)) in
  let '(res, d') := save_history (history st) d in
  (res, d', st).

(** A small urllib for plain addresses and a small history file, to run
    normalize_url, load_history and save_history on. *)
Module LibFixture.

Definition question : ascii := "?".

Definition split_url (u : string) : result SplitResult :=
  match Str.split_on question u with
  | [p] => Ok {| scheme := ""; netloc_part := ""; path := p; query := ""; fragment := "" |}
  | [p; q] => Ok {| scheme := ""; netloc_part := ""; path := p; query := q; fragment := "" |}
  | _ => Raise (ValueError "more than one question mark")
  end.

Definition pair_of (kv : string) : string * string :=
  match Str.split_on "=" kv with
  | [k] => (k, "")
  | k :: v :: _ => (k, v)
  | [] => ("", "")
  end.

Definition pairs_of (q : string) : result (list (string * string)) :=
  if String.eqb q "" then Ok [] else Ok (List.map pair_of (Str.split_on "&" q)).

Definition encode (qs : list (string * string)) : string :=
  String.concat "&" (List.map (fun kv => fst kv ++ "=" ++ snd kv) qs).

Definition unsplit (parts : SplitResult) : string :=
  if String.eqb (query parts) "" then path parts
  else path parts ++ "?" ++ query parts.

#[export] Instance lib : UrlLib :=
  {| urlsplit := split_url; parse_qsl := pairs_of;
     urlencode := encode; urlunsplit := unsplit |}.

(** The history the rower's rule leaves behind a run that started from one
    stored amount and extracted 1299 at clock 1000. *)
Definition after_run : gmap string (list Observation) :=
  {[ "https://shop.example/p" :=
       [Fixture.stored 1299;
        {| ts := 1000; competitor := "Hydrow"; product_name := "Rower";
           amount := Some 1299%Q; currency := "USD" |}] ]}.

(** A history file with three possible contents. *)
#[export] Instance jf : JsonFile :=
  {| dumps := fun h =>
       match h !! "https://shop.example/p" with
       | Some [_] => "one entry"
       | Some [_; _] => "two entries"
       | _ => "{}"
       end;
     loads := fun s =>
       if String.eqb s "one entry"
       then Some {[ "https://shop.example/p" := [Fixture.stored 1299] ]}
       else if String.eqb s "two entries" then Some after_run
       else if String.eqb s "{}" then Some ∅ else None |}.

Definition disk0 : Disk :=
  {| files := {[ HISTORY_FILE := "one entry" ]};
     readable := fun _ => true; writable := fun _ => true;
     write_stops := fun _ => None; replace_works := true |}.

(** The same disk on a host where os.replace fails. *)
Definition disk_no_replace : Disk :=
  {| files := {[ HISTORY_FILE := "one entry" ]};
     readable := fun _ => true; writable := fun _ => true;
     write_stops := fun _ => None; replace_works := false |}.

(** A host where os.replace fails and the disk is full: the direct write of
    history.json stops after 4 characters. *)
Definition disk_full : Disk :=
  {| files := {[ HISTORY_FILE := "one entry" ]};
     readable := fun _ => true; writable := fun _ => true;
     write_stops := fun p => if String.eqb p HISTORY_FILE then Some 4%nat else None;
     replace_works := false |}.

End LibFixture.

(** ** Vocabulary of the further properties *)

(** The text holds a digit. *)
Fixpoint has_digit (s : string) : bool :=
  match s with
  | EmptyString => false
  | String c s' => Text.is_digit c || has_digit s'
  end.

(** A pattern whose cleaned texts never read as a negative number. *)
Definition never_negative (r : regex) : Prop :=
  forall (t : option string) (v : Q), norm_price t r = Some v -> (0 <= v)%Q.

(** No stored amount is negative. *)
Definition history_nonneg (h : gmap string (list Observation)) : Prop :=
  forall (key : string) (l : list Observation) (o : Observation) (a : Q),
    h !! key = Some l -> In o l -> amount o = Some a -> (0 <= a)%Q.

(** [price_in obj p]: [p] is what the key "price" holds in [obj] itself or
    in a mapping nested in it, at any depth. *)
Inductive price_in : json -> json -> Prop :=
| price_here (fields : list (string * json)) (p : json) :
    assoc "price" fields = Some p -> price_in (JDict fields) p
| price_under (fields : list (string * json)) (k : string) (v p : json) :
    In (k, v) fields -> price_in v p -> price_in (JDict fields) p
| price_item (items : list json) (v p : json) :
    In v items -> price_in v p -> price_in (JList items) p.

(** The three inner loops of find_price, by name. *)
Definition find_offers : list (string * json) -> option json :=
  fix offers (l : list (string * json)) : option json :=
    match l with
    | [] => None
    | (k, v) :: l' => if String.eqb k "offers" then find_price v else offers l'
    end.

Definition find_values : list (string * json) -> option json :=
  fix values (l : list (string * json)) : option json :=
    match l with
    | [] => None
    | (_, v) :: l' =>
        match find_price v with
        | Some p => Some p
        | None => values l'
        end
    end.

Definition find_each : list json -> option json :=
  fix each (l : list json) : option json :=
    match l with
    | [] => None
    | it :: l' =>
        match find_price it with
        | Some p => Some p
        | None => each l'
        end
    end.

(** A row the loop does not skip. *)
Definition complete (r : Rule) : bool :=
  negb (String.eqb (url r) "" || String.eqb (selector r) "").

Fixpoint complete_rows (rows : list Rule) : nat :=
  match rows with
  | [] => 0
  | r :: rows' => (if complete r then 1 else 0) + complete_rows rows'
  end.

(** The targets of the requests of a trace, oldest first. *)
Fixpoint targets (tr : list Event) : list string :=
  match tr with
  | [] => []
  | Slept _ :: tr' => targets tr'
  | Requested target _ :: tr' => target :: targets tr'
  end.

(** sum(len(v) for v in events_by_comp.values()) *)
Definition total_items (ev : gmap string (list Line)) : nat :=
  map_fold (fun _ (v : list Line) (acc : nat) => (length v + acc)%nat) 0%nat ev.

(** Every mention of the pattern's product in [s] is followed by a plus
    sign. *)
Fixpoint only_plus_mentions (p : Pattern.Footnote) (s : string) : bool :=
  (negb (Text.starts_with_by Text.eqc_nocase (Pattern.product p) s)
   || Text.starts_with "+" (Text.drop (String.length (Pattern.product p)) s))
  && match s with
     | EmptyString => true
     | String _ s' => only_plus_mentions p s'
     end.

(** sorted(keys), by insertion. *)
Fixpoint insert_sorted (x : string) (l : list string) : list string :=
  match l with
  | [] => [x]
  | y :: l' => if String.leb x y then x :: l else y :: insert_sorted x l'
  end.

Definition py_sorted (l : list string) : list string :=
  fold_right insert_sorted [] l.

(** for comp in sorted(events_by_comp.keys()): ... events_by_comp[comp] *)
Definition digest_groups (ev : gmap string (list Line)) : list (string * list Line) :=
  List.map (fun c => (c, default [] (ev !! c)))
    (py_sorted (List.map fst (map_to_list ev))).

(** The end of main: no digest when there is nothing to report and
    SEND_EMPTY_DIGEST is off; otherwise the three counts of the subject and
    the groups of the body, competitor by competitor. The lines are kept as
    their fields. *)
Definition digest (SEND_EMPTY_DIGEST : bool) (st : Run)
  : option (nat * nat * nat * list (string * list Line)) :=
  if (total_items (events_by_comp st) =? 0)%nat && negb SEND_EMPTY_DIGEST then None
  else Some (change_count st, init_count st, error_count st,
             digest_groups (events_by_comp st)).

(** The number of lines in a list of groups. *)
Definition group_lines (groups : list (string * list Line)) : nat :=
  fold_right (fun g acc => (length (snd g) + acc)%nat) 0%nat groups.

(** The temporary file of save_history. *)
Definition TMP_FILE : string := HISTORY_FILE ++ ".tmp".

(** A column without a value, or with white space only. *)
Definition blank (x : option string) : Prop :=
  match x with
  | None => True
  | Some s => Str.strip s = ""
  end.

(** The characters quote leaves in a text. *)
Definition quoted_char (c : ascii) : bool := Quote.unreserved c || Text.eqc c "%".

(** * Properties *)

(** ** The definitions on concrete inputs *)

Example norm_price_thousands :
  norm_price (Some "$1,234.56") DEFAULT_REGEX = Some (30864 # 25)%Q.
Proof. reflexivity. Qed.

Example norm_price_two_points :
  norm_price (Some "1.299.00 USD") DEFAULT_REGEX = Some 1299%Q.
Proof. reflexivity. Qed.

Example norm_price_no_digit :
  norm_price (Some "call us.") DEFAULT_REGEX = None /\
  norm_price (Some "sold out") DEFAULT_REGEX = None /\
  norm_price None DEFAULT_REGEX = None.
Proof. repeat split. Qed.

Example float_forms :
  Float.float " -1_0.5e-1 " = Some (-21 # 20)%Q /\
  Float.float "5." = Some 5%Q /\ Float.float ".5" = Some (1 # 2)%Q /\
  Float.float "1e" = None /\ Float.float "1__0" = None /\ Float.float "." = None.
Proof. repeat split. Qed.

Example findall_dollar_page :
  Pattern.findall_dollar "$5 shipping, $999 price, was $1,299.00!"
  = ["999"; "1,299.00"].
Proof. reflexivity. Qed.

(** The pattern for the Bike passes over the footnote of the Bike+. *)
Example search_bike :
  Pattern.search {| Pattern.product := "Get the Peloton Bike"; Pattern.not_plus := true |}
    "Get the Peloton Bike+ now. Based on a price of $2,495. Get the peloton bike today. based on a price of $1,445.00 only"
  = Some "1,445.00" /\
  Pattern.search {| Pattern.product := "Get the Peloton Bike+"; Pattern.not_plus := false |}
    "Get the Peloton Bike+ now. Based on a price of $2,495. Get the peloton bike today. based on a price of $1,445.00 only"
  = Some "2,495.".
Proof. split; reflexivity. Qed.

Example find_price_nested :
  find_price (JList [JDict [("name", JStr "Rower");
                            ("offers", JDict [("price", JStr "2,199.00")])]])
  = Some (JStr "2,199.00") /\
  find_price (JDict [("price", JNum 0); ("offers", JList [])]) = None.
Proof. split; reflexivity. Qed.

(** Three 503 answers: the requests, the sleeps between them and the error. *)
Example backoff_trace :
  let '(res, w) :=
    http_get_with_backoff (ext := Fixture.ext) default_config
      (Fixture.constant_env 503 "") "https://shop.example/p" Fixture.world0 in
  res = Raise (exhausted "https://shop.example/p") /\
  trace w = [Requested "https://shop.example/p" 1000; Slept (5 # 2); Slept (1 # 4);
             Requested "https://shop.example/p" 1003; Slept (9 # 2);
             Requested "https://shop.example/p" (4031 # 4); Slept (17 # 2)]%Q.
Proof. vm_compute. split; reflexivity. Qed.

(** ** Text *)

Module TextFacts.
Import Text.

Lemma app_cons a (s t : string) : String a s ++ t = String a (s ++ t).
Proof. reflexivity. Qed.

Lemma app_empty_r (s : string) : s ++ "" = s.
Proof. induction s as [|a s IH]; simpl; [done | by rewrite IH]. Qed.

Lemma length_app (s t : string) :
  String.length (s ++ t) = (String.length s + String.length t)%nat.
Proof. induction s as [|a s IH]; simpl; [done | by rewrite IH]. Qed.

Lemma all_app p (s t : string) : all p (s ++ t) = all p s && all p t.
Proof.
  induction s as [|a s IH]; simpl; [done |].
  rewrite IH. by destruct (p a).
Qed.

Lemma all_impl (p q : ascii -> bool) (s : string) :
  (forall c, p c = true -> q c = true) -> all p s = true -> all q s = true.
Proof.
  intros Hpq. induction s as [|a s IH]; simpl; [done |].
  intros [Ha Hs]%andb_true_iff. rewrite (Hpq _ Ha). by apply IH.
Qed.

Lemma keep_all p (s : string) : all p (keep p s) = true.
Proof.
  induction s as [|a s IH]; simpl; [done |].
  destruct (p a) eqn:E; simpl; [by rewrite E |]; done.
Qed.

Lemma keep_id p (s : string) : all p s = true -> keep p s = s.
Proof.
  induction s as [|a s IH]; simpl; [done |].
  intros [Ha Hs]%andb_true_iff. rewrite Ha. by rewrite IH.
Qed.

Lemma count_app c (s t : string) : count c (s ++ t) = (count c s + count c t)%nat.
Proof. induction s as [|a s IH]; simpl; [done | rewrite IH; lia]. Qed.

Lemma count_zero_all c (s : string) :
  count c s = O -> all (fun a => negb (eqc a c)) s = true.
Proof.
  induction s as [|a s IH]; simpl; [done |].
  destruct (eqc a c); simpl; [lia | apply IH].
Qed.

Lemma all_count_zero c (s : string) :
  all (fun a => negb (eqc a c)) s = true -> count c s = O.
Proof.
  induction s as [|a s IH]; simpl; [done |].
  destruct (eqc a c); simpl; [done | apply IH].
Qed.

Lemma remove_first_zero c (s : string) : remove_first 0 c s = s.
Proof. by destruct s. Qed.

(** Removing [n] occurrences leaves the others. *)
Lemma count_remove_first c (s : string) : forall n,
  (n <= count c s)%nat ->
  count c (remove_first n c s) = (count c s - n)%nat.
Proof.
  induction s as [|a s IH]; intros n Hn.
  - destruct n; simpl in *; [done | lia].
  - destruct n as [|n]; [rewrite remove_first_zero; lia |].
    simpl in *. destruct (eqc a c) eqn:E.
    + rewrite IH; lia.
    + simpl. rewrite E. rewrite IH; simpl; lia.
Qed.

(** Removing as many occurrences as a prefix holds removes them all from
    that prefix and touches nothing behind it. *)
Lemma remove_first_prefix c (pre rest : string) :
  remove_first (count c pre) c (pre ++ rest)
  = keep (fun a => negb (eqc a c)) pre ++ rest.
Proof.
  induction pre as [|a pre IH]; [apply remove_first_zero |].
  simpl. destruct (eqc a c) eqn:E; simpl; [apply IH |].
  destruct (count c pre) eqn:En.
  - f_equal. rewrite keep_id; [done |]. by apply count_zero_all.
  - f_equal. apply IH.
Qed.

Lemma span_all p (s : string) : all p s = true -> span p s = (s, "").
Proof.
  induction s as [|a s IH]; simpl; [done |].
  intros [Ha Hs]%andb_true_iff. rewrite Ha, IH; done.
Qed.

(** A run of [p] characters ends at the first character outside [p]. *)
Lemma span_app_stop p (s : string) a (t : string) :
  all p s = true -> p a = false -> span p (s ++ String a t) = (s, String a t).
Proof.
  induction s as [|b s IH]; simpl; intros Hs Ha; [by rewrite Ha |].
  apply andb_true_iff in Hs as [Hb Hs]. rewrite Hb, IH; done.
Qed.

Lemma span_fst_all p (s : string) : all p (fst (span p s)) = true.
Proof.
  induction s as [|a s IH]; simpl; [done |].
  destruct (p a) eqn:E; [| done].
  destruct (span p s); simpl in *. by rewrite E.
Qed.

Lemma drop_while_id p (s : string) :
  all (fun c => negb (p c)) s = true -> drop_while p s = s.
Proof.
  destruct s as [|a s]; simpl; [done |].
  intros [Ha _]%andb_true_iff. by destruct (p a).
Qed.

Lemma drop_while_end_id p (s : string) :
  all (fun c => negb (p c)) s = true -> drop_while_end p s = s.
Proof.
  induction s as [|a s IH]; simpl; [done |].
  intros [Ha Hs]%andb_true_iff. rewrite IH by done.
  destruct s; [| done]. by destruct (p a).
Qed.

End TextFacts.

(** ** float() on plain decimal literals *)

Module FloatFacts.
Import Text Float TextFacts.

Ltac by_cases_on c := destruct c as [[] [] [] [] [] [] [] []]; try done.

Lemma digit_not_strip c : is_digit c = true -> is_strip c = false.
Proof. by_cases_on c. Qed.

Lemma digit_not_underscore c : is_digit c = true -> eqc c underscore = false.
Proof. by_cases_on c. Qed.

Lemma digit_no_sign c (s : string) :
  is_digit c = true -> take_sign (String c s) = (false, String c s).
Proof. by_cases_on c. Qed.

Lemma digit_not_dot c : is_digit c = true -> eqc c dot = false.
Proof. by_cases_on c. Qed.

Lemma plain_not_strip c : is_plain c = true -> negb (is_strip c) = true.
Proof. by_cases_on c. Qed.

Lemma plain_not_underscore c : is_plain c = true -> eqc c underscore = false.
Proof. by_cases_on c. Qed.

Lemma strip_plain (s : string) : all is_plain s = true -> strip s = s.
Proof.
  intros H. unfold strip.
  assert (all (fun c => negb (is_strip c)) s = true) as H'
    by (revert H; apply all_impl, plain_not_strip).
  rewrite drop_while_id by done. by apply drop_while_end_id.
Qed.

Lemma drop_underscores_plain (s : string) : forall prev,
  eqc prev underscore = false -> all is_plain s = true ->
  drop_underscores prev s = Some s.
Proof.
  induction s as [|c s IH]; simpl; intros prev Hp Hs; [by rewrite Hp |].
  apply andb_true_iff in Hs as [Hc Hs].
  rewrite (plain_not_underscore _ Hc), Hp. simpl.
  rewrite IH; [done | by apply plain_not_underscore | done].
Qed.

Lemma plain_literal (ip fp : string) :
  all is_digit ip = true -> all is_digit fp = true ->
  all is_plain (ip ++ String dot fp) = true.
Proof.
  intros Hi Hf. rewrite all_app. simpl.
  rewrite (all_impl is_digit is_plain ip), (all_impl is_digit is_plain fp); try done;
    intros c Hc; unfold is_plain; by rewrite Hc.
Qed.

Lemma take_sign_plain (ip fp : string) :
  all is_digit ip = true ->
  take_sign (ip ++ String dot fp) = (false, ip ++ String dot fp).
Proof.
  destruct ip as [|d ip]; simpl; [done |].
  intros [Hd _]%andb_true_iff. by apply digit_no_sign.
Qed.

Lemma take_number_plain (ip fp : string) :
  all is_digit ip = true -> all is_digit fp = true -> ip ++ fp <> "" ->
  take_number (ip ++ String dot fp) = Some (ip, fp, "").
Proof.
  intros Hi Hf Hne. unfold take_number.
  rewrite span_app_stop by done.
  change (match String dot fp with String "." r1 => span is_digit r1
          | _ => (EmptyString, String dot fp) end) with (span is_digit fp).
  rewrite span_all by done.
  destruct ip, fp; simpl in *; done.
Qed.

Lemma scale_value (m e : Z) :
  (scale m e == inject_Z m * (if 0 <=? e then inject_Z (10 ^ e)
                              else / inject_Z (10 ^ (- e))))%Q.
Proof.
  unfold scale. destruct (0 <=? e) eqn:E; rewrite Qred_correct.
  - rewrite inject_Z_mult. reflexivity.
  - apply Z.leb_gt in E.
    assert (0 < 10 ^ (- e)) as Hpos by (apply Z.pow_pos_nonneg; lia).
    rewrite Qmake_Qdiv. rewrite Z2Pos.id by done. reflexivity.
Qed.

(** A literal with an integer part [ip] and a fraction [fp] reads as the
    number [ip fp] / 10^|fp|. *)
Lemma float_plain (ip fp : string) :
  all is_digit ip = true -> all is_digit fp = true -> ip ++ fp <> "" ->
  exists v, float (ip ++ String dot fp) = Some v /\
    (v == inject_Z (digits_val (ip ++ fp)) / inject_Z (10 ^ len fp))%Q.
Proof.
  intros Hi Hf Hne. unfold float.
  rewrite strip_plain by by apply plain_literal.
  rewrite drop_underscores_plain; [| done | by apply plain_literal].
  rewrite take_sign_plain by done.
  rewrite take_number_plain by done.
  simpl. eexists; split; [done |].
  rewrite scale_value.
  generalize (inject_Z (digits_val (ip ++ fp))); intros m.
  destruct (0 <=? 0 - len fp) eqn:E.
  - assert (len fp = 0) as -> by (apply Z.leb_le in E; unfold len in *; lia).
    change (inject_Z (10 ^ (0 - 0))) with 1%Q.
    change (inject_Z (10 ^ 0)) with 1%Q. field.
  - replace (- (0 - len fp)) with (len fp) by lia. reflexivity.
Qed.

End FloatFacts.

(** ** The normaliser *)

Lemma collapse_dots_single (cleaned : string) :
  Text.count dot cleaned = 1%nat -> collapse_dots cleaned = cleaned.
Proof. intros H. unfold collapse_dots. by rewrite H. Qed.

Lemma norm_price_unfold (t : string) (r : regex) :
  norm_price (Some t) r =
  if String.eqb (collapse_dots (re_sub_empty r t)) ""
  then None else Float.float (collapse_dots (re_sub_empty r t)).
Proof. simpl. by destruct (collapse_dots (re_sub_empty r t)). Qed.

(** C2. norm_price first removes every character the rule's pattern
    matches. If the cleaned text holds exactly one decimal point it is
    parsed as it stands, so a literal digits.digits gives the number it
    denotes; if it holds more than one, only the last point is still there
    when the text is parsed, the earlier ones having been removed. *)
Theorem norm_price_decimal_points (t : string) (r : regex) :
  let cleaned := re_sub_empty r t in
  (Text.all (fun c => negb (r c)) cleaned = true /\
   (Text.all (fun c => negb (r c)) t = true -> cleaned = t) /\
   norm_price (Some t) r =
     if String.eqb (collapse_dots cleaned) "" then None
     else Float.float (collapse_dots cleaned)) /\
  (Text.count dot cleaned = 1%nat ->
   norm_price (Some t) r = Float.float cleaned /\
   forall ip fp : string,
     cleaned = ip ++ String dot fp ->
     Text.all Text.is_digit ip = true -> Text.all Text.is_digit fp = true ->
     ip ++ fp <> "" ->
     exists v, norm_price (Some t) r = Some v /\
       (v == inject_Z (Float.digits_val (ip ++ fp)) / inject_Z (10 ^ Float.len fp))%Q) /\
  (forall k : nat, Text.count dot cleaned = S (S k) ->
   Text.count dot (collapse_dots cleaned) = 1%nat /\
   forall pre post : string,
     cleaned = pre ++ String dot post -> Text.count dot post = 0%nat ->
     collapse_dots cleaned
     = Text.keep (fun a => negb (Text.eqc a dot)) pre ++ String dot post).
Proof.
  intros cleaned. split; [| split].
  - split; [apply TextFacts.keep_all |]. split.
    + intros H. by apply TextFacts.keep_id.
    + apply norm_price_unfold.
  - intros H1.
    assert (norm_price (Some t) r = Float.float cleaned) as Hn.
    { rewrite norm_price_unfold. fold cleaned.
      rewrite collapse_dots_single by done.
      destruct cleaned; [done | reflexivity]. }
    split; [done |].
    intros ip fp Hc Hi Hf Hne. rewrite Hn, Hc.
    by apply FloatFacts.float_plain.
  - intros k Hk. unfold collapse_dots. rewrite Hk.
    replace (1 <? S (S k))%nat with true by (symmetry; apply Nat.ltb_lt; lia).
    split.
    + rewrite TextFacts.count_remove_first; lia.
    + intros pre post Hc Hpost.
      assert (Text.count dot pre = S k) as <-.
      { rewrite Hc, TextFacts.count_app in Hk. simpl in Hk.
        rewrite Hpost in Hk. lia. }
      replace (S (Text.count dot pre) - 1)%nat with (Text.count dot pre) by lia.
      rewrite Hc. apply TextFacts.remove_first_prefix.
Qed.

Lemma norm_price_decimal_points_witness :
  norm_price (Some "$1,234.56") DEFAULT_REGEX = Float.float "1234.56" /\
  collapse_dots (re_sub_empty DEFAULT_REGEX "USD 1.299.00") = "1299.00".
Proof.
  split.
  - apply (norm_price_decimal_points "$1,234.56" DEFAULT_REGEX). reflexivity.
  - destruct (norm_price_decimal_points "USD 1.299.00" DEFAULT_REGEX)
      as (_ & _ & H).
    destruct (H 0%nat eq_refl) as [_ H2].
    apply (H2 "1.299" "00"); reflexivity.
Defined.

(** ** The dollar-token scan *)

Module PatternFacts.
Import Text Pattern TextFacts.

Lemma dollar_not_tok c : is_tok c = true -> eqc c dollar = false.
Proof. destruct c as [[] [] [] [] [] [] [] []]; done. Qed.

Lemma digit_is_tok c : is_digit c = true -> is_tok c = true.
Proof. unfold is_tok. by intros ->. Qed.

Lemma span_nonempty p (s : string) a g rest :
  span p s = (String a g, rest) -> (1 <= String.length (String a g))%nat.
Proof. intros _. simpl. lia. Qed.

(** The shape of a group: a digit, then one or more of digit, comma,
    period. *)
Lemma token_at_shape (s tok : string) :
  token_at s = Some tok ->
  exists d g, tok = String d g /\ is_digit d = true /\
    all is_tok g = true /\ (1 <= String.length g)%nat.
Proof.
  destruct s as [|d r]; simpl; [done |].
  destruct (is_digit d) eqn:Hd; [| done].
  pose proof (span_fst_all is_tok r) as Hall.
  destruct (span is_tok r) as [g rest]. simpl in Hall.
  destruct g as [|a g]; [done |].
  intros [= <-]. exists d, (String a g). repeat split; try done. simpl; lia.
Qed.

Lemma span_fst_app_stop p (s : string) c (t : string) :
  p c = false -> fst (span p (s ++ String c t)) = fst (span p s).
Proof.
  intros Hc. induction s as [|a s IH]; simpl; [by rewrite Hc |].
  destruct (p a); [| done].
  destruct (span p (s ++ String c t)), (span p s). simpl in *. by rewrite IH.
Qed.

(** A group never runs across a character outside [\d,\.]. *)
Lemma token_at_app_stop (s : string) c (t : string) :
  is_tok c = false -> token_at (s ++ String c t) = token_at s.
Proof.
  intros Hc. destruct s as [|d r]; simpl.
  - destruct (is_digit c) eqn:Hd; [| done].
    by rewrite (digit_is_tok _ Hd) in Hc.
  - destruct (is_digit d); [| done].
    pose proof (span_fst_app_stop is_tok r c t Hc) as H.
    destruct (span is_tok (r ++ String c t)), (span is_tok r).
    simpl in H. by subst.
Qed.

Lemma findall_dollar_app (pre t : string) :
  findall_dollar (pre ++ String dollar t)
  = (findall_dollar pre ++ findall_dollar (String dollar t))%list.
Proof.
  induction pre as [|c pre IH]; [done |].
  rewrite app_cons.
  change (findall_dollar (String c (pre ++ String dollar t))) with
    (match (if eqc c "$" then token_at (pre ++ String dollar t) else None) with
     | Some tok => tok :: findall_dollar (pre ++ String dollar t)
     | None => findall_dollar (pre ++ String dollar t)
     end).
  change (findall_dollar (String c pre)) with
    (match (if eqc c "$" then token_at pre else None) with
     | Some tok => tok :: findall_dollar pre
     | None => findall_dollar pre
     end).
  rewrite token_at_app_stop by done. rewrite IH.
  by destruct (if eqc c "$" then token_at pre else None).
Qed.

(** No match begins inside a group, so the scan may resume at the next
    character as well as behind the match. *)
Lemma findall_dollar_skip (g rest : string) :
  all is_tok g = true -> findall_dollar (g ++ rest) = findall_dollar rest.
Proof.
  induction g as [|c g IH]; [done |].
  simpl. intros [Hc Hg]%andb_true_iff.
  change (eqc c "$") with (eqc c dollar). rewrite (dollar_not_tok _ Hc).
  by apply IH.
Qed.

Lemma token_at_single (d : ascii) (rest : string) :
  stops rest = true -> token_at (String d rest) = None.
Proof.
  intros Hs. simpl. destruct (is_digit d); [| done].
  destruct rest as [|c r]; simpl in *; [done |].
  apply negb_true_iff in Hs. by rewrite Hs.
Qed.

Lemma findall_dollar_single (d : ascii) (rest : string) :
  is_digit d = true -> stops rest = true ->
  findall_dollar (String dollar (String d rest)) = findall_dollar rest.
Proof.
  intros Hd Hs.
  change (findall_dollar (String dollar (String d rest))) with
    (match token_at (String d rest) with
     | Some tok => tok :: findall_dollar (String d rest)
     | None => findall_dollar (String d rest)
     end).
  rewrite token_at_single by done.
  change (String d rest) with (String d "" ++ rest).
  apply findall_dollar_skip. simpl. by rewrite (digit_is_tok _ Hd).
Qed.

Lemma findall_dollar_shape (html tok : string) :
  In tok (findall_dollar html) ->
  exists d g, tok = String d g /\ is_digit d = true /\
    all is_tok g = true /\ (1 <= String.length g)%nat.
Proof.
  induction html as [|c s IH]; simpl; [done |].
  destruct (eqc c "$"); [| done].
  destruct (token_at s) as [t|] eqn:Ht; [| done].
  intros [<- | Hin]; [by eapply token_at_shape | by apply IH].
Qed.

End PatternFacts.

(** C10. The scan of the final fallback collects no one-character amount:
    every group it returns is a digit followed by at least one more digit,
    comma or period; a dollar sign and one digit followed by anything else,
    or by the end of the text, yields no group at all; and a page whose only
    dollar amounts are of that kind has no candidate, so that extraction
    fails instead of falling back to an amount below the floor. A digit
    followed by a period or a comma is a group: "$5." gives "5.". *)
Theorem single_digit_dollar_excluded :
  (forall html tok : string,
     In tok (Pattern.findall_dollar html) ->
     (2 <= String.length tok)%nat /\
     exists d g, tok = String d g /\ Text.is_digit d = true /\
       Text.all Pattern.is_tok g = true /\ g <> "") /\
  (forall (pre rest : string) (d : ascii),
     Text.is_digit d = true -> stops rest = true ->
     Pattern.findall_dollar (pre ++ String "$" (String d rest))
     = (Pattern.findall_dollar pre ++ Pattern.findall_dollar rest)%list) /\
  (forall (cfg : Config) (r : regex) (pre rest : string) (d : ascii),
     Text.is_digit d = true -> stops rest = true ->
     Pattern.findall_dollar pre = [] -> Pattern.findall_dollar rest = [] ->
     heuristic_price cfg (pre ++ String "$" (String d rest)) r = Raise no_price) /\
  Pattern.findall_dollar "$5 shipping, $5" = [] /\
  Pattern.findall_dollar "it costs $5." = ["5."].
Proof.
  assert (forall (pre rest : string) (d : ascii),
     Text.is_digit d = true -> stops rest = true ->
     Pattern.findall_dollar (pre ++ String "$" (String d rest))
     = (Pattern.findall_dollar pre ++ Pattern.findall_dollar rest)%list) as Hcut.
  { intros pre rest d Hd Hs.
    change "$"%char with dollar.
    rewrite (PatternFacts.findall_dollar_app pre (String d rest)).
    by rewrite PatternFacts.findall_dollar_single. }
  split; [| split; [exact Hcut | split; [| split; reflexivity]]].
  - intros html tok Hin.
    destruct (PatternFacts.findall_dollar_shape _ _ Hin) as (d & g & -> & Hd & Hg & Hl).
    split; [simpl; lia |].
    exists d, g. repeat split; try done. destruct g; simpl in *; [lia | done].
  - intros cfg r pre rest d Hd Hs Hp Hr.
    unfold heuristic_price, dollar_amounts.
    rewrite Hcut by done. by rewrite Hp, Hr.
Qed.

Lemma single_digit_dollar_excluded_witness :
  (2 <= String.length "999")%nat /\
  Pattern.findall_dollar "$5 shipping and $999 price"
    = (Pattern.findall_dollar "" ++ Pattern.findall_dollar " shipping and $999 price")%list /\
  heuristic_price default_config "only $5 shipping" DEFAULT_REGEX = Raise no_price.
Proof.
  destruct single_digit_dollar_excluded as (H1 & H2 & H3 & _).
  split; [| split].
  - apply (H1 "$5 shipping and $999 price" "999"). vm_compute. by left.
  - apply (H2 "" " shipping and $999 price" "5"%char); reflexivity.
  - apply (H3 default_config DEFAULT_REGEX "only " " shipping" "5"%char); reflexivity.
Defined.

(** ** The final fallback *)

Lemma Qltb_true (x y : Q) : Qltb x y = true <-> (x < y)%Q.
Proof.
  unfold Qltb. rewrite negb_true_iff. split.
  - intros H. apply Qnot_le_lt. intros Hle. apply Qle_bool_iff in Hle. congruence.
  - intros H. destruct (Qle_bool y x) eqn:E; [| done].
    apply Qle_bool_iff in E. exfalso. by apply (Qlt_not_le x y).
Qed.

Lemma Qltb_false (x y : Q) : Qltb x y = false <-> (y <= x)%Q.
Proof.
  unfold Qltb. rewrite negb_false_iff. apply Qle_bool_iff.
Qed.

(** max returns an element of the list that no element exceeds. *)
Lemma py_max_spec (others : list Q) : forall first : Q,
  In (py_max first others) (first :: others) /\
  forall x, In x (first :: others) -> (x <= py_max first others)%Q.
Proof.
  induction others as [|y ys IH]; intros first; simpl.
  - split; [by left |]. intros x [<- | []]. apply Qle_refl.
  - unfold py_max in *. simpl.
    destruct (Qltb first y) eqn:E.
    + destruct (IH y) as [Hin Hge]. split; [by right |].
      intros x [<- | Hx]; [| by apply Hge].
      apply Qltb_true in E. apply Qle_trans with y; [by apply Qlt_le_weak |].
      apply Hge. by left.
    + destruct (IH first) as [Hin Hge]. split.
      * destruct Hin as [<- | Hin]; [by left | right; by right].
      * intros x [<- | [<- | Hx]].
        -- apply Hge. by left.
        -- apply Qltb_false in E. apply Qle_trans with first; [done |].
           apply Hge. by left.
        -- apply Hge. by right.
Qed.

Lemma extract_from_falls_back {ext : Externals} (cfg : Config)
  (url html selector attr : string) (r : regex) (hint : option string) :
  selector_price (BeautifulSoup html) selector attr r = Ok None ->
  jsonld_price (ld_json_scripts (BeautifulSoup html)) r = None ->
  peloton_price url html r hint = None ->
  extract_from cfg url html selector attr r hint = heuristic_price cfg html r.
Proof. intros H1 H2 H3. unfold extract_from. by rewrite H1, H2, H3. Qed.

(** C8. When the selector, JSON-LD and the footnote pattern gave nothing,
    extraction is the final fallback: it normalises every token of the
    dollar scan and returns the largest amount among those at or above
    MIN_PRICE_FLOOR, or the largest of all when none reaches the floor; with
    no amount at all it raises. With the default floor a page holding
    "$5 shipping" and "$999 price" gives 999. *)
Theorem heuristic_fallback {ext : Externals} (cfg : Config)
  (url html selector attr : string) (r : regex) (hint : option string) :
  selector_price (BeautifulSoup html) selector attr r = Ok None ->
  jsonld_price (ld_json_scripts (BeautifulSoup html)) r = None ->
  peloton_price url html r hint = None ->
  let amounts := omap (fun n => norm_price (Some n) r) (Pattern.findall_dollar html) in
  let floor := MIN_PRICE_FLOOR cfg in
  (amounts = [] ->
   extract_from cfg url html selector attr r hint = Raise no_price) /\
  (amounts <> [] ->
   exists best,
     extract_from cfg url html selector attr r hint = Ok best /\
     In best amounts /\
     ((exists a, In a amounts /\ (floor <= a)%Q) ->
      (floor <= best)%Q /\ forall a, In a amounts -> (floor <= a)%Q -> (a <= best)%Q) /\
     ((forall a, In a amounts -> (a < floor)%Q) ->
      forall a, In a amounts -> (a <= best)%Q)) /\
  heuristic_price default_config "$5 shipping and $999 price" DEFAULT_REGEX = Ok 999%Q.
Proof.
  intros H1 H2 H3.
  rewrite (extract_from_falls_back cfg _ _ _ _ _ _ H1 H2 H3).
  unfold heuristic_price, dollar_amounts. cbv zeta.
  generalize (omap (fun n => norm_price (Some n) r) (Pattern.findall_dollar html)).
  intros amounts. set (floor := MIN_PRICE_FLOOR cfg).
  split; [by intros -> |]. split; [| reflexivity].
  destruct amounts as [|a0 rest]; [done |]. intros _.
  remember (a0 :: rest) as amounts eqn:Ea.
  replace (match amounts with
           | [] => Raise no_price
           | a :: amounts0 =>
               match List.filter (above_floor cfg) (a :: amounts0) with
               | [] => Ok (py_max a amounts0)
               | c :: candidates => Ok (py_max c candidates)
               end
           end)
    with (match List.filter (above_floor cfg) amounts with
          | [] => Ok (py_max a0 rest)
          | c :: candidates => Ok (py_max c candidates)
          end) by by subst.
  assert (forall x, In x (List.filter (above_floor cfg) amounts) <->
                    In x amounts /\ (floor <= x)%Q) as Hf.
  { intros x. rewrite filter_In. unfold above_floor. by rewrite Qle_bool_iff. }
  destruct (List.filter (above_floor cfg) amounts) as [|c cs] eqn:Ec.
  - destruct (py_max_spec rest a0) as [Hin Hge]. rewrite <- Ea in Hin, Hge.
    exists (py_max a0 rest). split; [done | split; [done | split]].
    + intros (a & Ha & Hfl). exfalso. by apply (proj2 (Hf a)).
    + intros _ a Ha. by apply Hge.
  - destruct (py_max_spec cs c) as [Hin Hge].
    exists (py_max c cs). split; [done | split; [by apply Hf | split]].
    + intros _. split; [by apply Hf |].
      intros a Ha Hfl. apply Hge. by apply Hf.
    + intros Hlt. exfalso.
      destruct (proj1 (Hf c)) as [Hc Hcf]; [by left |].
      by apply (Qlt_not_le c floor (Hlt c Hc)).
Qed.

Lemma heuristic_fallback_witness :
  exists best,
    extract_from (ext := Fixture.ext) default_config "https://shop.example/p"
      Fixture.plain_page "span.price" "inner_text" DEFAULT_REGEX (Some "Rower")
    = Ok best /\
    In best (dollar_amounts Fixture.plain_page DEFAULT_REGEX).
Proof.
  destruct (heuristic_fallback (ext := Fixture.ext) default_config
              "https://shop.example/p" Fixture.plain_page
              "span.price" "inner_text" DEFAULT_REGEX (Some "Rower")
              eq_refl eq_refl eq_refl) as (_ & H & _).
  destruct H as (best & Hb & Hin & _); [vm_compute; discriminate |].
  exists best. split; assumption.
Defined.

(** ** Order of the strategies *)

Lemma selector_price_node (soup : Soup) (selector attr : string) (r : regex)
  (node : Tag) :
  selector <> "" -> select_one soup selector = Ok (Some node) ->
  selector_price soup selector attr r = Ok (norm_price (raw_of node attr) r).
Proof.
  intros Hs Hn. unfold selector_price.
  destruct (String.eqb_spec selector ""); [done |]. by rewrite Hn.
Qed.

(** C1. Once the page is fetched, an element matched by the rule's selector
    whose attribute or text normalises to a number decides the price,
    whatever JSON-LD the page embeds; after the selector comes JSON-LD,
    then the footnote pattern, then the final fallback. *)
Theorem selector_takes_precedence {ext : Externals} (cfg : Config) (env : Env)
  (url selector attr : string) (r : regex) (hint : option string) :
  (forall (w w' : World) (resp : Response) (node : Tag) (a : Q),
     http_get_with_backoff cfg env url w = (Ok resp, w') ->
     selector <> "" ->
     select_one (BeautifulSoup (text resp)) selector = Ok (Some node) ->
     norm_price (raw_of node attr) r = Some a ->
     extract_price cfg env url selector attr r hint w = (Ok a, w')) /\
  (forall (html : string) (a : Q),
     selector_price (BeautifulSoup html) selector attr r = Ok None ->
     jsonld_price (ld_json_scripts (BeautifulSoup html)) r = Some a ->
     extract_from cfg url html selector attr r hint = Ok a) /\
  (forall (html : string) (a : Q),
     selector_price (BeautifulSoup html) selector attr r = Ok None ->
     jsonld_price (ld_json_scripts (BeautifulSoup html)) r = None ->
     peloton_price url html r hint = Some a ->
     extract_from cfg url html selector attr r hint = Ok a) /\
  (forall (html : string),
     selector_price (BeautifulSoup html) selector attr r = Ok None ->
     jsonld_price (ld_json_scripts (BeautifulSoup html)) r = None ->
     peloton_price url html r hint = None ->
     extract_from cfg url html selector attr r hint = heuristic_price cfg html r).
Proof.
  repeat split.
  - intros w w' resp node a Hget Hs Hn Ha.
    unfold extract_price. rewrite Hget. f_equal.
    unfold extract_from.
    by rewrite (selector_price_node _ _ _ _ _ Hs Hn), Ha.
  - intros html a H1 H2. unfold extract_from. by rewrite H1, H2.
  - intros html a H1 H2 H3. unfold extract_from. by rewrite H1, H2, H3.
  - intros html. apply extract_from_falls_back.
Qed.

Lemma selector_takes_precedence_witness :
  jsonld_price (ext := Fixture.ext)
    (ld_json_scripts (Fixture.soup_of Fixture.product_page)) DEFAULT_REGEX
  = Some 999%Q /\
  fst (extract_price (ext := Fixture.ext) default_config
         (Fixture.constant_env 200 Fixture.product_page)
         "https://shop.example/p" "span.price" "inner_text" DEFAULT_REGEX
         (Some "Rower") Fixture.world0)
  = Ok 1299%Q.
Proof.
  split; [reflexivity |].
  destruct (selector_takes_precedence (ext := Fixture.ext) default_config
              (Fixture.constant_env 200 Fixture.product_page)
              "https://shop.example/p" "span.price" "inner_text" DEFAULT_REGEX
              (Some "Rower")) as [H _].
  erewrite (H Fixture.world0 _ _ Fixture.price_tag 1299%Q);
    [reflexivity | vm_compute; reflexivity | discriminate | reflexivity | reflexivity].
Defined.

(** ** Binary64 arithmetic: signs and nans *)

(** float("0.1") is 0x1.999999999999ap-4, float("1299.00") is 1299.0 exactly,
    and a text of 401 digits is inf. *)
Example of_Q_doubles :
  Binary64.of_Q (1 # 10) = S754_finite false 7205759403792794 (-56) /\
  Binary64.of_Q 1299 = S754_finite false 5713062417924096 (-42) /\
  Binary64.of_Q (inject_Z (10 ^ 400)) = S754_infinity false.
Proof. repeat split; vm_compute; reflexivity. Qed.

Module Binary64Facts.
Import Binary64.

Lemma shr_1_nonneg (mrs : shr_record) : 0 <= shr_m mrs -> 0 <= shr_m (shr_1 mrs).
Proof. destruct mrs as [m r s]. destruct m as [|[p|p|]|[p|p|]]; simpl; lia. Qed.

Lemma iter_pos_inv {A : Type} (P : A -> Prop) (f : A -> A) :
  (forall x, P x -> P (f x)) -> forall n x, P x -> P (SpecFloat.iter_pos f n x).
Proof. intros Hf. induction n as [n IH|n IH|]; simpl; auto. Qed.

Lemma shr_nonneg (mrs : shr_record) (e n : Z) :
  0 <= shr_m mrs -> 0 <= shr_m (fst (shr mrs e n)).
Proof.
  intros H. unfold shr. destruct n as [|p|p]; simpl; try assumption.
  apply (iter_pos_inv (fun x => 0 <= shr_m x)); [apply shr_1_nonneg | assumption].
Qed.

Lemma shr_fexp_nonneg (m e : Z) (l : location) :
  0 <= m -> 0 <= shr_m (fst (shr_fexp prec emax m e l)).
Proof.
  intros H. unfold shr_fexp. apply shr_nonneg. destruct l as [|[]]; assumption.
Qed.

Lemma round_nearest_even_nonneg (m : Z) (l : location) :
  0 <= m -> 0 <= round_nearest_even m l.
Proof.
  intros H. unfold round_nearest_even.
  destruct l as [|[]]; try destruct (Z.even m); lia.
Qed.

(** Rounding keeps the sign it is given and never makes a nan. *)
Lemma binary_round_aux_signed (s : bool) (m e : Z) (l : location) :
  0 <= m -> signed s (binary_round_aux prec emax s m e l).
Proof.
  intros H. unfold binary_round_aux.
  pose proof (shr_fexp_nonneg m e l H) as H1.
  destruct (shr_fexp prec emax m e l) as [mrs' e'] eqn:E1. simpl in H1.
  pose proof (shr_fexp_nonneg _ e' loc_Exact
                (round_nearest_even_nonneg _ (loc_of_shr_record mrs') H1)) as H2.
  destruct (shr_fexp prec emax _ e' loc_Exact) as [mrs'' e''] eqn:E2. simpl in H2.
  destruct (shr_m mrs'') as [|p|p]; simpl; try reflexivity.
  - destruct (Z.leb _ _); simpl; reflexivity.
  - lia.
Qed.

Lemma binary_round_signed (s : bool) (m : positive) (e : Z) :
  signed s (binary_round prec emax s m e).
Proof.
  unfold binary_round. destruct (shl_align _ _ _) as [mz ez].
  apply binary_round_aux_signed. lia.
Qed.

Lemma signed_not_nan (s : bool) (x : binary64) : signed s x -> is_nan x = false.
Proof. destruct x; simpl; intros; try reflexivity; contradiction. Qed.

Lemma signed_not_negative (x : binary64) : signed false x -> not_negative x = true.
Proof.
  destruct x as [s|s| |s m e]; simpl; intros; subst; try reflexivity; contradiction.
Qed.

Lemma div_core_nonneg (m1 : positive) (e1 : Z) (m2 : positive) (e2 : Z) :
  0 <= fst (fst (SFdiv_core_binary prec emax (Zpos m1) e1 (Zpos m2) e2)).
Proof.
  unfold SFdiv_core_binary.
  set (s := _ - _ - _).
  set (m' := match s with Z0 => _ | Zpos _ => _ | Zneg _ => _ end).
  assert (0 <= m') as Hm.
  { subst m'. destruct s; try lia. apply Z.shiftl_nonneg. lia. }
  pose proof (Z.div_pos m' (Zpos m2) Hm ltac:(lia)) as Hq.
  unfold Z.div in Hq.
  destruct (Z.div_eucl m' (Zpos m2)) as [q r]. simpl in *. exact Hq.
Qed.

Lemma div_finite_signed (sx : bool) (mx : positive) (ex : Z)
  (sy : bool) (my : positive) (ey : Z) :
  signed (xorb sx sy) (div (S754_finite sx mx ex) (S754_finite sy my ey)).
Proof.
  unfold div, SFdiv.
  pose proof (div_core_nonneg mx ex my ey) as H.
  destruct (SFdiv_core_binary _ _ _ _ _ _) as [[mz ez] lz]. simpl in H.
  apply binary_round_aux_signed; assumption.
Qed.

(** float(text) is never a nan. *)
Lemma of_Q_not_nan (q : Q) : is_nan (of_Q q) = false.
Proof.
  unfold of_Q. destruct (Qnum q); [reflexivity | |];
    eapply signed_not_nan; apply div_finite_signed.
Qed.

Lemma of_Q_zero (q : Q) : (q == 0)%Q -> of_Q q = zero.
Proof.
  intros H. unfold of_Q. destruct q as [n d]. unfold Qeq in H. simpl in *.
  assert (n = 0) as -> by lia. reflexivity.
Qed.

Lemma of_Q_not_negative (q : Q) : (0 <= q)%Q -> not_negative (of_Q q) = true.
Proof.
  intros H. unfold of_Q. destruct q as [n d]. unfold Qle in H. simpl in *.
  destruct n; [reflexivity | | lia].
  apply signed_not_negative. apply (div_finite_signed false p 0 false d 0).
Qed.

(** x == x for every float but a nan. *)
Lemma eqb_refl (x : binary64) : is_nan x = false -> eqb x x = true.
Proof.
  unfold eqb, SFeqb. destruct x as [s|s| |s m e]; simpl; try discriminate;
    intros _; try (destruct s; reflexivity).
  destruct s; rewrite Z.compare_refl, Pos.compare_cont_refl; reflexivity.
Qed.

Lemma sub_not_nan (a p : binary64) :
  is_nan a = false -> finite p = true -> is_nan (sub a p) = false.
Proof.
  intros Ha Hp. unfold sub, SFsub.
  destruct a as [sa|sa| |sa ma ea]; try discriminate;
    destruct p as [sp|sp| |sp mp ep]; try discriminate;
    try reflexivity; try (destruct sa, sp; reflexivity).
  unfold binary_normalize.
  destruct (_ - _); try reflexivity;
    eapply signed_not_nan; apply binary_round_signed.
Qed.

Lemma abs_not_negative (x : binary64) :
  is_nan x = false -> not_negative (abs x) = true.
Proof. destruct x; simpl; try discriminate; reflexivity. Qed.

Lemma div_not_negative (x p : binary64) :
  not_negative x = true -> not_negative p = true -> finite p = true ->
  truthy p = true ->
  not_negative (div x p) = true.
Proof.
  intros Hx Hp Hf Ht.
  destruct p as [sp|sp| |sp mp ep]; try discriminate.
  destruct sp; try discriminate.
  destruct x as [sx|sx| |sx mx ex]; try discriminate.
  - reflexivity.
  - destruct sx; try discriminate. reflexivity.
  - destruct sx; try discriminate.
    apply signed_not_negative. apply (div_finite_signed false mx ex false mp ep).
Qed.

Lemma mul_not_negative (x : binary64) (m : positive) (e : Z) :
  not_negative x = true -> not_negative (mul x (S754_finite false m e)) = true.
Proof.
  intros Hx. destruct x as [sx|sx| |sx mx ex]; try discriminate.
  - reflexivity.
  - destruct sx; try discriminate. reflexivity.
  - destruct sx; try discriminate.
    apply signed_not_negative. unfold mul, SFmul.
    apply binary_round_aux_signed. lia.
Qed.

(** 0.0 <= x for every x that is not negative. *)
Lemma zero_leb (x : binary64) : not_negative x = true -> leb zero x = true.
Proof.
  destruct x as [s|s| |s m e]; try discriminate; try reflexivity;
    destruct s; try discriminate; reflexivity.
Qed.

End Binary64Facts.

(** ** The change detector *)

(** From a stored amount that is finite and not negative, the percentage
    is not negative (and not a nan), whatever the new amount. *)
Lemma change_pct_not_negative (prev amount : Binary64.binary64) :
  Binary64.not_negative prev = true -> Binary64.finite prev = true ->
  Binary64.is_nan amount = false ->
  Binary64.not_negative (change_pct prev amount) = true.
Proof.
  intros Hp Hf Ha. unfold change_pct.
  destruct (Binary64.truthy prev) eqn:Ht; [| reflexivity].
  apply (Binary64Facts.mul_not_negative _ 7036874417766400 (-46)).
  apply Binary64Facts.div_not_negative; try assumption.
  apply Binary64Facts.abs_not_negative.
  apply Binary64Facts.sub_not_nan; assumption.
Qed.

Lemma detect_changed (threshold prev amount : Binary64.binary64) :
  Binary64.eqb amount prev = false ->
  detect threshold (Some prev) amount =
  if Binary64.leb threshold (change_pct prev amount)
  then Change prev amount (change_pct prev amount)
  else MinorChangeIgnored prev amount (change_pct prev amount).
Proof. intros H. unfold detect. by rewrite H. Qed.

(** The same amount again is no change. *)
Lemma detect_same (threshold : Binary64.binary64) (amt : Q) :
  detect threshold (Some (Binary64.of_Q amt)) (Binary64.of_Q amt) = NoChange.
Proof.
  unfold detect.
  by rewrite (Binary64Facts.eqb_refl _ (Binary64Facts.of_Q_not_nan amt)).
Qed.

(** The percentage is a binary64 result: from 100 to 129 it is
    28.999999999999996 (8162774324609023 * 2^-48), one unit in the last
    place below 29, and a threshold of 29 ignores the change. *)
Example change_pct_is_rounded :
  change_pct (Binary64.of_Q 100) (Binary64.of_Q 129)
  = S754_finite false 8162774324609023 (-48) /\
  Binary64.of_Q 29 = S754_finite false 8162774324609024 (-48) /\
  detect (Binary64.of_Q 29) (Some (Binary64.of_Q 100)) (Binary64.of_Q 129)
  = MinorChangeIgnored (Binary64.of_Q 100) (Binary64.of_Q 129)
      (S754_finite false 8162774324609023 (-48)).
Proof. repeat split; vm_compute; reflexivity. Qed.

(** A stored amount too large for a double is inf, and a change away from
    it has the percentage inf / inf, a nan, which no threshold admits. *)
Example change_from_infinity_ignored :
  Binary64.of_Q (inject_Z (10 ^ 400)) = S754_infinity false /\
  detect (Binary64.of_Q 0) (Some (Binary64.of_Q (inject_Z (10 ^ 400))))
    (Binary64.of_Q 5)
  = MinorChangeIgnored (S754_infinity false) (Binary64.of_Q 5) S754_nan.
Proof. split; vm_compute; reflexivity. Qed.

(** C3. With a stored amount that differs from the new one, both taken as
    the doubles Python holds, the percentage is the binary64 result of
    abs(new - prev) / prev * 100, and 100.0 when prev is zero. When
    pct >= threshold the rule is a Change: one CHANGE line with from, to and
    pct is appended to the competitor's events, no other competitor's
    events are touched, and change_count goes up by one. Otherwise the
    change is ignored: no event is added and no counter moves. From 1000 to
    950 is a Change of 5.0 and from 0 to 10 a Change of 100.0.
    With the threshold 0 a change from a stored amount that is finite and
    not negative is a Change, but not every change is: the percentage
    divides by the stored amount itself, not by its magnitude, so from -100
    to -50, amounts a pattern that keeps the minus sign yields, it is -50.0
    and the change is ignored, without event or count. *)
Theorem change_detection (cfg : Config) (r : Rule) (amt prev : Q)
  (w : World) (st : Run) :
  previous (history st) (url r) = Some prev ->
  Binary64.eqb (Binary64.of_Q amt) (Binary64.of_Q prev) = false ->
  let new := Binary64.of_Q amt in
  let old := Binary64.of_Q prev in
  let threshold := Binary64.of_Q (CHANGE_THRESHOLD_PCT cfg) in
  let pct := change_pct old new in
  let st' := on_amount cfg r amt w st in
  ((Binary64.eqb old Binary64.zero = false ->
    pct = Binary64.mul
            (Binary64.div (Binary64.abs (Binary64.sub new old)) old)
            (Binary64.of_Q 100)) /\
   (Binary64.eqb old Binary64.zero = true -> pct = Binary64.of_Q 100) /\
   ((prev == 0)%Q -> pct = Binary64.of_Q 100)) /\
  (Binary64.leb threshold pct = true ->
   detect threshold (Some old) new = Change old new pct /\
   events_by_comp st' !! comp r
   = Some (default [] (events_by_comp st !! comp r)
           ++ [CHANGE (comp r) (name r) old new (rule_currency r) pct (url r)])%list /\
   (forall c : string, c <> comp r ->
      events_by_comp st' !! c = events_by_comp st !! c) /\
   change_count st' = S (change_count st) /\
   init_count st' = init_count st /\ error_count st' = error_count st) /\
  (Binary64.leb threshold pct = false ->
   detect threshold (Some old) new = MinorChangeIgnored old new pct /\
   events_by_comp st' = events_by_comp st /\
   change_count st' = change_count st /\
   init_count st' = init_count st /\ error_count st' = error_count st) /\
  ((CHANGE_THRESHOLD_PCT cfg == 0)%Q ->
   (0 <= prev)%Q -> Binary64.finite old = true ->
   Binary64.leb threshold pct = true /\
   detect threshold (Some old) new = Change old new pct) /\
  (detect (Binary64.of_Q 0) (Some (Binary64.of_Q 1000)) (Binary64.of_Q 950)
   = Change (Binary64.of_Q 1000) (Binary64.of_Q 950) (Binary64.of_Q 5) /\
   detect (Binary64.of_Q 0) (Some (Binary64.of_Q 0)) (Binary64.of_Q 10)
   = Change (Binary64.of_Q 0) (Binary64.of_Q 10) (Binary64.of_Q 100)) /\
  (norm_price (Some "-100") SIGNED_REGEX = Some (-100)%Q /\
   norm_price (Some "-50") SIGNED_REGEX = Some (-50)%Q /\
   detect (Binary64.of_Q 0) (Some (Binary64.of_Q (-100))) (Binary64.of_Q (-50))
   = MinorChangeIgnored (Binary64.of_Q (-100)) (Binary64.of_Q (-50))
       (Binary64.of_Q (-50)) /\
   (let ignored :=
      on_amount default_config Fixture.rower_rule (-50) Fixture.world0
        (Fixture.run_with (-100)) in
    events_by_comp ignored = ∅ /\ change_count ignored = 0%nat) /\
   ~ zero_threshold_reports_every_change).
Proof.
  intros Hprev Hne new old threshold pct st'.
  assert (detect threshold (Some old) new
          = if Binary64.leb threshold pct then Change old new pct
            else MinorChangeIgnored old new pct) as Hd
    by exact (detect_changed threshold old new Hne).
  assert (Binary64.leb threshold pct = true ->
          detect threshold (Some old) new = Change old new pct) as Hchange
    by (by intros Hle; rewrite Hle in Hd).
  split; [| split; [| split; [| split; [| split]]]].
  - subst pct. unfold change_pct, Binary64.truthy. split; [| split].
    + by intros ->.
    + by intros ->.
    + intros H0. subst old. by rewrite (Binary64Facts.of_Q_zero prev H0).
  - intros Hle. split; [by apply Hchange |].
    subst st'. unfold on_amount. rewrite Hprev.
    change (option_map Binary64.of_Q (Some prev)) with (Some old).
    fold threshold new. rewrite (Hchange Hle).
    cbn [events_by_comp init_count change_count error_count].
    unfold add_event. rewrite lookup_insert_eq.
    split; [done |]. split; [| done].
    intros c Hc. by rewrite lookup_insert_ne.
  - intros Hlt. rewrite Hlt in Hd. split; [exact Hd |].
    subst st'. unfold on_amount. rewrite Hprev.
    change (option_map Binary64.of_Q (Some prev)) with (Some old).
    fold threshold new. by rewrite Hd.
  - intros H0 Hp Hf.
    assert (Binary64.leb threshold pct = true) as Hle.
    { subst threshold. rewrite (Binary64Facts.of_Q_zero _ H0).
      apply Binary64Facts.zero_leb. subst pct. apply change_pct_not_negative.
      - by apply Binary64Facts.of_Q_not_negative.
      - exact Hf.
      - apply Binary64Facts.of_Q_not_nan. }
    split; [exact Hle | by apply Hchange].
  - split; vm_compute; reflexivity.
  - split; [vm_compute; reflexivity |].
    split; [vm_compute; reflexivity |].
    split; [vm_compute; reflexivity |].
    split.
    + repeat split; vm_compute; reflexivity.
    + intros H.
      destruct (H (-100)%Q (-50)%Q) as (x & Hx); [vm_compute; reflexivity |].
      vm_compute in Hx. discriminate Hx.
Qed.

Lemma change_detection_witness :
  events_by_comp
    (on_amount default_config Fixture.rower_rule 950 Fixture.world0
       (Fixture.run_with 1000)) !! "Hydrow"
  = Some [CHANGE "Hydrow" "Rower" (Binary64.of_Q 1000) (Binary64.of_Q 950) "USD"
            (Binary64.of_Q 5) "https://shop.example/p"] /\
  change_count
    (on_amount default_config Fixture.rower_rule 950 Fixture.world0
       (Fixture.run_with 1000))
  = 1%nat /\
  events_by_comp
    (on_amount default_config Fixture.rower_rule (-50) Fixture.world0
       (Fixture.run_with (-100)))
  = ∅.
Proof.
  assert (Binary64.eqb (Binary64.of_Q 950) (Binary64.of_Q 1000) = false) as Hne
    by (vm_compute; reflexivity).
  destruct (change_detection default_config Fixture.rower_rule 950 1000
              Fixture.world0 (Fixture.run_with 1000) eq_refl Hne)
    as (_ & H & _ & Hzero & _ & _ & _ & _ & Hneg & _).
  destruct Hzero as [Hle _];
    [reflexivity | intros E; discriminate E | reflexivity |].
  destruct (H Hle) as (_ & Hev & _ & Hc & _).
  split; [| split; [exact Hc |]].
  - etransitivity; [exact Hev | vm_compute; reflexivity].
  - exact (proj1 Hneg).
Defined.

(** ** The clock never runs backwards *)

Section Clock.
Context {ext : Externals} (cfg : Config) (env : Env).
Hypothesis Hok : env_ok env.

Lemma uniform_range (a b : Q) (w : World) :
  (a <= b)%Q -> (a <= fst (uniform env a b w) <= b)%Q.
Proof.
  intros Hab. unfold uniform. simpl. rewrite Qred_correct.
  destruct Hok as [Hr _]. specialize (Hr (draws w)).
  set (x := random env (draws w)) in *. destruct Hr as [H0 H1].
  assert (0 <= (b - a) * x)%Q as Hlo.
  { apply Qmult_le_0_compat; [| done]. lra. }
  assert ((b - a) * x <= (b - a) * 1)%Q as Hhi.
  { rewrite (Qmult_comm (b - a) x), (Qmult_comm (b - a) 1).
    apply Qmult_le_compat_r; [done | lra]. }
  split; lra.
Qed.

Lemma uniform_world (a b : Q) (w : World) :
  clock (snd (uniform env a b w)) = clock w /\
  _LAST_FETCH (snd (uniform env a b w)) = _LAST_FETCH w /\
  trace (snd (uniform env a b w)) = trace w /\
  requests (snd (uniform env a b w)) = requests w.
Proof. done. Qed.

Lemma sleep_clock (secs : Q) (w : World) : (clock (sleep secs w) == clock w + secs)%Q.
Proof. unfold sleep. simpl. apply Qred_correct. Qed.

Lemma requests_get_clock (target : string) (w : World) :
  (clock w <= clock (snd (requests_get env target w)))%Q.
Proof.
  unfold requests_get. simpl. rewrite Qred_correct.
  destruct Hok as [_ He]. specialize (He (requests w) target). lra.
Qed.

Lemma throttle_clock (url : string) (w : World) :
  (clock w <= clock (snd (_throttle env url w)))%Q.
Proof.
  unfold _throttle. destruct (netloc url); [| apply Qle_refl].
  unfold uniform. simpl.
  match goal with |- context [Qltb 0 ?x] => set (wait := x) end.
  destruct (Qltb 0 wait) eqn:E; simpl; [| apply Qle_refl].
  apply Qltb_true in E. rewrite Qred_correct. lra.
Qed.

Lemma backoff_loop_clock (tries : nat) : forall (delay : Q) (url : string) (w : World),
  (0 <= delay)%Q ->
  (clock w <= clock (snd (backoff_loop cfg env tries delay url w)))%Q.
Proof.
  induction tries as [|n IH]; intros delay url w Hd; cbn [backoff_loop snd]; [apply Qle_refl |].
  pose proof (throttle_clock url w) as Ht.
  destruct (_throttle env url w) as [[[]|e] w1]; cbn [snd] in Ht; [| done].
  pose proof (requests_get_clock (maybe_proxy cfg url) w1) as Hg.
  destruct (requests_get env (maybe_proxy cfg url) w1) as [[resp|e] w2];
    cbn [snd] in Hg; [| cbn [snd]; lra].
  assert (forall hi : Q, (0 <= hi)%Q ->
            (clock w <= clock (snd (backoff_loop cfg env n (Qred (Qmin (delay * 2) 30)) url
                          (sleep (delay + fst (uniform env 0 hi w2))
                             (snd (uniform env 0 hi w2))))))%Q) as Hretry.
  { intros hi Hhi.
    eapply Qle_trans; [| apply IH].
    - rewrite sleep_clock.
      pose proof (uniform_range 0 hi w2 Hhi) as [Hj _].
      destruct (uniform_world 0 hi w2) as [-> _]. lra.
    - rewrite Qred_correct. apply Q.min_glb; lra. }
  destruct (status_code resp =? 429).
  { apply (Hretry 1.5%Q). lra. }
  destruct ((500 <=? status_code resp) && (status_code resp <? 600)).
  { apply (Hretry 1.0%Q). lra. }
  destruct (raise_for_status resp); cbn [snd]; lra.
Qed.

Lemma extract_price_clock (url selector attr : string) (r : regex)
  (hint : option string) (w : World) :
  (clock w <= clock (snd (extract_price cfg env url selector attr r hint w)))%Q.
Proof.
  unfold extract_price, http_get_with_backoff.
  pose proof (backoff_loop_clock MAX_TRIES 2 url w) as H.
  destruct (backoff_loop cfg env MAX_TRIES 2 url w) as [[resp|e] w'];
    cbn [snd] in *; apply H; lra.
Qed.

End Clock.

(** ** History *)

Lemma chrono_bounds (l : list Observation) : forall lo hi, chrono lo hi l -> lo <= hi.
Proof.
  induction l as [|o l IH]; simpl; intros lo hi H; [done |].
  destruct H as [H1 H2]. specialize (IH _ _ H2). lia.
Qed.

Lemma chrono_widen (l : list Observation) : forall lo lo' hi hi',
  lo' <= lo -> hi <= hi' -> chrono lo hi l -> chrono lo' hi' l.
Proof.
  induction l as [|o l IH]; simpl; intros lo lo' hi hi' Hlo Hhi H; [lia |].
  destruct H as [H1 H2]. split; [lia |]. eapply IH; [| exact Hhi | exact H2]. lia.
Qed.

Lemma chrono_app (l1 l2 : list Observation) : forall lo mid hi,
  chrono lo mid l1 -> chrono mid hi l2 -> chrono lo hi (l1 ++ l2)%list.
Proof.
  induction l1 as [|o l1 IH]; simpl; intros lo mid hi H1 H2.
  - eapply chrono_widen; [exact H1 | | exact H2]. lia.
  - destruct H1 as [Ha Hb]. split; [done |]. by eapply IH.
Qed.

Section History.
Context {ext : Externals} (cfg : Config) (env : Env).

Lemma on_amount_history (r : Rule) (amt : Q) (w : World) (st : Run) :
  history (on_amount cfg r amt w st)
  = append_entry (url r) (observe r amt w) (history st) /\
  world (on_amount cfg r amt w st) = w.
Proof.
  unfold on_amount.
  by destruct (detect _ _ _).
Qed.

(** The three ways one iteration can go. *)
Lemma process_rule_cases (r : Rule) (st : Run) :
  (url r = "" \/ selector r = "") /\ process_rule cfg env r st = skip r st \/
  url r <> "" /\ selector r <> "" /\
  ((exists e w, extract_price cfg env (url r) (selector r) (attr r) (rule_regex r)
                  (Some (name r)) (world st) = (Raise e, w) /\
                process_rule cfg env r st = on_error r e w st) \/
   (exists amt w, extract_price cfg env (url r) (selector r) (attr r) (rule_regex r)
                    (Some (name r)) (world st) = (Ok amt, w) /\
                  process_rule cfg env r st = on_amount cfg r amt w st)).
Proof.
  unfold process_rule.
  destruct (String.eqb_spec (url r) ""); [left; split; [by left | done] |].
  destruct (String.eqb_spec (selector r) ""); [left; split; [by right | done] |].
  right. split; [done |]. split; [done |]. simpl.
  destruct (extract_price cfg env (url r) (selector r) (attr r) (rule_regex r)
              (Some (name r)) (world st)) as [[amt|e] w].
  - right. by exists amt, w.
  - left. by exists e, w.
Qed.

Lemma append_entry_lookup (key k : string) (o : Observation)
  (h : gmap string (list Observation)) :
  default [] (append_entry key o h !! k)
  = (default [] (h !! k) ++ (if String.eqb key k then [o] else []))%list.
Proof.
  unfold append_entry. destruct (String.eqb_spec key k) as [-> | Hne].
  - by rewrite lookup_insert_eq.
  - rewrite lookup_insert_ne by done. by rewrite app_nil_r.
Qed.

Hypothesis Hok : env_ok env.

Lemma process_rule_clock (r : Rule) (st : Run) :
  (clock (world st) <= clock (world (process_rule cfg env r st)))%Q.
Proof.
  destruct (process_rule_cases r st) as [[_ ->] | (_ & _ & [H | H])].
  - apply Qle_refl.
  - destruct H as (e & w & He & ->).
    pose proof (extract_price_clock cfg env Hok (url r) (selector r) (attr r)
                  (rule_regex r) (Some (name r)) (world st)) as Hc.
    by rewrite He in Hc.
  - destruct H as (amt & w & He & ->).
    pose proof (extract_price_clock cfg env Hok (url r) (selector r) (attr r)
                  (rule_regex r) (Some (name r)) (world st)) as Hc.
    rewrite He in Hc. by rewrite (proj2 (on_amount_history r amt w st)).
Qed.

(** One iteration leaves every stored list as a prefix of the new one. *)
Lemma process_rule_history (r : Rule) (st : Run) (key : string) :
  exists suf,
    default [] (history (process_rule cfg env r st) !! key)
    = (default [] (history st !! key) ++ suf)%list /\
    chrono (Qfloor (clock (world st)))
           (Qfloor (clock (world (process_rule cfg env r st)))) suf /\
    (length suf <= rules_on key [r])%nat.
Proof.
  pose proof (process_rule_clock r st) as Hclock.
  apply Qfloor_resp_le in Hclock.
  destruct (process_rule_cases r st) as [[_ E] | (_ & _ & [H | H])].
  - exists []. rewrite E in *. rewrite app_nil_r. simpl. split; [done |]. split; [done | lia].
  - destruct H as (e & w & _ & E). exists []. rewrite E in *.
    rewrite app_nil_r. simpl. split; [done |]. split; [done | lia].
  - destruct H as (amt & w & _ & E). rewrite E in *.
    destruct (on_amount_history r amt w st) as [Hh Hw]. rewrite Hh, Hw in *.
    rewrite append_entry_lookup.
    exists (if String.eqb (url r) key then [observe r amt w] else []).
    split; [done |]. simpl. destruct (String.eqb (url r) key); simpl.
    + split; [split; [done | lia] | lia].
    + split; [done | lia].
Qed.

Lemma main_loop_history (rows : list Rule) : forall (st : Run) (key : string),
  exists suf,
    default [] (history (main_loop cfg env rows st) !! key)
    = (default [] (history st !! key) ++ suf)%list /\
    chrono (Qfloor (clock (world st)))
           (Qfloor (clock (world (main_loop cfg env rows st)))) suf /\
    (length suf <= rules_on key rows)%nat.
Proof.
  induction rows as [|r rows IH]; intros st key.
  - exists []. simpl. rewrite app_nil_r. split; [done |]. split; [lia | lia].
  - destruct (process_rule_history r st key) as (s1 & E1 & C1 & L1).
    destruct (IH (process_rule cfg env r st) key) as (s2 & E2 & C2 & L2).
    exists (s1 ++ s2)%list. change (main_loop cfg env (r :: rows) st)
      with (main_loop cfg env rows (process_rule cfg env r st)).
    split; [by rewrite E2, E1, app_assoc |].
    split; [by eapply chrono_app |].
    rewrite length_app. simpl in *. lia.
Qed.

End History.

(** C4. A successful extraction appends exactly one Observation, carrying
    the extracted amount and the time of the clock, at the end of the list
    stored for the rule's url and touches no other list; a failed fetch or
    extraction leaves the history as it was. Over a whole run every stored
    list is kept as a prefix of the new one, the entries added to it carry
    timestamps that do not decrease, and there are at most as many of them
    as rules with that url, so that a list in time order stays in time
    order; a run of one rule adds at most one entry. *)
Theorem observations_append_only {ext : Externals} (cfg : Config) (env : Env) :
  (forall (r : Rule) (st : Run) (amt : Q) (w : World),
     url r <> "" -> selector r <> "" ->
     extract_price cfg env (url r) (selector r) (attr r) (rule_regex r)
       (Some (name r)) (world st) = (Ok amt, w) ->
     history (process_rule cfg env r st)
     = <[url r := (default [] (history st !! url r) ++ [observe r amt w])%list]>
         (history st) /\
     amount (observe r amt w) = Some amt /\ ts (observe r amt w) = Qfloor (clock w)) /\
  (forall (r : Rule) (st : Run) (e : exn) (w : World),
     extract_price cfg env (url r) (selector r) (attr r) (rule_regex r)
       (Some (name r)) (world st) = (Raise e, w) ->
     history (process_rule cfg env r st) = history st) /\
  (env_ok env ->
   forall (rows : list Rule) (st : Run) (key : string),
   (exists suf,
     default [] (history (main_loop cfg env rows st) !! key)
     = (default [] (history st !! key) ++ suf)%list /\
     chrono (Qfloor (clock (world st)))
            (Qfloor (clock (world (main_loop cfg env rows st)))) suf /\
     (length suf <= rules_on key rows)%nat) /\
   (forall lo : Z,
      chrono lo (Qfloor (clock (world st))) (default [] (history st !! key)) ->
      chrono lo (Qfloor (clock (world (main_loop cfg env rows st))))
        (default [] (history (main_loop cfg env rows st) !! key)))) /\
  (env_ok env ->
   forall (r : Rule) (st : Run) (key : string),
     (length (default [] (history (main_loop cfg env [r] st) !! key))
      <= S (length (default [] (history st !! key))))%nat).
Proof.
  split; [| split; [| split]].
  - intros r st amt w Hu Hs He.
    destruct (process_rule_cases cfg env r st) as [[[? | ?] _] | (_ & _ & [H | H])];
      try done.
    + destruct H as (e & w' & He' & _). congruence.
    + destruct H as (amt' & w' & He' & ->).
      assert (amt' = amt /\ w' = w) as [-> ->] by (split; congruence).
      by rewrite (proj1 (on_amount_history cfg r amt w st)).
  - intros r st e w He.
    destruct (process_rule_cases cfg env r st) as [[_ ->] | (_ & _ & [H | H])].
    + done.
    + by destruct H as (e' & w' & _ & ->).
    + destruct H as (amt' & w' & He' & _). congruence.
  - intros Hok rows st key. split; [by apply main_loop_history |].
    intros lo Hlo.
    destruct (main_loop_history cfg env Hok rows st key) as (suf & -> & Hc & _).
    by eapply chrono_app.
  - intros Hok r st key.
    destruct (main_loop_history cfg env Hok [r] st key) as (suf & -> & _ & Hl).
    rewrite length_app. simpl in Hl. destruct (String.eqb (url r) key); lia.
Qed.

Lemma observations_append_only_witness :
  length (default []
            (history (process_rule (ext := Fixture.ext) default_config
                        (Fixture.constant_env 200 Fixture.product_page)
                        Fixture.rower_rule (Fixture.run_with 1299))
             !! "https://shop.example/p"))
  = 2%nat.
Proof.
  destruct (observations_append_only (ext := Fixture.ext) default_config
              (Fixture.constant_env 200 Fixture.product_page)) as [H _].
  edestruct (H Fixture.rower_rule (Fixture.run_with 1299) 1299%Q) as [-> _];
    [discriminate | discriminate | vm_compute; reflexivity |].
  reflexivity.
Defined.

(** C5. When fetching or extraction raises for a rule, the loop records an
    ERROR line with the exception under the rule's competitor, counts the
    error, leaves the history and so the last stored amount untouched, and
    goes on with the rules that follow. *)
Theorem failure_is_contained {ext : Externals} (cfg : Config) (env : Env)
  (r : Rule) (st : Run) (e : exn) (w : World) :
  url r <> "" -> selector r <> "" ->
  extract_price cfg env (url r) (selector r) (attr r) (rule_regex r)
    (Some (name r)) (world st) = (Raise e, w) ->
  let st' := process_rule cfg env r st in
  events_by_comp st' !! comp r
  = Some (default [] (events_by_comp st !! comp r)
          ++ [ERROR (comp r) (name r) e (url r)])%list /\
  (forall c : string, c <> comp r -> events_by_comp st' !! c = events_by_comp st !! c) /\
  error_count st' = S (error_count st) /\
  init_count st' = init_count st /\ change_count st' = change_count st /\
  history st' = history st /\
  previous (history st') (url r) = previous (history st) (url r) /\
  forall rest : list Rule,
    main_loop cfg env (r :: rest) st = main_loop cfg env rest st'.
Proof.
  intros Hu Hs He st'.
  assert (st' = on_error r e w st) as ->.
  { subst st'. unfold process_rule.
    destruct (String.eqb_spec (url r) ""); [done |].
    destruct (String.eqb_spec (selector r) ""); [done |]. simpl. by rewrite He. }
  simpl. unfold add_event. rewrite lookup_insert_eq.
  repeat split; try done.
  - intros c Hc. by rewrite lookup_insert_ne.
  - intros rest. unfold main_loop. simpl. f_equal.
    unfold process_rule.
    destruct (String.eqb_spec (url r) ""); [done |].
    destruct (String.eqb_spec (selector r) ""); [done |]. simpl. by rewrite He.
Qed.

Lemma failure_is_contained_witness :
  error_count (process_rule (ext := Fixture.ext) default_config
                 (Fixture.constant_env 404 Fixture.product_page)
                 Fixture.rower_rule (Fixture.run_with 1299))
  = 1%nat /\
  previous (history (process_rule (ext := Fixture.ext) default_config
                       (Fixture.constant_env 404 Fixture.product_page)
                       Fixture.rower_rule (Fixture.run_with 1299)))
    "https://shop.example/p"
  = Some 1299%Q.
Proof.
  edestruct (failure_is_contained (ext := Fixture.ext) default_config
              (Fixture.constant_env 404 Fixture.product_page)
              Fixture.rower_rule (Fixture.run_with 1299))
    as (_ & _ & Hc & _ & _ & _ & Hp & _);
    [discriminate | discriminate | vm_compute; reflexivity |].
  split; [exact Hc | exact Hp].
Defined.

(** ** Retry and backoff *)

Section Backoff.
Context {ext : Externals} (cfg : Config) (env : Env).

Lemma throttle_ok (url dom : string) (w : World) :
  netloc url = Ok dom ->
  _throttle env url w
  = (Ok tt,
     set_last_fetch dom
       (if Qltb 0 (throttle_wait env dom w)
        then sleep (throttle_wait env dom w) (snd (uniform env (-5) 5 w))
        else snd (uniform env (-5) 5 w))).
Proof. intros H. unfold _throttle. by rewrite H. Qed.

Lemma throttle_requests (url : string) (w : World) :
  requests (snd (_throttle env url w)) = requests w.
Proof.
  unfold _throttle. destruct (netloc url); [| done].
  unfold uniform. cbn [fst snd].
  match goal with |- context [Qltb 0 ?x] => destruct (Qltb 0 x) end; done.
Qed.

Lemma retryable_cases (s : Z) :
  retryable s = true -> (s =? 429) = true \/
    (s =? 429) = false /\ (500 <=? s) && (s <? 600) = true.
Proof.
  unfold retryable. destruct (s =? 429); [by left | by right].
Qed.

Lemma backoff_loop_retry (n : nat) (delay : Q) (url : string)
  (w w1 w2 : World) (resp : Response) :
  _throttle env url w = (Ok tt, w1) ->
  requests_get env (maybe_proxy cfg url) w1 = (Ok resp, w2) ->
  retryable (status_code resp) = true ->
  backoff_loop cfg env (S n) delay url w
  = backoff_loop cfg env n (Qred (Qmin (delay * 2) 30)) url
      (sleep (delay + fst (uniform env 0 (retry_jitter (status_code resp)) w2))
             (snd (uniform env 0 (retry_jitter (status_code resp)) w2))).
Proof.
  intros Ht Hg Hr. cbn [backoff_loop]. rewrite Ht, Hg. unfold retry_jitter.
  destruct (retryable_cases _ Hr) as [-> | [-> ->]]; done.
Qed.

Lemma backoff_loop_final (n : nat) (delay : Q) (url : string)
  (w w1 w2 : World) (resp : Response) :
  _throttle env url w = (Ok tt, w1) ->
  requests_get env (maybe_proxy cfg url) w1 = (Ok resp, w2) ->
  retryable (status_code resp) = false ->
  backoff_loop cfg env (S n) delay url w
  = (if (400 <=? status_code resp) && (status_code resp <? 600)
     then Raise (HTTPError (status_code resp)) else Ok resp, w2).
Proof.
  intros Ht Hg Hr. cbn [backoff_loop]. rewrite Ht, Hg.
  unfold retryable in Hr. apply orb_false_iff in Hr as [-> ->].
  unfold raise_for_status.
  by destruct ((400 <=? status_code resp) && (status_code resp <? 600)).
Qed.

Lemma backoff_loop_requests (n : nat) : forall (delay : Q) (url : string) (w : World),
  (requests (snd (backoff_loop cfg env n delay url w)) <= requests w + n)%nat.
Proof.
  induction n as [|n IH]; intros delay url w; cbn [backoff_loop snd]; [lia |].
  pose proof (throttle_requests url w) as Ht.
  destruct (_throttle env url w) as [[[]|e] w1]; cbn [snd] in *; [| lia].
  destruct (requests_get env (maybe_proxy cfg url) w1) as [[resp|e] w2] eqn:Hg.
  2: { injection Hg as _ <-. cbn [snd requests]. lia. }
  injection Hg as _ Hw2.
  assert (requests w2 = S (requests w)) as Hr by (rewrite <- Hw2; simpl; lia).
  assert (forall hi d,
            (requests (snd (backoff_loop cfg env n d url
                              (sleep (delay + fst (uniform env 0 hi w2))
                                     (snd (uniform env 0 hi w2)))))
             <= requests w + S n)%nat) as Hretry.
  { intros hi d. etransitivity; [apply IH |]. simpl. lia. }
  destruct (status_code resp =? 429); [apply Hretry |].
  destruct ((500 <=? status_code resp) && (status_code resp <? 600)); [apply Hretry |].
  destruct (raise_for_status resp); cbn [snd]; lia.
Qed.

(** When every answer is a 429 or a 5xx the loop uses up its tries and
    raises. *)
Lemma backoff_loop_exhausted (url dom : string) (n : nat) :
  netloc url = Ok dom -> always_retryable env ->
  forall (delay : Q) (w : World),
  exists w', backoff_loop cfg env n delay url w = (Raise (exhausted url), w') /\
             requests w' = (requests w + n)%nat.
Proof.
  intros Hdom Hall. induction n as [|n IH]; intros delay w.
  - exists w. split; [done | lia].
  - pose proof (throttle_ok url dom w Hdom) as Ht.
    pose proof (throttle_requests url w) as Hrq. rewrite Ht in Hrq. cbn [snd] in Hrq.
    set (w1 := set_last_fetch dom _) in *. clearbody w1.
    destruct (Hall (requests w1) (maybe_proxy cfg url)) as (resp & Ho & Hr).
    assert (requests_get env (maybe_proxy cfg url) w1
            = (Ok resp, snd (requests_get env (maybe_proxy cfg url) w1))) as Hg.
    { unfold requests_get. cbn [snd]. by rewrite Ho. }
    rewrite (backoff_loop_retry n delay url w w1 _ resp Ht Hg Hr).
    destruct (IH (Qred (Qmin (delay * 2) 30))
                (sleep (delay + fst (uniform env 0 (retry_jitter (status_code resp))
                                       (snd (requests_get env (maybe_proxy cfg url) w1))))
                   (snd (uniform env 0 (retry_jitter (status_code resp))
                           (snd (requests_get env (maybe_proxy cfg url) w1))))))
      as (w' & -> & Hw').
    exists w'. split; [done |]. rewrite Hw'. simpl. lia.
Qed.

End Backoff.

(** C6, the sentence as the spec has it, fails: a 304 is neither retried nor
    an error, and the fetcher returns it. *)
Lemma other_status_fails_counterexample : ~ other_status_fails.
Proof.
  intros H.
  set (env := Fixture.constant_env 304 "").
  assert (http_get_with_backoff (ext := Fixture.ext) default_config env
            "https://shop.example/p" Fixture.world0
          = (Ok {| status_code := 304; text := "" |},
             snd (http_get_with_backoff (ext := Fixture.ext) default_config env
                    "https://shop.example/p" Fixture.world0))) as Hget
    by (vm_compute; reflexivity).
  specialize (H _ _ _ _ _ _ _ Hget). simpl in H. lia.
Qed.

(** C6, amended. The fetcher makes at most MAX_TRIES = 3 requests, starting
    with a base delay of 2. A 429 or 5xx answer makes it sleep the base delay
    plus a jitter between 0 and 1.5 and go on with the base delay doubled,
    capped at 30. A status from 400 to 499 other than 429 raises at once, with
    no sleep and no further request; a status below 400 or from 600 up is
    returned as the response. When all three answers are 429 or 5xx the
    fetcher raises an error that names the number of tries and the url. *)
Theorem retry_with_backoff {ext : Externals} (cfg : Config) (env : Env)
  (url : string) :
  (forall w : World,
     http_get_with_backoff cfg env url w = backoff_loop cfg env 3 2 url w /\
     (requests (snd (http_get_with_backoff cfg env url w)) <= requests w + 3)%nat) /\
  (forall (n : nat) (delay : Q) (w w1 w2 : World) (resp : Response),
     _throttle env url w = (Ok tt, w1) ->
     requests_get env (maybe_proxy cfg url) w1 = (Ok resp, w2) ->
     let s := status_code resp in
     (retryable s = true ->
      let j := fst (uniform env 0 (retry_jitter s) w2) in
      exists delay',
        backoff_loop cfg env (S n) delay url w
        = backoff_loop cfg env n delay' url
            (sleep (delay + j) (snd (uniform env 0 (retry_jitter s) w2))) /\
        (delay' == Qmin (delay * 2) 30)%Q /\
        (env_ok env -> (0 <= j <= 1.5)%Q)) /\
     (400 <= s < 500 -> s <> 429 ->
      backoff_loop cfg env (S n) delay url w = (Raise (HTTPError s), w2)) /\
     (s < 400 \/ 600 <= s ->
      backoff_loop cfg env (S n) delay url w = (Ok resp, w2))) /\
  (forall dom : string,
     netloc url = Ok dom -> always_retryable env ->
     forall w : World,
     exists w',
       http_get_with_backoff cfg env url w
       = (Raise (ValueError ("Too Many Requests / server errors after 3 tries for "
                             ++ url)), w') /\
       requests w' = (requests w + 3)%nat).
Proof.
  split; [| split].
  - intros w. split; [done |]. apply backoff_loop_requests.
  - intros n delay w w1 w2 resp Ht Hg s. split; [| split].
    + intros Hr j. exists (Qred (Qmin (delay * 2) 30)).
      split; [exact (backoff_loop_retry cfg env n delay url w w1 w2 resp Ht Hg Hr) |].
      split; [apply Qred_correct |].
      intros Hok. subst j.
      assert (0 <= retry_jitter s)%Q as H0
        by (unfold retry_jitter; destruct (s =? 429); lra).
      pose proof (uniform_range env Hok 0 (retry_jitter s) w2 H0) as [Hlo Hhi].
      split; [done |]. eapply Qle_trans; [exact Hhi |].
      unfold retry_jitter. destruct (s =? 429); lra.
    + intros Hs Hne.
      rewrite (backoff_loop_final cfg env n delay url w w1 w2 resp Ht Hg).
      * fold s. replace ((400 <=? s) && (s <? 600)) with true; [done |].
        symmetry. apply andb_true_iff. split; [apply Z.leb_le | apply Z.ltb_lt]; lia.
      * fold s. unfold retryable. apply orb_false_iff. split.
        -- by apply Z.eqb_neq.
        -- apply andb_false_iff. left. apply Z.leb_gt. lia.
    + intros Hs.
      rewrite (backoff_loop_final cfg env n delay url w w1 w2 resp Ht Hg).
      * fold s. replace ((400 <=? s) && (s <? 600)) with false; [done |].
        symmetry. apply andb_false_iff.
        destruct Hs; [left; apply Z.leb_gt | right; apply Z.ltb_ge]; lia.
      * fold s. unfold retryable. apply orb_false_iff. split.
        -- apply Z.eqb_neq. lia.
        -- apply andb_false_iff.
           destruct Hs; [left; apply Z.leb_gt | right; apply Z.ltb_ge]; lia.
  - intros dom Hdom Hall w.
    apply (backoff_loop_exhausted cfg env url dom 3 Hdom Hall 2 w).
Qed.

Lemma retry_with_backoff_witness :
  exists w',
    http_get_with_backoff (ext := Fixture.ext) default_config
      (Fixture.constant_env 503 "") "https://shop.example/p" Fixture.world0
    = (Raise (ValueError
         "Too Many Requests / server errors after 3 tries for https://shop.example/p"),
       w') /\
    requests w' = 3%nat.
Proof.
  destruct (retry_with_backoff (ext := Fixture.ext) default_config
              (Fixture.constant_env 503 "") "https://shop.example/p")
    as (_ & _ & H).
  apply (H "shop.example"); [reflexivity |].
  intros n target. eexists. split; reflexivity.
Defined.

(** ** The proxy gate *)

(** C7. The gate of maybe_proxy is the api key together with the text
    "hydrow.com" occurring anywhere in the url, not the url's domain: with a
    key set, a page of www.concept2.com whose query string mentions
    hydrow.com is sent through the proxy. *)
Theorem proxy_gate_is_substring :
  (forall (cfg : Config) (url : string),
     maybe_proxy cfg url
     = if negb (String.eqb (SCRAPERAPI_KEY cfg) "") && Text.contains "hydrow.com" url
       then "https://api.scraperapi.com/?api_key=" ++ SCRAPERAPI_KEY cfg
            ++ "&url=" ++ Quote.quote url
       else url) /\
  Fixture.host "https://www.concept2.com/compare?vs=hydrow.com" = "www.concept2.com" /\
  maybe_proxy {| SCRAPERAPI_KEY := "k"; CHANGE_THRESHOLD_PCT := 0; MIN_PRICE_FLOOR := 400 |}
    "https://www.concept2.com/compare?vs=hydrow.com"
  = "https://api.scraperapi.com/?api_key=k&url=https%3A%2F%2Fwww.concept2.com%2Fcompare%3Fvs%3Dhydrow.com".
Proof. repeat split. Qed.

(** ** Pacing *)


Section Pacing.
Context {ext : Externals} (cfg : Config) (env : Env).
Variables (url dom : string).
Hypothesis Hdom : netloc url = Ok dom.

Lemma throttle_stamp (w : World) :
  exists w1, _throttle env url w = (Ok tt, w1) /\
    _LAST_FETCH w1 = <[dom := clock w1]> (_LAST_FETCH w) /\
    requests w1 = requests w /\
    trace w1 = (trace w ++ if Qltb 0 (throttle_wait env dom w)
                           then [Slept (throttle_wait env dom w)] else [])%list /\
    (clock w1 == clock w + Qmax 0 (throttle_wait env dom w))%Q.
Proof.
  eexists. split; [by apply throttle_ok |].
  destruct (Qltb 0 (throttle_wait env dom w)) eqn:E; cbn.
  - repeat split; try done. apply Qltb_true in E.
    rewrite Qred_correct. rewrite Q.max_r; [reflexivity | by apply Qlt_le_weak].
  - repeat split; try done; [by rewrite app_nil_r |].
    apply Qltb_false in E. rewrite Q.max_l by done. ring.
Qed.




End Pacing.



(** * Further properties *)

(** ** norm_price under the default pattern *)

Module DefaultPattern.
Import Text Float TextFacts FloatFacts.

Lemma span_app p (s : string) : fst (span p s) ++ snd (span p s) = s.
Proof.
  induction s as [|a s IH]; simpl; [done |].
  destruct (p a); [| done].
  destruct (span p s) as [x y]. simpl in *. by rewrite IH.
Qed.

Lemma span_snd_stop p (s : string) :
  match snd (span p s) with
  | EmptyString => True
  | String c _ => p c = false
  end.
Proof.
  induction s as [|a s IH]; simpl; [done |].
  destruct (p a) eqn:E; [| done].
  by destruct (span p s) as [x y].
Qed.

Lemma plain_cases c : is_plain c = true -> is_digit c = true \/ c = dot.
Proof.
  unfold is_plain. destruct (is_digit c); [by left |].
  simpl. intros H. right. by apply Ascii.eqb_eq in H.
Qed.

Lemma plain_no_dot_digits (s : string) :
  all is_plain s = true -> count dot s = O -> all is_digit s = true.
Proof.
  induction s as [|c s IH]; simpl; [done |].
  intros [Hc Hs]%andb_true_iff Hn.
  destruct (plain_cases c Hc) as [Hd | ->].
  - rewrite Hd. simpl. apply IH; [done |].
    rewrite (digit_not_dot _ Hd) in Hn. simpl in Hn. lia.
  - simpl in Hn. lia.
Qed.

(** A text of digits and points with at most one point is a run of digits,
    or two runs around the point. *)
Lemma plain_shape (s : string) :
  all is_plain s = true -> (count dot s <= 1)%nat ->
  all is_digit s = true \/
  exists ip fp, s = ip ++ String dot fp /\
    all is_digit ip = true /\ all is_digit fp = true.
Proof.
  intros Hp Hc.
  pose proof (span_app is_digit s) as Hs.
  pose proof (span_fst_all is_digit s) as Hip.
  pose proof (span_snd_stop is_digit s) as Hstop.
  destruct (span is_digit s) as [ip r]. simpl in *.
  destruct r as [|c r].
  - left. rewrite <- Hs, app_empty_r. done.
  - right. rewrite <- Hs in Hp, Hc.
    rewrite all_app in Hp. apply andb_true_iff in Hp as [_ Hp]. simpl in Hp.
    apply andb_true_iff in Hp as [Hcp Hr].
    destruct (plain_cases c Hcp) as [Hd | ->]; [congruence |].
    exists ip, r. split; [done |]. split; [done |].
    apply plain_no_dot_digits; [done |].
    rewrite count_app in Hc. simpl in Hc. lia.
Qed.

Lemma digit_val_nonneg c : is_digit c = true -> 0 <= digit_val c.
Proof. by_cases_on c. Qed.

Lemma digits_val_from_nonneg (s : string) : forall acc,
  0 <= acc -> all is_digit s = true -> 0 <= digits_val_from acc s.
Proof.
  induction s as [|c s IH]; simpl; intros acc Ha Hs; [done |].
  apply andb_true_iff in Hs as [Hc Hs]. apply IH; [| done].
  pose proof (digit_val_nonneg c Hc). lia.
Qed.

Lemma take_number_digits (ip : string) :
  all is_digit ip = true -> ip <> "" -> take_number ip = Some (ip, "", "").
Proof.
  intros Hi Hne. unfold take_number. rewrite span_all by done.
  destruct ip; [done | reflexivity].
Qed.

(** A run of digits reads as the number it writes. *)
Lemma float_digits (ip : string) :
  all is_digit ip = true -> ip <> "" ->
  exists v, float ip = Some v /\ (v == inject_Z (digits_val ip))%Q.
Proof.
  intros Hi Hne. unfold float.
  assert (all is_plain ip = true) as Hp.
  { revert Hi. apply all_impl. intros c Hc. unfold is_plain. by rewrite Hc. }
  rewrite strip_plain by done.
  rewrite drop_underscores_plain by done.
  assert (take_sign ip = (false, ip)) as ->.
  { destruct ip as [|d ip]; [done |]. simpl in Hi.
    apply andb_true_iff in Hi as [Hd _]. by apply digit_no_sign. }
  rewrite take_number_digits by done. simpl.
  eexists. split; [done |]. rewrite app_empty_r.
  unfold scale. simpl. rewrite Qred_correct.
  rewrite Z.mul_1_r. reflexivity.
Qed.

Lemma float_point : float (String dot "") = None.
Proof. reflexivity. Qed.

Lemma has_digit_all (s : string) : all is_digit s = true -> s <> "" -> has_digit s = true.
Proof.
  destruct s as [|c s]; [done |]. simpl. by intros [-> _]%andb_true_iff _.
Qed.

Lemma has_digit_app (s t : string) : has_digit (s ++ t) = has_digit s || has_digit t.
Proof.
  induction s as [|c s IH]; simpl; [done |]. rewrite IH. by rewrite orb_assoc.
Qed.

Lemma has_digit_keep p (s : string) :
  (forall c, is_digit c = true -> p c = true) ->
  has_digit (keep p s) = has_digit s.
Proof.
  intros Hp. induction s as [|c s IH]; simpl; [done |].
  destruct (p c) eqn:E; simpl; [by rewrite IH |].
  destruct (is_digit c) eqn:Hd; [| done].
  rewrite (Hp c Hd) in E. done.
Qed.

Lemma has_digit_remove_first (s : string) : forall n,
  has_digit (remove_first n dot s) = has_digit s.
Proof.
  induction s as [|c s IH]; intros n; [by destruct n |].
  destruct n as [|n]; [done |]. simpl.
  destruct (eqc c dot) eqn:E.
  - apply Ascii.eqb_eq in E. subst c. simpl. apply IH.
  - simpl. by rewrite IH.
Qed.

Lemma all_remove_first p (s : string) : forall n c,
  all p s = true -> all p (remove_first n c s) = true.
Proof.
  induction s as [|a s IH]; intros n c Hs; [by destruct n |].
  destruct n as [|n]; [done |]. simpl in *.
  apply andb_true_iff in Hs as [Ha Hs].
  destruct (eqc a c); [by apply IH |]. simpl. rewrite Ha. by apply IH.
Qed.

Lemma cleaned_plain (t : string) : all is_plain (re_sub_empty DEFAULT_REGEX t) = true.
Proof.
  unfold re_sub_empty.
  apply (all_impl (fun c => negb (DEFAULT_REGEX c))); [| apply keep_all].
  intros c. unfold DEFAULT_REGEX, is_plain. by rewrite negb_involutive.
Qed.

Lemma collapsed_plain (s : string) :
  all is_plain s = true -> all is_plain (collapse_dots s) = true.
Proof.
  intros H. unfold collapse_dots.
  destruct (1 <? count dot s)%nat; [by apply all_remove_first | done].
Qed.

Lemma collapsed_one_point (s : string) : (count dot (collapse_dots s) <= 1)%nat.
Proof.
  unfold collapse_dots. destruct (1 <? count dot s)%nat eqn:E.
  - apply Nat.ltb_lt in E. rewrite count_remove_first; lia.
  - apply Nat.ltb_ge in E. done.
Qed.

Lemma collapsed_has_digit (s : string) : has_digit (collapse_dots s) = has_digit s.
Proof.
  unfold collapse_dots.
  destruct (1 <? count dot s)%nat; [apply has_digit_remove_first | done].
Qed.

Lemma cleaned_has_digit (t : string) :
  has_digit (re_sub_empty DEFAULT_REGEX t) = has_digit t.
Proof.
  apply has_digit_keep. intros c Hc. unfold DEFAULT_REGEX. by rewrite Hc.
Qed.

(** What float makes of a text of digits and at most one point. *)
Lemma float_plain_text (s : string) :
  all is_plain s = true -> (count dot s <= 1)%nat ->
  if has_digit s
  then exists v, float s = Some v /\ (0 <= v)%Q
  else s = "" \/ float s = None.
Proof.
  intros Hp Hc. destruct (plain_shape s Hp Hc) as [Hd | (ip & fp & -> & Hi & Hf)].
  - destruct s as [|c s]; [by left |].
    rewrite (has_digit_all _ Hd) by done.
    destruct (float_digits _ Hd) as (v & Hv & Hval); [done |].
    exists v. split; [done |]. rewrite Hval.
    change 0%Q with (inject_Z 0). rewrite <- Zle_Qle.
    by apply digits_val_from_nonneg.
  - rewrite has_digit_app. simpl.
    change (is_digit dot) with false. simpl.
    destruct (has_digit ip || has_digit fp) eqn:E.
    + assert (ip ++ fp <> "") as Hne.
      { intros H. destruct ip; [| done]. destruct fp; [| done]. done. }
      destruct (float_plain ip fp Hi Hf Hne) as (v & Hv & Hval).
      exists v. split; [done |]. rewrite Hval.
      apply Qle_shift_div_l.
      * change 0%Q with (inject_Z 0). rewrite <- Zlt_Qlt.
        apply Z.pow_pos_nonneg; unfold len; lia.
      * rewrite Qmult_0_l. change 0%Q with (inject_Z 0). rewrite <- Zle_Qle.
        apply digits_val_from_nonneg; [lia |].
        rewrite all_app. by rewrite Hi, Hf.
    + right. apply orb_false_iff in E as [E1 E2].
      destruct ip as [|a ip]; [| simpl in Hi, E1;
        apply andb_true_iff in Hi as [Ha _]; by rewrite Ha in E1].
      destruct fp as [|b fp]; [| simpl in Hf, E2;
        apply andb_true_iff in Hf as [Hb _]; by rewrite Hb in E2].
      reflexivity.
Qed.

(** The two cases of norm_price under the default pattern. *)
Lemma norm_price_cases (t : string) :
  if has_digit t
  then exists v, norm_price (Some t) DEFAULT_REGEX = Some v /\ (0 <= v)%Q
  else norm_price (Some t) DEFAULT_REGEX = None.
Proof.
  rewrite norm_price_unfold.
  pose proof (float_plain_text (collapse_dots (re_sub_empty DEFAULT_REGEX t))
                (collapsed_plain _ (cleaned_plain t)) (collapsed_one_point _)) as Hf.
  rewrite collapsed_has_digit, cleaned_has_digit in Hf.
  destruct (has_digit t) eqn:Hd.
  - destruct Hf as (v & Hv & Hpos). exists v. split; [| done].
    destruct (String.eqb_spec (collapse_dots (re_sub_empty DEFAULT_REGEX t)) "")
      as [E | _]; [| done].
    rewrite E in Hv. discriminate Hv.
  - destruct Hf as [-> | ->]; [done |].
    by destruct (String.eqb _ _).
Qed.

Lemma default_never_negative : never_negative DEFAULT_REGEX.
Proof.
  intros [t'|] v Hv; [| discriminate Hv].
  pose proof (norm_price_cases t') as H.
  destruct (has_digit t'); [| congruence].
  destruct H as (v' & Hv' & Hpos). congruence.
Qed.

End DefaultPattern.

(** X1. Under the default pattern norm_price gives a number exactly when
    the text holds a digit, and that number is never negative. *)
Theorem norm_price_default (t : string) :
  (if has_digit t
   then exists v, norm_price (Some t) DEFAULT_REGEX = Some v /\ (0 <= v)%Q
   else norm_price (Some t) DEFAULT_REGEX = None) /\
  never_negative DEFAULT_REGEX.
Proof.
  split; [apply DefaultPattern.norm_price_cases |].
  apply DefaultPattern.default_never_negative.
Qed.

Lemma norm_price_default_witness :
  exists v, norm_price (Some "from $12 a month") DEFAULT_REGEX = Some v /\ (0 <= v)%Q.
Proof. exact (proj1 (norm_price_default "from $12 a month")). Defined.

(** ** Amounts are never negative *)

Lemma token_has_digit (html tok : string) :
  In tok (Pattern.findall_dollar html) -> has_digit tok = true.
Proof.
  intros Hin.
  destruct (PatternFacts.findall_dollar_shape _ _ Hin) as (d & g & -> & Hd & _).
  simpl. by rewrite Hd.
Qed.

Lemma omap_all_some {A B} (f : A -> option B) (l : list A) :
  (forall x, In x l -> exists y, f x = Some y) -> length (omap f l) = length l.
Proof.
  induction l as [|x l IH]; intros H; [done |].
  destruct (H x) as [y Hy]; [by left |]. cbn. rewrite Hy. simpl.
  f_equal. apply IH. intros x' Hx'. apply H. by right.
Qed.

(** X2. Under the default pattern every token of the dollar scan has a
    value, so the final fallback sees one amount for each token and raises
    exactly when the scan finds no token. *)
Theorem every_token_has_value (cfg : Config) (html : string) :
  length (dollar_amounts html DEFAULT_REGEX)
  = length (Pattern.findall_dollar html) /\
  (heuristic_price cfg html DEFAULT_REGEX = Raise no_price
   <-> Pattern.findall_dollar html = []).
Proof.
  assert (length (dollar_amounts html DEFAULT_REGEX)
          = length (Pattern.findall_dollar html)) as Hlen.
  { apply omap_all_some. intros tok Hin.
    pose proof (DefaultPattern.norm_price_cases tok) as H.
    rewrite (token_has_digit _ _ Hin) in H. destruct H as (v & Hv & _). by exists v. }
  split; [done |]. unfold heuristic_price.
  destruct (dollar_amounts html DEFAULT_REGEX) as [|a amounts] eqn:E.
  - split; [| done]. intros _.
    destruct (Pattern.findall_dollar html); [done | discriminate Hlen].
  - split.
    + destruct (List.filter (above_floor cfg) (a :: amounts)); discriminate.
    + intros H. rewrite H in Hlen. discriminate Hlen.
Qed.

Section NonNegative.
Context {ext : Externals} (cfg : Config) (env : Env).

Lemma jsonld_price_nonneg (r : regex) (scripts : list string) (a : Q) :
  never_negative r -> jsonld_price scripts r = Some a -> (0 <= a)%Q.
Proof.
  intros Hr. induction scripts as [|s rest IH]; cbn [jsonld_price]; [done |].
  destruct (json_loads s) as [data|]; [| exact IH].
  destruct (find_price data) as [p|]; [| exact IH].
  destruct (norm_price (Some (py_str p)) r) as [v|] eqn:E; [| exact IH].
  intros [= <-]. by eapply Hr.
Qed.

Lemma heuristic_price_nonneg (r : regex) (html : string) (a : Q) :
  never_negative r -> heuristic_price cfg html r = Ok a -> (0 <= a)%Q.
Proof.
  intros Hr. unfold heuristic_price.
  assert (forall x, In x (dollar_amounts html r) -> (0 <= x)%Q) as Hall.
  { intros x Hx. apply list_elem_of_In, list_elem_of_omap in Hx as (n & _ & Hn).
    by eapply Hr. }
  destruct (dollar_amounts html r) as [|a0 amounts]; [done |].
  destruct (List.filter (above_floor cfg) (a0 :: amounts)) as [|c cs] eqn:E.
  - intros [= <-]. apply Hall. apply py_max_spec.
  - intros [= <-]. apply Hall.
    assert (In (py_max c cs) (c :: cs)) as Hin by apply py_max_spec.
    rewrite <- E in Hin. by apply filter_In in Hin as [Hin _].
Qed.

Lemma extract_from_nonneg (url html selector attr : string) (r : regex)
  (hint : option string) (a : Q) :
  never_negative r ->
  extract_from cfg url html selector attr r hint = Ok a -> (0 <= a)%Q.
Proof.
  intros Hr. unfold extract_from.
  destruct (selector_price (BeautifulSoup html) selector attr r) as [[v|]|e] eqn:Es;
    [| | done].
  - intros [= <-]. unfold selector_price in Es.
    destruct (String.eqb selector ""); [done |].
    destruct (select_one (BeautifulSoup html) selector) as [[node|]|]; try done.
    injection Es as Es. by eapply Hr.
  - destruct (jsonld_price (ld_json_scripts (BeautifulSoup html)) r) as [v|] eqn:Ej.
    { intros [= <-]. by eapply jsonld_price_nonneg. }
    destruct (peloton_price url html r hint) as [v|] eqn:Ep.
    { intros [= <-]. unfold peloton_price in Ep.
      destruct hint as [h|]; [| done].
      destruct (Text.contains "onepeloton.com" url && negb (String.eqb h "")); [| done].
      destruct (Pattern.for_hint (Text.lower h)) as [pat|]; [| done].
      destruct (Pattern.search pat (Pattern.collapse_ws false html)); [| done].
      by eapply Hr. }
    by apply heuristic_price_nonneg.
Qed.

Lemma process_rule_nonneg (r : Rule) (st : Run) :
  never_negative (rule_regex r) -> history_nonneg (history st) ->
  history_nonneg (history (process_rule cfg env r st)).
Proof.
  intros Hr Hh.
  destruct (process_rule_cases cfg env r st) as [[_ ->] | (_ & _ & [H | H])];
    [done | by destruct H as (e & w & _ & ->) |].
  destruct H as (amt & w & He & ->).
  rewrite (proj1 (on_amount_history cfg r amt w st)).
  assert (0 <= amt)%Q as Hamt.
  { unfold extract_price in He.
    destruct (http_get_with_backoff cfg env (url r) (world st)) as [[resp|e] w'];
      [| done].
    injection He as He _. by eapply extract_from_nonneg. }
  intros key l o a Hl Ho Ha. unfold append_entry in Hl.
  destruct (decide (url r = key)) as [<- | Hne].
  - rewrite lookup_insert_eq in Hl. injection Hl as <-.
    apply in_app_iff in Ho as [Ho | [<- | []]].
    + destruct (history st !! url r) as [l0|] eqn:E; [| done].
      by eapply Hh.
    + simpl in Ha. by injection Ha as <-.
  - rewrite lookup_insert_ne in Hl by done. by eapply Hh.
Qed.

End NonNegative.

(** X3. With a pattern that never reads a negative number, as the default
    pattern is, every amount extract_price returns is at least 0, by
    whichever strategy; and a run whose rules all use such patterns keeps a
    history without negative amounts free of them. *)
Theorem amounts_never_negative {ext : Externals} (cfg : Config) (env : Env) :
  (forall (url selector attr : string) (r : regex) (hint : option string)
          (w w' : World) (a : Q),
     never_negative r ->
     extract_price cfg env url selector attr r hint w = (Ok a, w') -> (0 <= a)%Q) /\
  (forall (rows : list Rule) (st : Run),
     Forall (fun r => never_negative (rule_regex r)) rows ->
     history_nonneg (history st) ->
     history_nonneg (history (main_loop cfg env rows st))).
Proof.
  split.
  - intros url selector attr r hint w w' a Hr He. unfold extract_price in He.
    destruct (http_get_with_backoff cfg env url w) as [[resp|e] w1]; [| done].
    injection He as He _. by eapply extract_from_nonneg.
  - intros rows. induction rows as [|r rows IH]; intros st Hall Hh; [done |].
    apply Forall_cons in Hall as [Hr Hall].
    change (main_loop cfg env (r :: rows) st)
      with (main_loop cfg env rows (process_rule cfg env r st)).
    apply IH; [done |]. by apply process_rule_nonneg.
Qed.

Lemma amounts_never_negative_witness :
  history_nonneg
    (history (main_loop (ext := Fixture.ext) default_config
                (Fixture.constant_env 200 Fixture.product_page)
                [Fixture.rower_rule] (Fixture.run_with 1000))).
Proof.
  apply (amounts_never_negative (ext := Fixture.ext) default_config
           (Fixture.constant_env 200 Fixture.product_page)).
  - constructor; [| constructor]. apply DefaultPattern.default_never_negative.
  - intros key l o a Hl Ho Ha.
    destruct (decide (key = "https://shop.example/p")) as [-> | Hne].
    + vm_compute in Hl. injection Hl as <-.
      destruct Ho as [<- | []]. vm_compute in Ha. injection Ha as <-.
      vm_compute. discriminate.
    + unfold Fixture.run_with in Hl. simpl in Hl.
      rewrite lookup_singleton_ne in Hl by done. discriminate Hl.
Defined.

(** ** The search for a price in JSON-LD *)

Lemma json_induction (P : json -> Prop) :
  P JNull -> (forall b, P (JBool b)) -> (forall q, P (JNum q)) ->
  (forall s, P (JStr s)) ->
  (forall items, Forall P items -> P (JList items)) ->
  (forall fields, Forall (fun kv => P (snd kv)) fields -> P (JDict fields)) ->
  forall j, P j.
Proof.
  intros H1 H2 H3 H4 H5 H6. fix IH 1. intros [ | b | q | s | items | fields].
  - exact H1.
  - apply H2.
  - apply H3.
  - apply H4.
  - apply H5. induction items as [|it items IHl]; constructor; [apply IH | exact IHl].
  - apply H6. induction fields as [|[k v] fields IHl]; constructor;
      [apply IH | exact IHl].
Qed.

Lemma find_price_dict (fields : list (string * json)) :
  find_price (JDict fields)
  = match (match assoc "price" fields with
           | Some p => if truthy p then Some p else None
           | None => None
           end) with
    | Some p => Some p
    | None =>
        match find_offers fields with
        | Some p => Some p
        | None => find_values fields
        end
    end.
Proof. reflexivity. Qed.

Lemma find_price_list (items : list json) : find_price (JList items) = find_each items.
Proof. reflexivity. Qed.

Lemma find_offers_some (l : list (string * json)) (p : json) :
  find_offers l = Some p -> exists k v, In (k, v) l /\ find_price v = Some p.
Proof.
  induction l as [|[k v] l IH]; cbn [find_offers]; [done |].
  destruct (String.eqb k "offers").
  - intros H. exists k, v. split; [by left | done].
  - intros H. destruct (IH H) as (k' & v' & Hin & Hv). exists k', v'.
    split; [by right | done].
Qed.

Lemma find_values_some (l : list (string * json)) (p : json) :
  find_values l = Some p -> exists k v, In (k, v) l /\ find_price v = Some p.
Proof.
  induction l as [|[k v] l IH]; cbn [find_values]; [done |].
  destruct (find_price v) as [p'|] eqn:E.
  - intros [= <-]. exists k, v. split; [by left | done].
  - intros H. destruct (IH H) as (k' & v' & Hin & Hv). exists k', v'.
    split; [by right | done].
Qed.

Lemma find_values_none (l : list (string * json)) :
  find_values l = None -> forall k v, In (k, v) l -> find_price v = None.
Proof.
  induction l as [|[k v] l IH]; cbn [find_values]; [by intros _ k v [] |].
  destruct (find_price v) as [p'|] eqn:E; [done |].
  intros H k' v' [[= <- <-] | Hin]; [done | by eapply IH].
Qed.

Lemma find_each_some (l : list json) (p : json) :
  find_each l = Some p -> exists v, In v l /\ find_price v = Some p.
Proof.
  induction l as [|v l IH]; cbn [find_each]; [done |].
  destruct (find_price v) as [p'|] eqn:E.
  - intros [= <-]. exists v. split; [by left | done].
  - intros H. destruct (IH H) as (v' & Hin & Hv). exists v'. split; [by right | done].
Qed.

Lemma find_each_none (l : list json) :
  find_each l = None -> forall v, In v l -> find_price v = None.
Proof.
  induction l as [|v l IH]; cbn [find_each]; [by intros _ v [] |].
  destruct (find_price v) as [p'|] eqn:E; [done |].
  intros H v' [<- | Hin]; [done | by eapply IH].
Qed.

Lemma find_price_sound (obj : json) :
  forall p, find_price obj = Some p -> price_in obj p /\ truthy p = true.
Proof.
  induction obj as [ | b | q | s | items IH | fields IH] using json_induction;
    intros p; try done.
  - rewrite find_price_list. intros H.
    destruct (find_each_some _ _ H) as (v & Hin & Hv).
    rewrite List.Forall_forall in IH. destruct (IH v Hin p Hv) as [Hp Ht].
    split; [by eapply price_item | done].
  - rewrite find_price_dict. rewrite List.Forall_forall in IH.
    destruct (assoc "price" fields) as [p0|] eqn:Ea.
    + destruct (truthy p0) eqn:Et.
      { intros [= <-]. split; [by apply price_here | done]. }
      destruct (find_offers fields) as [p1|] eqn:Eo.
      { intros [= <-]. destruct (find_offers_some _ _ Eo) as (k & v & Hin & Hv).
        destruct (IH (k, v) Hin p1 Hv) as [Hp Ht].
        split; [by eapply price_under | done]. }
      intros H. destruct (find_values_some _ _ H) as (k & v & Hin & Hv).
      destruct (IH (k, v) Hin p Hv) as [Hp Ht].
      split; [by eapply price_under | done].
    + destruct (find_offers fields) as [p1|] eqn:Eo.
      { intros [= <-]. destruct (find_offers_some _ _ Eo) as (k & v & Hin & Hv).
        destruct (IH (k, v) Hin p1 Hv) as [Hp Ht].
        split; [by eapply price_under | done]. }
      intros H. destruct (find_values_some _ _ H) as (k & v & Hin & Hv).
      destruct (IH (k, v) Hin p Hv) as [Hp Ht].
      split; [by eapply price_under | done].
Qed.

Lemma find_price_complete (obj : json) :
  find_price obj = None -> forall p, price_in obj p -> truthy p = false.
Proof.
  induction obj as [ | b | q | s | items IH | fields IH] using json_induction;
    intros Hnone p Hin; try (by inversion Hin).
  - rewrite find_price_list in Hnone. rewrite List.Forall_forall in IH.
    inversion Hin as [ | | items' v p' Hv Hp]; subst.
    apply (IH v Hv); [| done]. by eapply find_each_none.
  - rewrite find_price_dict in Hnone. rewrite List.Forall_forall in IH.
    assert (find_values fields = None) as Hvals.
    { destruct (assoc "price" fields) as [p0|]; [destruct (truthy p0); [done |] |];
        by destruct (find_offers fields). }
    inversion Hin as [fields' p' Ha | fields' k v p' Hv Hp | ]; subst.
    + rewrite Ha in Hnone. by destruct (truthy p).
    + apply (IH (k, v) Hv); [| done]. by eapply find_values_none.
Qed.

(** X4. find_price searches the whole tree: what it returns is held by a
    "price" key of the value or of a mapping nested in it and is truthy, and
    it returns nothing only when every "price" the tree holds is falsy
    (0, "", null, false, empty). *)
Theorem find_price_finds_a_price :
  (forall obj p : json,
     find_price obj = Some p -> price_in obj p /\ truthy p = true) /\
  (forall obj : json,
     find_price obj = None -> forall p, price_in obj p -> truthy p = false).
Proof. split; [apply find_price_sound | apply find_price_complete]. Qed.

Lemma find_price_finds_a_price_witness :
  price_in (JList [JDict [("name", JStr "Rower");
                          ("offers", JDict [("price", JStr "2,199.00")])]])
           (JStr "2,199.00") /\
  truthy (JNum 0) = false.
Proof.
  split.
  - apply (proj1 find_price_finds_a_price). reflexivity.
  - apply (proj2 find_price_finds_a_price (JDict [("price", JNum 0)])).
    + reflexivity.
    + apply price_here. reflexivity.
Defined.

(** ** JSON-LD blocks in sequence *)

Lemma jsonld_price_app {ext : Externals} (r : regex) (l1 l2 : list string) :
  jsonld_price (l1 ++ l2)%list r
  = match jsonld_price l1 r with
    | Some a => Some a
    | None => jsonld_price l2 r
    end.
Proof.
  induction l1 as [|s l1 IH]; [done |].
  cbn [jsonld_price app].
  destruct (json_loads s) as [data|]; [| exact IH].
  destruct (find_price data) as [p|]; [| exact IH].
  destruct (norm_price (Some (py_str p)) r); [done | exact IH].
Qed.

(** X5. The JSON-LD blocks are tried in page order and the first one that
    yields an amount decides; blocks that do not parse, hold no price or
    hold a price without a value are passed over wherever they stand. *)
Theorem jsonld_first_block_wins {ext : Externals} (r : regex)
  (l1 l2 : list string) :
  jsonld_price (l1 ++ l2)%list r
  = match jsonld_price l1 r with
    | Some a => Some a
    | None => jsonld_price l2 r
    end /\
  (Forall (fun s => forall data p,
             json_loads s = Some data -> find_price data = Some p ->
             norm_price (Some (py_str p)) r = None) l1 ->
   jsonld_price (l1 ++ l2)%list r = jsonld_price l2 r).
Proof.
  split; [apply jsonld_price_app |].
  intros Hall. rewrite jsonld_price_app.
  replace (jsonld_price l1 r) with (@None Q); [done |].
  symmetry. induction Hall as [|s l Hs Hl IH]; [done |].
  cbn [jsonld_price].
  destruct (json_loads s) as [data|] eqn:El; [| exact IH].
  destruct (find_price data) as [p|] eqn:Ef; [| exact IH].
  by rewrite (Hs data p eq_refl Ef).
Qed.

Lemma jsonld_first_block_wins_witness :
  jsonld_price (ext := Fixture.ext)
    ["{not json"; "{offers:{price:999}}"] DEFAULT_REGEX
  = jsonld_price (ext := Fixture.ext) ["{offers:{price:999}}"] DEFAULT_REGEX.
Proof.
  apply (proj2 (jsonld_first_block_wins (ext := Fixture.ext) DEFAULT_REGEX
                  ["{not json"] ["{offers:{price:999}}"])).
  constructor; [| constructor]. intros data p H. discriminate H.
Defined.

(** ** What a run leaves alone *)

Section Isolation.
Context {ext : Externals} (cfg : Config) (env : Env).

Lemma throttle_other (url d : string) (w : World) :
  netloc url <> Ok d ->
  _LAST_FETCH (snd (_throttle env url w)) !! d = _LAST_FETCH w !! d.
Proof.
  intros Hd. unfold _throttle. destruct (netloc url) as [dom|e]; [| done].
  assert (dom <> d) as Hne by (intros ->; by apply Hd).
  unfold uniform. cbn [fst snd].
  match goal with |- context [Qltb 0 ?x] => destruct (Qltb 0 x) end;
    cbn; by rewrite lookup_insert_ne.
Qed.

Lemma backoff_loop_other (url d : string) (n : nat) :
  netloc url <> Ok d ->
  forall (delay : Q) (w : World),
  _LAST_FETCH (snd (backoff_loop cfg env n delay url w)) !! d = _LAST_FETCH w !! d.
Proof.
  intros Hd. induction n as [|n IH]; intros delay w; cbn [backoff_loop snd]; [done |].
  pose proof (throttle_other url d w Hd) as Ht.
  destruct (_throttle env url w) as [[[]|e] w1]; cbn [snd] in Ht; [| done].
  assert (forall reply w2, requests_get env (maybe_proxy cfg url) w1 = (reply, w2) ->
            _LAST_FETCH w2 !! d = _LAST_FETCH w !! d) as Hget.
  { intros reply w2 [= _ <-]. exact Ht. }
  destruct (requests_get env (maybe_proxy cfg url) w1) as [[resp|e] w2] eqn:Hg;
    pose proof (Hget _ _ eq_refl) as Hw2; [| done].
  destruct (status_code resp =? 429).
  { etransitivity; [apply IH | exact Hw2]. }
  destruct ((500 <=? status_code resp) && (status_code resp <? 600)).
  { etransitivity; [apply IH | exact Hw2]. }
  by destruct (raise_for_status resp).
Qed.

Lemma process_rule_other (r : Rule) (st : Run) (d : string) :
  netloc (url r) <> Ok d ->
  _LAST_FETCH (world (process_rule cfg env r st)) !! d = _LAST_FETCH (world st) !! d.
Proof.
  intros Hd.
  pose proof (backoff_loop_other (url r) d MAX_TRIES Hd 2 (world st)) as Hb.
  destruct (process_rule_cases cfg env r st) as [[_ ->] | (_ & _ & [H | H])]; [done | |].
  - destruct H as (e & w & He & ->). unfold extract_price, http_get_with_backoff in He.
    destruct (backoff_loop cfg env MAX_TRIES 2 (url r) (world st)) as [[resp|e'] w'];
      injection He as _ <-; exact Hb.
  - destruct H as (amt & w & He & ->).
    rewrite (proj2 (on_amount_history cfg r amt w st)).
    unfold extract_price, http_get_with_backoff in He.
    destruct (backoff_loop cfg env MAX_TRIES 2 (url r) (world st)) as [[resp|e'] w'];
      [| done]. injection He as _ <-. exact Hb.
Qed.

End Isolation.

(** X6. Fetching a url writes the throttle table only under that url's own
    domain: the entry of every other domain is as it was, after one fetch and
    after a whole run over rules of other domains. *)
Theorem throttle_table_per_domain {ext : Externals} (cfg : Config) (env : Env)
  (d : string) :
  (forall (url : string) (w : World),
     netloc url <> Ok d ->
     _LAST_FETCH (snd (http_get_with_backoff cfg env url w)) !! d
     = _LAST_FETCH w !! d) /\
  (forall (rows : list Rule) (st : Run),
     Forall (fun r => netloc (url r) <> Ok d) rows ->
     _LAST_FETCH (world (main_loop cfg env rows st)) !! d
     = _LAST_FETCH (world st) !! d).
Proof.
  split.
  - intros url w Hd. by apply backoff_loop_other.
  - intros rows. induction rows as [|r rows IH]; intros st Hall; [done |].
    apply Forall_cons in Hall as [Hr Hall].
    change (main_loop cfg env (r :: rows) st)
      with (main_loop cfg env rows (process_rule cfg env r st)).
    rewrite IH by done. by apply process_rule_other.
Qed.

Lemma throttle_table_per_domain_witness :
  _LAST_FETCH (world (main_loop (ext := Fixture.ext) default_config
                        (Fixture.constant_env 200 Fixture.product_page)
                        [Fixture.rower_rule] Fixture.run0)) !! "www.hydrow.com"
  = None.
Proof.
  rewrite (proj2 (throttle_table_per_domain (ext := Fixture.ext) default_config
                    (Fixture.constant_env 200 Fixture.product_page) "www.hydrow.com")).
  - reflexivity.
  - constructor; [| constructor]. vm_compute. discriminate.
Defined.

(** ** Requests of a run *)

Lemma targets_app (l1 l2 : list Event) :
  targets (l1 ++ l2)%list = (targets l1 ++ targets l2)%list.
Proof.
  induction l1 as [|[s | tg t] l1 IH]; simpl; [done | done | by rewrite IH].
Qed.

Section Requests.
Context {ext : Externals} (cfg : Config) (env : Env).

Lemma throttle_targets (url : string) (w : World) :
  targets (trace (snd (_throttle env url w))) = targets (trace w).
Proof.
  unfold _throttle. destruct (netloc url) as [dom|e]; [| done].
  unfold uniform. cbn [fst snd].
  match goal with |- context [Qltb 0 ?x] => destruct (Qltb 0 x) end; cbn; [| done].
  rewrite targets_app. simpl. by rewrite app_nil_r.
Qed.

(** The requests of one fetch: at most [n], all to maybe_proxy(url). *)
Lemma backoff_loop_targets (url : string) (n : nat) :
  forall (delay : Q) (w : World),
  exists k, (k <= n)%nat /\
    targets (trace (snd (backoff_loop cfg env n delay url w)))
    = (targets (trace w) ++ repeat (maybe_proxy cfg url) k)%list /\
    requests (snd (backoff_loop cfg env n delay url w)) = (requests w + k)%nat.
Proof.
  induction n as [|n IH]; intros delay w; cbn [backoff_loop snd].
  { exists 0%nat. simpl. rewrite app_nil_r. repeat split; lia. }
  pose proof (throttle_targets url w) as Ht.
  pose proof (throttle_requests env url w) as Hr.
  destruct (_throttle env url w) as [[[]|e] w1]; cbn [snd] in Ht, Hr.
  2: { exists 0%nat. simpl. rewrite app_nil_r. repeat split; [lia | done | lia]. }
  assert (forall w2 reply, requests_get env (maybe_proxy cfg url) w1 = (reply, w2) ->
            targets (trace w2) = (targets (trace w) ++ [maybe_proxy cfg url])%list /\
            requests w2 = S (requests w)) as Hget.
  { intros w2 reply [= _ <-]. cbn. rewrite targets_app, Ht, Hr. done. }
  destruct (requests_get env (maybe_proxy cfg url) w1) as [[resp|e] w2] eqn:Hg;
    destruct (Hget _ _ eq_refl) as [Htr Hrq].
  2: { exists 1%nat. cbn [snd repeat]. repeat split; [lia | done | lia]. }
  assert (forall hi d,
    exists k, (k <= S n)%nat /\
      targets (trace (snd (backoff_loop cfg env n d url
                             (sleep (delay + fst (uniform env 0 hi w2))
                                    (snd (uniform env 0 hi w2))))))
      = (targets (trace w) ++ repeat (maybe_proxy cfg url) k)%list /\
      requests (snd (backoff_loop cfg env n d url
                             (sleep (delay + fst (uniform env 0 hi w2))
                                    (snd (uniform env 0 hi w2)))))
      = (requests w + k)%nat) as Hretry.
  { intros hi d.
    destruct (IH d (sleep (delay + fst (uniform env 0 hi w2))
                          (snd (uniform env 0 hi w2)))) as (k & Hk & Hts & Hrs).
    exists (S k). split; [lia |]. rewrite Hts, Hrs. cbn.
    rewrite targets_app, Htr, Hrq. simpl. rewrite app_nil_r, <- app_assoc.
    split; [done | lia]. }
  destruct (status_code resp =? 429); [apply Hretry |].
  destruct ((500 <=? status_code resp) && (status_code resp <? 600)); [apply Hretry |].
  exists 1%nat.
  destruct (raise_for_status resp); cbn [snd repeat]; repeat split; try done; lia.
Qed.

Lemma process_rule_targets (r : Rule) (st : Run) :
  exists k, (k <= if complete r then 3 else 0)%nat /\
    targets (trace (world (process_rule cfg env r st)))
    = (targets (trace (world st)) ++ repeat (maybe_proxy cfg (url r)) k)%list /\
    requests (world (process_rule cfg env r st)) = (requests (world st) + k)%nat.
Proof.
  destruct (backoff_loop_targets (url r) MAX_TRIES 2 (world st)) as (k & Hk & Ht & Hr).
  destruct (process_rule_cases cfg env r st) as [[_ ->] | (Hu & Hs & [H | H])].
  - exists 0%nat. simpl. rewrite app_nil_r. repeat split; lia.
  - destruct H as (e & w & He & ->). exists k.
    assert (complete r = true) as ->.
    { unfold complete. apply String.eqb_neq in Hu, Hs. by rewrite Hu, Hs. }
    unfold extract_price, http_get_with_backoff in He.
    destruct (backoff_loop cfg env MAX_TRIES 2 (url r) (world st)) as [[resp|e'] w'];
      injection He as _ <-; done.
  - destruct H as (amt & w & He & ->). exists k.
    assert (complete r = true) as ->.
    { unfold complete. apply String.eqb_neq in Hu, Hs. by rewrite Hu, Hs. }
    rewrite (proj2 (on_amount_history cfg r amt w st)).
    unfold extract_price, http_get_with_backoff in He.
    destruct (backoff_loop cfg env MAX_TRIES 2 (url r) (world st)) as [[resp|e'] w'];
      [| done]. injection He as _ <-. done.
Qed.

End Requests.

(** X7. A run sends at most MAX_TRIES = 3 requests for each row that has a
    url and a selector and none for the others, and every request goes to
    maybe_proxy(url) of such a row: no other address is contacted. *)
Theorem run_requests_bounded {ext : Externals} (cfg : Config) (env : Env)
  (rows : list Rule) (st : Run) :
  exists sent : list string,
    targets (trace (world (main_loop cfg env rows st)))
    = (targets (trace (world st)) ++ sent)%list /\
    requests (world (main_loop cfg env rows st))
    = (requests (world st) + length sent)%nat /\
    (length sent <= 3 * complete_rows rows)%nat /\
    forall t, In t sent ->
      exists r, In r rows /\ complete r = true /\ t = maybe_proxy cfg (url r).
Proof.
  revert st. induction rows as [|r rows IH]; intros st.
  { exists []. simpl. rewrite app_nil_r. repeat split; try lia. }
  destruct (process_rule_targets cfg env r st) as (k & Hk & Ht & Hr).
  destruct (IH (process_rule cfg env r st)) as (sent & Hts & Hrs & Hlen & Hin).
  exists (repeat (maybe_proxy cfg (url r)) k ++ sent)%list.
  change (main_loop cfg env (r :: rows) st)
    with (main_loop cfg env rows (process_rule cfg env r st)).
  rewrite Hts, Ht, Hrs, Hr, length_app, repeat_length, <- app_assoc.
  split; [done |]. split; [lia |]. split.
  - simpl. destruct (complete r); lia.
  - intros t [Hrep | Hs]%in_app_iff.
    + destruct (complete r) eqn:E.
      * apply repeat_spec in Hrep. subst t. exists r. split; [by left | done].
      * assert (k = 0%nat) as -> by lia. destruct Hrep.
    + destruct (Hin t Hs) as (r' & Hr' & Hc & ->). exists r'.
      split; [by right | done].
Qed.

Lemma run_requests_bounded_witness :
  (requests (world (main_loop (ext := Fixture.ext) default_config
                      (Fixture.constant_env 503 "") [Fixture.rower_rule] Fixture.run0))
   <= 3)%nat.
Proof.
  destruct (run_requests_bounded (ext := Fixture.ext) default_config
              (Fixture.constant_env 503 "") [Fixture.rower_rule] Fixture.run0)
    as (sent & _ & -> & Hl & _).
  simpl in *. lia.
Defined.

Lemma every_token_has_value_witness :
  heuristic_price default_config "no prices here, and $5 shipping" DEFAULT_REGEX
  = Raise no_price.
Proof.
  apply (proj2 (every_token_has_value default_config
                  "no prices here, and $5 shipping")).
  reflexivity.
Defined.

(** ** Events and counters *)

Lemma total_items_add (c : string) (line : Line) (ev : gmap string (list Line)) :
  total_items (add_event c line ev) = S (total_items ev).
Proof.
  assert (forall (x : list Line) (m : gmap string (list Line)),
            m !! c = None ->
            total_items (<[c := x]> m) = (length x + total_items m)%nat) as Hins.
  { intros x m Hm. unfold total_items. rewrite map_fold_insert_L; [done | | done].
    intros. lia. }
  unfold add_event. destruct (ev !! c) as [l|] eqn:E.
  - rewrite <- (insert_delete_id ev c l E) at 2.
    rewrite <- insert_delete_eq.
    rewrite !Hins by apply lookup_delete_eq.
    simpl. rewrite length_app. simpl. lia.
  - simpl. by rewrite Hins.
Qed.

Section Counters.
Context {ext : Externals} (cfg : Config) (env : Env).

Lemma on_amount_counts (r : Rule) (amt : Q) (w : World) (st : Run) :
  exists d, (d <= 1)%nat /\
    total_items (events_by_comp (on_amount cfg r amt w st))
    = (total_items (events_by_comp st) + d)%nat /\
    (init_count (on_amount cfg r amt w st) + change_count (on_amount cfg r amt w st)
     + error_count (on_amount cfg r amt w st)
     = init_count st + change_count st + error_count st + d)%nat.
Proof.
  unfold on_amount.
  destruct (detect _ _ _);
    cbn [events_by_comp init_count change_count error_count];
    rewrite ?total_items_add; simpl.
  - exists 1%nat. repeat split; lia.
  - exists 0%nat. repeat split; lia.
  - exists 0%nat. repeat split; lia.
  - exists 1%nat. repeat split; lia.
Qed.

Lemma process_rule_counts (r : Rule) (st : Run) :
  exists d, (d <= 1)%nat /\
    total_items (events_by_comp (process_rule cfg env r st))
    = (total_items (events_by_comp st) + d)%nat /\
    (init_count (process_rule cfg env r st) + change_count (process_rule cfg env r st)
     + error_count (process_rule cfg env r st)
     = init_count st + change_count st + error_count st + d)%nat.
Proof.
  destruct (process_rule_cases cfg env r st) as [[_ ->] | (_ & _ & [H | H])].
  - exists 0%nat. unfold skip. cbn. repeat split; lia.
  - destruct H as (e & w & _ & ->). exists 1%nat. unfold on_error. cbn.
    rewrite total_items_add. repeat split; lia.
  - destruct H as (amt & w & _ & ->). apply on_amount_counts.
Qed.

End Counters.

(** X8. Every line the loop adds to events_by_comp is counted once in
    init_count, change_count or error_count: when the three counters add up
    to the number of digest items before the loop, as they do at the start of
    main, they still do behind it. Each row adds at most one item. *)
Theorem counters_match_digest {ext : Externals} (cfg : Config) (env : Env)
  (rows : list Rule) (st : Run) :
  let st' := main_loop cfg env rows st in
  (total_items (events_by_comp st) = (init_count st + change_count st + error_count st)%nat ->
   total_items (events_by_comp st')
   = (init_count st' + change_count st' + error_count st')%nat) /\
  (total_items (events_by_comp st')
   <= total_items (events_by_comp st) + length rows)%nat.
Proof.
  revert st. induction rows as [|r rows IH]; intros st st'.
  { subst st'. simpl. split; [done | lia]. }
  destruct (process_rule_counts cfg env r st) as (d & Hd & Ht & Hc).
  destruct (IH (process_rule cfg env r st)) as (H1 & H2).
  subst st'. change (main_loop cfg env (r :: rows) st)
    with (main_loop cfg env rows (process_rule cfg env r st)).
  split.
  - intros H0. apply H1. lia.
  - simpl. lia.
Qed.

Lemma counters_match_digest_witness :
  total_items (events_by_comp
                 (main_loop (ext := Fixture.ext) default_config
                    (Fixture.constant_env 200 Fixture.product_page)
                    [Fixture.rower_rule; Fixture.rower_rule] Fixture.run0))
  = 1%nat.
Proof.
  rewrite (proj1 (counters_match_digest (ext := Fixture.ext) default_config
                    (Fixture.constant_env 200 Fixture.product_page)
                    [Fixture.rower_rule; Fixture.rower_rule] Fixture.run0));
    reflexivity.
Defined.

(** ** What is stored is what is compared next *)

Lemma previous_append_same (key : string) (o : Observation)
  (h : gmap string (list Observation)) :
  previous (append_entry key o h) key = amount o.
Proof.
  unfold previous, append_entry. rewrite lookup_insert_eq. by rewrite last_snoc.
Qed.

Lemma previous_append_other (key k : string) (o : Observation)
  (h : gmap string (list Observation)) :
  key <> k -> previous (append_entry key o h) k = previous h k.
Proof.
  intros Hne. unfold previous, append_entry. by rewrite lookup_insert_ne.
Qed.

(** X9. The amount a successful extraction stores for a url is the one the
    next extraction for that url is compared with, and the stored amounts of
    other urls are untouched. So when the same rule yields the same amount
    again, nothing is reported and no counter moves, although one more
    entry is appended to the history. *)
Theorem stored_amount_is_next_previous {ext : Externals} (cfg : Config) (env : Env)
  (r : Rule) (st : Run) (amt : Q) (w : World) :
  url r <> "" -> selector r <> "" ->
  extract_price cfg env (url r) (selector r) (attr r) (rule_regex r)
    (Some (name r)) (world st) = (Ok amt, w) ->
  let st1 := process_rule cfg env r st in
  previous (history st1) (url r) = Some amt /\
  (forall key, key <> url r -> previous (history st1) key = previous (history st) key) /\
  (forall w2 : World,
     extract_price cfg env (url r) (selector r) (attr r) (rule_regex r)
       (Some (name r)) (world st1) = (Ok amt, w2) ->
     let st2 := process_rule cfg env r st1 in
     events_by_comp st2 = events_by_comp st1 /\
     init_count st2 = init_count st1 /\ change_count st2 = change_count st1 /\
     error_count st2 = error_count st1 /\
     default [] (history st2 !! url r)
     = (default [] (history st1 !! url r) ++ [observe r amt w2])%list).
Proof.
  intros Hu Hs He st1.
  assert (forall st0 a w0,
            extract_price cfg env (url r) (selector r) (attr r) (rule_regex r)
              (Some (name r)) (world st0) = (Ok a, w0) ->
            process_rule cfg env r st0 = on_amount cfg r a w0 st0) as Hstep.
  { intros st0 a w0 H0. unfold process_rule.
    destruct (String.eqb_spec (url r) ""); [done |].
    destruct (String.eqb_spec (selector r) ""); [done |]. simpl. by rewrite H0. }
  assert (history st1 = append_entry (url r) (observe r amt w) (history st)) as Hh.
  { subst st1. rewrite (Hstep _ _ _ He). apply on_amount_history. }
  assert (previous (history st1) (url r) = Some amt) as Hprev.
  { rewrite Hh. apply previous_append_same. }
  split; [done |]. split.
  - intros key Hk. rewrite Hh. by apply previous_append_other.
  - intros w2 He2 st2. subst st2. rewrite (Hstep _ _ _ He2).
    unfold on_amount. rewrite Hprev.
    change (option_map Binary64.of_Q (Some amt)) with (Some (Binary64.of_Q amt)).
    rewrite detect_same.
    cbn [events_by_comp init_count change_count error_count history].
    repeat split. unfold append_entry. by rewrite lookup_insert_eq.
Qed.

Lemma stored_amount_is_next_previous_witness :
  previous (history (process_rule (ext := Fixture.ext) default_config
                       (Fixture.constant_env 200 Fixture.product_page)
                       Fixture.rower_rule Fixture.run0))
    "https://shop.example/p"
  = Some 1299%Q.
Proof.
  edestruct (stored_amount_is_next_previous (ext := Fixture.ext) default_config
               (Fixture.constant_env 200 Fixture.product_page)
               Fixture.rower_rule Fixture.run0) as [H _];
    [discriminate | discriminate | vm_compute; reflexivity | exact H].
Defined.

(** ** The footnote of the plus variant *)

Lemma match_here_plus (p : Pattern.Footnote) (s : string) :
  Pattern.not_plus p = true ->
  (negb (Text.starts_with_by Text.eqc_nocase (Pattern.product p) s)
   || Text.starts_with "+" (Text.drop (String.length (Pattern.product p)) s)) = true ->
  Pattern.match_here p s = None.
Proof.
  intros Hp H. unfold Pattern.match_here.
  destruct (Text.starts_with_by Text.eqc_nocase (Pattern.product p) s); [| done].
  simpl in H. by rewrite Hp, H.
Qed.

(** X10. A pattern with the (?!\+) lookahead, as the ones for the Bike and
    the Tread, never matches at a mention of its product that a plus sign
    follows: on a page where every mention is of the plus variant the search
    finds nothing and the footnote strategy yields no price. *)
Theorem base_pattern_skips_plus_variant (p : Pattern.Footnote) (page : string) :
  Pattern.not_plus p = true ->
  only_plus_mentions p page = true ->
  Pattern.search p page = None /\
  forall (url hint : string) (r : regex) (html : string),
    Pattern.for_hint (Text.lower hint) = Some p ->
    Pattern.collapse_ws false html = page ->
    peloton_price url html r (Some hint) = None.
Proof.
  intros Hp Hm.
  assert (Pattern.search p page = None) as Hs.
  { induction page as [|c s IH].
    - simpl in *. apply andb_true_iff in Hm as [Hm _].
      by rewrite (match_here_plus p "" Hp Hm).
    - cbn [Pattern.search]. cbn [only_plus_mentions] in Hm.
      apply andb_true_iff in Hm as [Hm Hrest].
      rewrite (match_here_plus p _ Hp Hm). by apply IH. }
  split; [done |].
  intros url hint r html Hh Hc. unfold peloton_price.
  destruct (Text.contains "onepeloton.com" url && negb (String.eqb hint "")); [| done].
  by rewrite Hh, Hc, Hs.
Qed.

Lemma base_pattern_skips_plus_variant_witness :
  peloton_price "https://www.onepeloton.com/bike"
    "Get the Peloton Bike+ today.  Based on a price of $2,495 at 0% APR."
    DEFAULT_REGEX (Some "Peloton Bike")
  = None.
Proof.
  apply (proj2 (base_pattern_skips_plus_variant
                  {| Pattern.product := "Get the Peloton Bike"; Pattern.not_plus := true |}
                  "Get the Peloton Bike+ today. Based on a price of $2,495 at 0% APR."
                  eq_refl eq_refl)); reflexivity.
Defined.

(** ** The address handed to the proxy *)

Lemma quote_char_step (c : ascii) (q : string) :
  Text.all quoted_char
    (if Quote.unreserved c then String c q
     else if (Text.code c <? 128)%N then Quote.percent (Text.code c) q
     else Quote.percent (192 + Text.code c / 64)
            (Quote.percent (128 + Text.code c mod 64) q))
  = Text.all quoted_char q.
Proof. destruct c as [[] [] [] [] [] [] [] []]; reflexivity. Qed.

Lemma quote_chars (s : string) : Text.all quoted_char (Quote.quote s) = true.
Proof.
  induction s as [|c s IH]; [done |].
  cbn [Quote.quote]. by rewrite quote_char_step.
Qed.

(** X11. When maybe_proxy rewrites a url, the address it builds is the proxy
    endpoint with the key and the url percent-encoded: the encoded url holds
    only letters, digits, "_", ".", "-", "~" and "%", so no "&", "=", "?", "/"
    or "#" of the page address reaches the proxy's query string. *)
Theorem proxied_url_is_encoded (cfg : Config) (url : string) :
  SCRAPERAPI_KEY cfg <> "" -> Text.contains "hydrow.com" url = true ->
  exists q,
    maybe_proxy cfg url
    = "https://api.scraperapi.com/?api_key=" ++ SCRAPERAPI_KEY cfg ++ "&url=" ++ q /\
    Text.all quoted_char q = true /\
    (String.length url <= String.length q)%nat.
Proof.
  intros Hk Hc. exists (Quote.quote url). split; [| split].
  - unfold maybe_proxy. apply String.eqb_neq in Hk. by rewrite Hk, Hc.
  - apply quote_chars.
  - clear Hc. induction url as [|c s IH]; [done |].
    change (Quote.quote (String c s)) with
      (if Quote.unreserved c then String c (Quote.quote s)
       else if (Text.code c <? 128)%N then Quote.percent (Text.code c) (Quote.quote s)
       else Quote.percent (192 + Text.code c / 64)
              (Quote.percent (128 + Text.code c mod 64) (Quote.quote s))).
    destruct (Quote.unreserved c); [simpl; lia |].
    destruct (Text.code c <? 128)%N; simpl; lia.
Qed.

Lemma proxied_url_is_encoded_witness :
  exists q,
    maybe_proxy {| SCRAPERAPI_KEY := "k"; CHANGE_THRESHOLD_PCT := 0;
                   MIN_PRICE_FLOOR := 400 |}
      "https://hydrow.com/rower?ref=a&b=1"
    = "https://api.scraperapi.com/?api_key=k&url=" ++ q /\
    Text.all quoted_char q = true.
Proof.
  destruct (proxied_url_is_encoded
              {| SCRAPERAPI_KEY := "k"; CHANGE_THRESHOLD_PCT := 0;
                 MIN_PRICE_FLOOR := 400 |}
              "https://hydrow.com/rower?ref=a&b=1") as (q & H1 & H2 & _);
    [discriminate | reflexivity |].
  exists q. split; assumption.
Defined.

(** ** Recipients of the digest *)

Module StrFacts.
Import Text TextFacts.

Lemma drop_while_head p (s : string) :
  match drop_while p s with
  | EmptyString => True
  | String a _ => p a = false
  end.
Proof.
  induction s as [|a s IH]; simpl; [done |].
  destruct (p a) eqn:E; [exact IH | exact E].
Qed.

Lemma drop_while_end_idem p (s : string) :
  drop_while_end p (drop_while_end p s) = drop_while_end p s.
Proof.
  induction s as [|a s IH]; simpl; [done |].
  destruct (drop_while_end p s) as [|b u] eqn:E.
  - destruct (p a) eqn:Ea; simpl; [done | by rewrite Ea].
  - cbn [drop_while_end]. cbn [drop_while_end] in IH. by rewrite IH.
Qed.

Lemma drop_while_end_head p (a : ascii) (s : string) :
  p a = false -> exists u, drop_while_end p (String a s) = String a u.
Proof.
  intros Ha. simpl. destruct (drop_while_end p s) as [|b u].
  - rewrite Ha. by exists "".
  - by exists (String b u).
Qed.

Lemma strip_idem (s : string) : Str.strip (Str.strip s) = Str.strip s.
Proof.
  unfold Str.strip.
  pose proof (drop_while_head is_space s) as Hh.
  destruct (drop_while is_space s) as [|a t]; [done |].
  destruct (drop_while_end_head is_space a t Hh) as [u Hu].
  rewrite Hu. cbn [drop_while]. rewrite Hh. rewrite <- Hu.
  apply drop_while_end_idem.
Qed.

Lemma all_drop_while q p (s : string) : all q s = true -> all q (drop_while p s) = true.
Proof.
  induction s as [|a s IH]; simpl; [done |].
  intros [Ha Hs]%andb_true_iff. destruct (p a); [by apply IH |].
  simpl. by rewrite Ha, Hs.
Qed.

Lemma all_drop_while_end q p (s : string) :
  all q s = true -> all q (drop_while_end p s) = true.
Proof.
  induction s as [|a s IH]; simpl; [done |].
  intros [Ha Hs]%andb_true_iff. specialize (IH Hs).
  destruct (drop_while_end p s) as [|b u].
  - destruct (p a); simpl; [done | by rewrite Ha].
  - simpl in *. by rewrite Ha, IH.
Qed.

Lemma all_strip q (s : string) : all q s = true -> all q (Str.strip s) = true.
Proof. intros H. unfold Str.strip. by apply all_drop_while_end, all_drop_while. Qed.

Lemma split_on_nonempty c (s : string) : Str.split_on c s <> [].
Proof.
  induction s as [|a s IH]; simpl; [done |].
  destruct (eqc a c); [done |]. by destruct (Str.split_on c s).
Qed.

(** No piece of a split holds the separator. *)
Lemma split_on_pieces c (s : string) :
  Forall (fun e => all (fun a => negb (eqc a c)) e = true) (Str.split_on c s).
Proof.
  induction s as [|a s IH]; simpl; [by constructor |].
  destruct (eqc a c) eqn:E; [by constructor |].
  destruct (Str.split_on c s) as [|x xs]; [constructor; [simpl; by rewrite E | done] |].
  apply Forall_cons in IH as [Hx Hxs].
  constructor; [simpl; by rewrite E, Hx | done].
Qed.

Lemma recipients_clean (email_to : string) :
  Forall (fun e => e <> "" /\ Str.strip e = e /\
                   all (fun a => negb (eqc a comma)) e = true)
         (recipients_of email_to).
Proof.
  unfold recipients_of. apply List.Forall_forall. intros e He.
  apply filter_In in He as [He Hne]. apply in_map_iff in He as (x & <- & Hx).
  split; [| split].
  - intros H. rewrite H in Hne. done.
  - apply strip_idem.
  - apply all_strip.
    pose proof (split_on_pieces comma email_to) as Hall.
    rewrite List.Forall_forall in Hall. by apply Hall.
Qed.

End StrFacts.

(** X12. send_email opens an SMTP session only when host, user, password
    and EMAIL_TO are all set and EMAIL_TO names at least one recipient;
    otherwise it only prints a notice. The recipients are the entries of
    EMAIL_TO between commas with the white space around them removed and the
    blank ones dropped, and the To header joins them with ", ". *)
Theorem send_email_recipients (ecfg : EmailConfig) (subject body : string) :
  Forall (fun e => e <> "" /\ Str.strip e = e /\
                   Text.all (fun a => negb (Text.eqc a comma)) e = true)
         (recipients_of (EMAIL_TO ecfg)) /\
  match send_email ecfg subject body with
  | Handed host port user pass from recipients msg =>
      EMAIL_HOST ecfg <> "" /\ EMAIL_USER ecfg <> "" /\ EMAIL_PASS ecfg <> "" /\
      EMAIL_TO ecfg <> "" /\
      recipients = recipients_of (EMAIL_TO ecfg) /\ recipients <> [] /\
      (host, port, user, pass, from)
      = (EMAIL_HOST ecfg, EMAIL_PORT ecfg, EMAIL_USER ecfg, EMAIL_PASS ecfg,
         EMAIL_FROM ecfg) /\
      msg = {| msg_subject := subject; msg_from := EMAIL_FROM ecfg;
               msg_to := String.concat ", " recipients; msg_body := body |}
  | EmailNoRecipients s =>
      s = subject /\ EMAIL_TO ecfg <> "" /\ recipients_of (EMAIL_TO ecfg) = []
  | EmailDisabled s =>
      s = subject /\
      (EMAIL_HOST ecfg = "" \/ EMAIL_USER ecfg = "" \/ EMAIL_PASS ecfg = "" \/
       EMAIL_TO ecfg = "")
  end /\
  recipients_of " ops@example.com, ,sales@example.com ,"
  = ["ops@example.com"; "sales@example.com"] /\
  recipients_of " , ," = [].
Proof.
  split; [apply StrFacts.recipients_clean |]. split; [| split; reflexivity].
  unfold send_email.
  destruct (String.eqb_spec (EMAIL_HOST ecfg) ""); [simpl; split; [done | by left] |].
  destruct (String.eqb_spec (EMAIL_USER ecfg) "");
    [simpl; split; [done | right; by left] |].
  destruct (String.eqb_spec (EMAIL_PASS ecfg) "");
    [simpl; split; [done | right; right; by left] |].
  destruct (String.eqb_spec (EMAIL_TO ecfg) "");
    [simpl; split; [done | right; right; by right] |].
  simpl. destruct (recipients_of (EMAIL_TO ecfg)) as [|e es] eqn:E; [done |].
  repeat split; done.
Qed.

(** ** normalize_url *)

Lemma keep_pairs_idem (pairs : list (string * string)) :
  keep_pairs (keep_pairs pairs) = keep_pairs pairs.
Proof.
  unfold keep_pairs. induction pairs as [|kv pairs IH]; [done |]. simpl.
  destruct (negb (is_utm (fst kv))) eqn:E; [| exact IH].
  simpl. by rewrite E, IH.
Qed.

Lemma keep_pairs_id (pairs : list (string * string)) :
  Forall (fun kv => is_utm (fst kv) = false) pairs -> keep_pairs pairs = pairs.
Proof.
  unfold keep_pairs. induction 1 as [|kv pairs Hkv _ IH]; [done |].
  simpl. by rewrite Hkv, IH.
Qed.

(** X13. normalize_url gives back an empty url, any url when STRIP_UTM is
    off, and any url urllib cannot take apart. Otherwise it rebuilds the url
    with the query pairs whose key does not start with "utm_" in any case,
    in their order, so a url without such keys keeps all its pairs; and when
    urllib reads back what it wrote, normalising twice is normalising once. *)
Theorem normalize_url_drops_utm {lib : UrlLib} (u : string) :
  normalize_url true "" = "" /\ normalize_url false u = u /\
  (forall e, urlsplit u = Raise e -> normalize_url true u = u) /\
  (forall parts pairs,
     u <> "" -> urlsplit u = Ok parts -> parse_qsl (query parts) = Ok pairs ->
     normalize_url true u
     = urlunsplit (with_query parts (urlencode (keep_pairs pairs))) /\
     Forall (fun kv => is_utm (fst kv) = false) (keep_pairs pairs) /\
     (forall kv, In kv pairs -> is_utm (fst kv) = false -> In kv (keep_pairs pairs)) /\
     (Forall (fun kv => is_utm (fst kv) = false) pairs -> keep_pairs pairs = pairs) /\
     (urlsplit (urlunsplit (with_query parts (urlencode (keep_pairs pairs))))
      = Ok (with_query parts (urlencode (keep_pairs pairs))) ->
      parse_qsl (urlencode (keep_pairs pairs)) = Ok (keep_pairs pairs) ->
      normalize_url true (normalize_url true u) = normalize_url true u)).
Proof.
  split; [done |]. split.
  { unfold normalize_url. by rewrite orb_true_r. }
  split.
  { intros e He. unfold normalize_url. destruct (String.eqb u ""); [done |].
    simpl. by rewrite He. }
  intros parts pairs Hu Hs Hq.
  assert (normalize_url true u
          = urlunsplit (with_query parts (urlencode (keep_pairs pairs)))) as Hn.
  { unfold normalize_url. apply String.eqb_neq in Hu. rewrite Hu. simpl.
    by rewrite Hs, Hq. }
  split; [done |]. split; [| split; [| split]].
  - unfold keep_pairs. apply List.Forall_forall. intros kv Hin.
    apply filter_In in Hin as [_ H]. by apply negb_true_iff.
  - intros kv Hin Hk. unfold keep_pairs. apply filter_In. split; [done |].
    by rewrite Hk.
  - apply keep_pairs_id.
  - intros Hs' Hq'. rewrite Hn. unfold normalize_url at 1.
    destruct (String.eqb_spec
                (urlunsplit (with_query parts (urlencode (keep_pairs pairs)))) "")
      as [E | _]; [done |].
    simpl. rewrite Hs'. cbn [query with_query]. rewrite Hq'.
    by rewrite keep_pairs_idem.
Qed.

Lemma normalize_url_drops_utm_witness :
  normalize_url (lib := LibFixture.lib) true
    "https://shop.example/p?utm_source=mail&id=7&UTM_Medium=x"
  = "https://shop.example/p?id=7" /\
  normalize_url (lib := LibFixture.lib) true
    (normalize_url (lib := LibFixture.lib) true
       "https://shop.example/p?utm_source=mail&id=7&UTM_Medium=x")
  = normalize_url (lib := LibFixture.lib) true
      "https://shop.example/p?utm_source=mail&id=7&UTM_Medium=x".
Proof.
  destruct (normalize_url_drops_utm (lib := LibFixture.lib)
              "https://shop.example/p?utm_source=mail&id=7&UTM_Medium=x")
    as (_ & _ & _ & H).
  edestruct H as (H1 & _ & _ & _ & H2);
    [discriminate | reflexivity | reflexivity |].
  split; [rewrite H1; reflexivity |].
  apply H2; reflexivity.
Defined.

(** ** The history file *)

Lemma write_json_ok {jf : JsonFile} (path : string)
  (data : gmap string (list Observation)) (d d' : Disk) :
  write_json path data d = (SavedOk, d') ->
  d' = with_files d (<[path := dumps data]> (files d)).
Proof.
  unfold write_json. destruct (writable d path); [| discriminate].
  destruct (write_stops d path); [discriminate |]. by intros [= <-].
Qed.

Lemma write_json_raised {jf : JsonFile} (path : string)
  (data : gmap string (list Observation)) (d d' : Disk) :
  write_json path data d = (SaveRaised, d') ->
  d' = d \/
  exists n, write_stops d path = Some n /\
    d' = with_files d (<[path := String.substring 0 n (dumps data)]> (files d)).
Proof.
  unfold write_json. destruct (writable d path); [| intros [= <-]; by left].
  destruct (write_stops d path) as [n|]; [| discriminate].
  intros [= <-]. right. by exists n.
Qed.

Lemma save_history_ok {jf : JsonFile} (data : gmap string (list Observation))
  (d d' : Disk) :
  save_history data d = (SavedOk, d') ->
  files d' !! HISTORY_FILE = Some (dumps data) /\
  readable d' = readable d /\
  files d' !! TMP_FILE = (if replace_works d then None else Some (dumps data)) /\
  forall p, p <> HISTORY_FILE -> p <> TMP_FILE -> files d' !! p = files d !! p.
Proof.
  unfold save_history. fold TMP_FILE.
  assert (TMP_FILE <> HISTORY_FILE) as Hne by discriminate.
  destruct (write_json TMP_FILE data d) as [[|] d1] eqn:E1; [| discriminate].
  apply write_json_ok in E1. subst d1.
  destruct (replace_works d).
  - intros [= <-]. cbn. rewrite lookup_insert_eq.
    split; [done |]. split; [done |]. split.
    + rewrite lookup_insert_ne by done. by rewrite lookup_delete_eq.
    + intros p H1 H2. rewrite lookup_insert_ne by done.
      rewrite lookup_delete_ne by done. by rewrite lookup_insert_ne.
  - intros E2. apply write_json_ok in E2. subst d'. cbn.
    rewrite lookup_insert_eq.
    split; [done |]. split; [done |]. split.
    + rewrite lookup_insert_ne by done. by rewrite lookup_insert_eq.
    + intros p H1 H2. rewrite lookup_insert_ne by done. by rewrite lookup_insert_ne.
Qed.

Lemma load_after_save {jf : JsonFile} (data : gmap string (list Observation))
  (d d' : Disk) :
  save_history data d = (SavedOk, d') ->
  readable d HISTORY_FILE = true -> loads (dumps data) = Some data ->
  load_history d' = data.
Proof.
  intros Hs Hr Hl. destruct (save_history_ok data d d' Hs) as (Hf & Hrd & _).
  unfold load_history. by rewrite Hf, Hrd, Hr, Hl.
Qed.

(** What a save that raises leaves in history.json: the file as it was,
    or, when os.replace had failed and the direct write stopped half way,
    the part of the dump written so far. *)
Lemma save_history_raised {jf : JsonFile} (data : gmap string (list Observation))
  (d d' : Disk) :
  save_history data d = (SaveRaised, d') ->
  files d' !! HISTORY_FILE = files d !! HISTORY_FILE \/
  (replace_works d = false /\
   exists n, write_stops d HISTORY_FILE = Some n /\
     files d' !! HISTORY_FILE = Some (String.substring 0 n (dumps data))).
Proof.
  unfold save_history. fold TMP_FILE.
  assert (TMP_FILE <> HISTORY_FILE) as Hne by discriminate.
  destruct (write_json TMP_FILE data d) as [[|] d1] eqn:E1.
  - apply write_json_ok in E1. subst d1.
    destruct (replace_works d); [discriminate |].
    intros E2. apply write_json_raised in E2 as [-> | (n & Hn & ->)].
    + left. cbn. by rewrite lookup_insert_ne.
    + right. split; [done |]. exists n. split; [exact Hn |].
      cbn. by rewrite lookup_insert_eq.
  - intros [= <-]. left.
    apply write_json_raised in E1 as [-> | (n & _ & ->)]; [done |].
    cbn. by rewrite lookup_insert_ne.
Qed.

(** The direct write of the fallback is not atomic: on a host where
    os.replace fails and the write of history.json stops after 4
    characters, save_history raises, history.json holds those 4 characters
    instead of what it held, and load_history finds no history in it. *)
Example fallback_write_can_truncate :
  let out := save_history (jf := LibFixture.jf) LibFixture.after_run
               LibFixture.disk_full in
  fst out = SaveRaised /\
  files LibFixture.disk_full !! HISTORY_FILE = Some "one entry" /\
  files (snd out) !! HISTORY_FILE = Some "two " /\
  load_history (jf := LibFixture.jf) (snd out) = ∅.
Proof. repeat split; vm_compute; reflexivity. Qed.

(** X14. When save_history returns, history.json holds the dump of the data
    whether os.replace worked or the direct overwrite was used, no file other
    than history.json and history.json.tmp has changed, and the temporary file
    is gone after a replace but left behind after the fallback. If json reads
    back what it wrote, load_history then returns the saved data. When
    save_history raises on a host where os.replace works, history.json is as
    it was; in general it is as it was or, the fallback's own write having
    stopped half way, holds the part of the dump written so far.
    load_history gives the empty history for a missing, unreadable or
    undecodable file. *)
Theorem history_file_round_trip {jf : JsonFile}
  (data : gmap string (list Observation)) (d : Disk) :
  let res := fst (save_history data d) in
  let d' := snd (save_history data d) in
  (res = SavedOk ->
   files d' !! HISTORY_FILE = Some (dumps data) /\
   files d' !! (HISTORY_FILE ++ ".tmp")
   = (if replace_works d then None else Some (dumps data)) /\
   (forall p, p <> HISTORY_FILE -> p <> HISTORY_FILE ++ ".tmp" ->
      files d' !! p = files d !! p) /\
   (readable d HISTORY_FILE = true -> loads (dumps data) = Some data ->
    load_history d' = data)) /\
  (res = SaveRaised ->
   (replace_works d = true ->
    files d' !! HISTORY_FILE = files d !! HISTORY_FILE) /\
   (files d' !! HISTORY_FILE = files d !! HISTORY_FILE \/
    exists n, write_stops d HISTORY_FILE = Some n /\
      files d' !! HISTORY_FILE = Some (String.substring 0 n (dumps data)))) /\
  (files d !! HISTORY_FILE = None \/ readable d HISTORY_FILE = false \/
   (exists content, files d !! HISTORY_FILE = Some content /\ loads content = None) ->
   load_history d = ∅).
Proof.
  intros res d'. split; [| split].
  - intros Hres.
    assert (save_history data d = (SavedOk, d')) as Hs.
    { subst res d'. destruct (save_history data d) as [r x]. simpl in *. by subst. }
    destruct (save_history_ok data d d' Hs) as (H1 & _ & H2 & H3).
    split; [done |]. split; [done |]. split; [done |].
    intros Hr Hl. by eapply load_after_save.
  - intros Hres.
    assert (save_history data d = (SaveRaised, d')) as Hs.
    { subst res d'. destruct (save_history data d) as [r x]. simpl in *. by subst. }
    destruct (save_history_raised data d d' Hs) as [H | (Hrep & n & Hn & H)].
    + split; [done | by left].
    + split; [intros Ht; congruence |]. right. by exists n.
  - unfold load_history. intros [-> | [Hr | (content & -> & Hl)]]; [done | |].
    + destruct (files d !! HISTORY_FILE); [| done]. by rewrite Hr.
    + rewrite Hl. by destruct (readable d HISTORY_FILE).
Qed.

Lemma history_file_round_trip_witness :
  load_history (jf := LibFixture.jf)
    (snd (save_history (jf := LibFixture.jf) LibFixture.after_run
            LibFixture.disk_no_replace))
  = LibFixture.after_run /\
  files (snd (save_history (jf := LibFixture.jf) LibFixture.after_run
                LibFixture.disk_no_replace)) !! "history.json.tmp"
  = Some "two entries".
Proof.
  destruct (history_file_round_trip (jf := LibFixture.jf) LibFixture.after_run
              LibFixture.disk_no_replace) as [H _].
  destruct (H eq_refl) as (_ & Htmp & _ & Hload).
  split; [apply Hload; reflexivity | exact Htmp].
Defined.

(** X15. A run that saves its history hands it to the next run: when json
    reads back what it wrote, loading history.json behind main gives the
    history the loop ended with, in which every list loaded before the run is
    a prefix of the list loaded after it, longer by at most the number of
    rules with that url. *)
Theorem history_carries_over {ext : Externals} {jf : JsonFile} (cfg : Config)
  (env : Env) (rows : list Rule) (w : World) (d : Disk) :
  env_ok env ->
  let res := fst (fst (main_until_save cfg env rows w d)) in
  let d' := snd (fst (main_until_save cfg env rows w d)) in
  let st := snd (main_until_save cfg env rows w d) in
  res = SavedOk ->
  readable d HISTORY_FILE = true ->
  loads (dumps (history st)) = Some (history st) ->
  load_history d' = history st /\
  forall key : string,
  exists suf,
    default [] (load_history d' !! key)
    = (default [] (load_history d !! key) ++ suf)%list /\
    (length suf <= rules_on key rows)%nat.
Proof.
  intros Hok res d' st Hres Hr Hl.
  assert (st = main_loop cfg env rows (start_of_run w (load_history d))) as Hst.
  { subst st. unfold main_until_save.
    by destruct (save_history _ d). }
  assert (save_history (history st) d = (SavedOk, d')) as Hs.
  { subst res d'. rewrite Hst. unfold main_until_save in *.
    destruct (save_history _ d) as [r x]. simpl in *. by subst. }
  assert (load_history d' = history st) as Hload by by eapply load_after_save.
  split; [done |]. intros key. rewrite Hload, Hst.
  destruct (main_loop_history cfg env Hok rows (start_of_run w (load_history d)) key)
    as (suf & Hsuf & _ & Hlen).
  exists suf. split; [exact Hsuf | exact Hlen].
Qed.

Lemma history_carries_over_witness :
  load_history (jf := LibFixture.jf)
    (snd (fst (main_until_save (ext := Fixture.ext) (jf := LibFixture.jf)
                 default_config (Fixture.constant_env 200 Fixture.product_page)
                 [Fixture.rower_rule] Fixture.world0 LibFixture.disk0)))
  = LibFixture.after_run.
Proof.
  edestruct (history_carries_over (ext := Fixture.ext) (jf := LibFixture.jf)
               default_config (Fixture.constant_env 200 Fixture.product_page)
               [Fixture.rower_rule] Fixture.world0 LibFixture.disk0) as [H _].
  - split; [intros n; simpl; split; intros H; discriminate H
           | intros n target; simpl; intros H; discriminate H].
  - vm_compute. reflexivity.
  - reflexivity.
  - vm_compute. reflexivity.
  - rewrite H. vm_compute. reflexivity.
Defined.

(** ** Rows of the watch list *)

Lemma or_else_nonempty (s dflt : string) : dflt <> "" -> Str.or_else (Some s) dflt <> "".
Proof. intros Hd. by destruct s. Qed.

(** X16. Whatever a row holds, the product name and the price attribute the
    loop works with are never empty: a missing or blank name becomes
    "Product" and a missing or blank attribute "inner_text". Competitor and
    selector come without surrounding white space, and a row whose url or
    selector is missing or blank is skipped: it costs no request and changes
    neither history nor events. *)
Theorem row_defaults {lib : UrlLib} {ext : Externals} (cfg : Config) (env : Env)
  (STRIP_UTM : bool) (DEFAULT_CURRENCY default_regex : string)
  (compile : string -> regex) (row : Row) (st : Run) :
  let r := rule_of_row STRIP_UTM DEFAULT_CURRENCY default_regex compile row in
  (name r <> "" /\ attr r <> "") /\
  (blank (col_product_name row) -> name r = "Product") /\
  (blank (col_price_attribute row) -> attr r = "inner_text") /\
  (Str.strip (comp r) = comp r /\ Str.strip (selector r) = selector r) /\
  (blank (col_product_url row) \/ blank (col_price_selector_css row) ->
   process_rule cfg env r st = skip r st /\
   world (process_rule cfg env r st) = world st /\
   history (process_rule cfg env r st) = history st /\
   events_by_comp (process_rule cfg env r st) = events_by_comp st).
Proof.
  intros r. split; [| split; [| split; [| split]]].
  - split; apply or_else_nonempty; discriminate.
  - intros Hb. subst r. cbn [name rule_of_row].
    destruct (col_product_name row) as [[|a s]|]; simpl in *; try done.
    by rewrite Hb.
  - intros Hb. subst r. cbn [attr rule_of_row].
    destruct (col_price_attribute row) as [[|a s]|]; simpl in *; try done.
    by rewrite Hb.
  - split; apply StrFacts.strip_idem.
  - intros Hb.
    assert (process_rule cfg env r st = skip r st) as ->; [| done].
    unfold process_rule.
    assert (url r = "" \/ selector r = "") as [-> | ->];
      [| done | by rewrite orb_true_r].
    destruct Hb as [Hb | Hb]; [left | right]; subst r; cbn [url selector rule_of_row].
    + assert (Str.strip (Str.or_else (col_product_url row) "") = "") as ->.
      { destruct (col_product_url row) as [[|a s]|]; simpl in *; done. }
      unfold normalize_url. done.
    + destruct (col_price_selector_css row) as [[|a s]|]; simpl in *; done.
Qed.

Lemma row_defaults_witness :
  let row := {| col_competitor := Some " Hydrow "; col_product_name := Some "  ";
                col_product_url := Some "https://shop.example/p";
                col_price_selector_css := None; col_price_attribute := None;
                col_currency := None; col_normalize_regex := None |} in
  let r := rule_of_row (lib := LibFixture.lib) true "USD" "[^0-9\.]"
             (fun _ => DEFAULT_REGEX) row in
  name r = "Product" /\ attr r = "inner_text" /\
  requests (world (process_rule (ext := Fixture.ext) default_config
                     (Fixture.constant_env 200 Fixture.product_page) r Fixture.run0))
  = 0%nat.
Proof.
  intros row r.
  destruct (row_defaults (lib := LibFixture.lib) (ext := Fixture.ext) default_config
              (Fixture.constant_env 200 Fixture.product_page) true "USD" "[^0-9\.]"
              (fun _ => DEFAULT_REGEX) row Fixture.run0) as (_ & H1 & H2 & _ & H3).
  split; [apply H1; reflexivity |]. split; [apply H2; exact I |].
  destruct H3 as (_ & H3 & _); [right; exact I |].
  unfold r. rewrite H3. reflexivity.
Defined.

(** ** The digest *)

Lemma insert_sorted_perm (x : string) (l : list string) :
  Permutation (insert_sorted x l) (x :: l).
Proof.
  induction l as [|y l IH]; simpl; [done |].
  destruct (String.leb x y); [done |].
  rewrite IH. apply perm_swap.
Qed.

Lemma py_sorted_perm (l : list string) : Permutation (py_sorted l) l.
Proof.
  induction l as [|x l IH]; simpl; [done |].
  rewrite insert_sorted_perm. by constructor.
Qed.

Lemma insert_sorted_sorted (x : string) (l : list string) :
  Sorted (fun a b => String.leb a b = true) l ->
  Sorted (fun a b => String.leb a b = true) (insert_sorted x l).
Proof.
  induction 1 as [|y l Hl IH Hy]; simpl; [by repeat constructor |].
  destruct (String.leb x y) eqn:E; [by repeat constructor |].
  constructor; [exact IH |].
  assert (String.leb y x = true) as Hyx.
  { destruct (String.leb_total x y) as [H | H]; [congruence | done]. }
  destruct l as [|z l]; simpl; [by constructor |].
  destruct (String.leb x z); constructor; [done |].
  by inversion Hy.
Qed.

Lemma py_sorted_sorted (l : list string) :
  Sorted (fun a b => String.leb a b = true) (py_sorted l).
Proof.
  induction l as [|x l IH]; simpl; [constructor | by apply insert_sorted_sorted].
Qed.

Lemma group_lines_perm (l1 l2 : list (string * list Line)) :
  Permutation l1 l2 -> group_lines l1 = group_lines l2.
Proof.
  induction 1 as [| x l l' _ IH | x y l | l l' l'' _ IH1 _ IH2]; simpl;
    [done | by rewrite IH | lia | congruence].
Qed.

Lemma total_items_groups (ev : gmap string (list Line)) :
  total_items ev = group_lines (map_to_list ev).
Proof.
  unfold total_items. rewrite map_fold_foldr.
  induction (map_to_list ev) as [|[k v] l IH]; [done |]. simpl. by rewrite IH.
Qed.

Lemma groups_of_keys (ev : gmap string (list Line)) :
  List.map (fun c => (c, default [] (ev !! c))) (List.map fst (map_to_list ev))
  = map_to_list ev.
Proof.
  assert (forall l : list (string * list Line),
            (forall kv, In kv l -> ev !! fst kv = Some (snd kv)) ->
            List.map (fun c => (c, default [] (ev !! c))) (List.map fst l) = l) as H.
  { induction l as [|[k v] l IH]; intros Hl; [done |]. simpl.
    pose proof (Hl (k, v) (or_introl eq_refl)) as Hk. simpl in Hk.
    rewrite Hk. simpl. f_equal. apply IH.
    intros kv Hkv. apply Hl. by right. }
  apply H. intros [k v] Hin. simpl.
  by apply elem_of_map_to_list, list_elem_of_In.
Qed.

(** X17. The digest is withheld exactly when there is no event and
    SEND_EMPTY_DIGEST is off. Otherwise its groups list every competitor
    that has events once, in sorted order, each with its own events in the
    order they occurred, and together they hold as many lines as
    events_by_comp has items. *)
Theorem digest_groups_sorted (SEND_EMPTY_DIGEST : bool) (st : Run) :
  let ev := events_by_comp st in
  (digest SEND_EMPTY_DIGEST st = None
   <-> total_items ev = 0%nat /\ SEND_EMPTY_DIGEST = false) /\
  Sorted (fun a b => String.leb a b = true) (List.map fst (digest_groups ev)) /\
  NoDup (List.map fst (digest_groups ev)) /\
  (forall c items, In (c, items) (digest_groups ev) <-> ev !! c = Some items) /\
  group_lines (digest_groups ev) = total_items ev.
Proof.
  intros ev.
  assert (List.map fst (digest_groups ev)
          = py_sorted (List.map fst (map_to_list ev))) as Hkeys.
  { unfold digest_groups. rewrite List.map_map. simpl. apply List.map_id. }
  assert (Permutation (digest_groups ev) (map_to_list ev)) as Hperm.
  { unfold digest_groups. rewrite <- (groups_of_keys ev) at 2.
    apply Permutation_map, py_sorted_perm. }
  split; [| split; [| split; [| split]]].
  - unfold digest. fold ev.
    destruct (total_items ev =? 0)%nat eqn:E; destruct SEND_EMPTY_DIGEST; simpl.
    + split; [done | by intros [_ ?]].
    + apply Nat.eqb_eq in E. done.
    + split; [done | by intros [_ ?]].
    + apply Nat.eqb_neq in E. split; [done | by intros [? _]].
  - rewrite Hkeys. apply py_sorted_sorted.
  - rewrite Hkeys. rewrite py_sorted_perm. apply NoDup_fst_map_to_list.
  - intros c items. rewrite <- elem_of_map_to_list, <- list_elem_of_In.
    split; intros H; [by rewrite <- Hperm | by rewrite Hperm].
  - rewrite (group_lines_perm _ _ Hperm). symmetry. apply total_items_groups.
Qed.

Lemma digest_groups_sorted_witness :
  digest false Fixture.run0 = None /\
  List.map fst (digest_groups
                  (add_event "Hydrow" (ERROR "Hydrow" "Rower" no_price "u")
                     (add_event "Aviron" (ERROR "Aviron" "Bike" no_price "v") ∅)))
  = ["Aviron"; "Hydrow"].
Proof.
  split; [| vm_compute; reflexivity].
  apply (proj1 (digest_groups_sorted false Fixture.run0)). split; reflexivity.
Defined.

(** ** How long the throttle waits *)

(** X18. The throttle never sleeps longer than MIN_DOMAIN_GAP + 5 seconds
    when the time recorded for the domain is not in the future, and it does
    not sleep at all when that time lies MIN_DOMAIN_GAP + 5 seconds or more
    back; a domain without an entry counts as fetched at time 0, so its first
    request is not delayed. *)
Theorem throttle_sleep_bounded {ext : Externals} (env : Env) (url dom : string)
  (w : World) :
  netloc url = Ok dom -> env_ok env ->
  let last := default 0%Q (_LAST_FETCH w !! dom) in
  (last <= clock w)%Q ->
  exists w1,
    _throttle env url w = (Ok tt, w1) /\
    (clock w <= clock w1 <= clock w + (MIN_DOMAIN_GAP + 5))%Q /\
    ((MIN_DOMAIN_GAP + 5 <= clock w - last)%Q ->
     (clock w1 == clock w)%Q /\ trace w1 = trace w).
Proof.
  intros Hdom Hok last Hlast.
  destruct (throttle_stamp env url dom Hdom w) as (w1 & Ht & _ & _ & Htr & Hc).
  exists w1. split; [done |].
  assert (-5 <= fst (uniform env (-5) 5 w) <= 5)%Q as Hj
    by (apply (uniform_range env Hok); lra).
  assert (throttle_wait env dom w
          == MIN_DOMAIN_GAP - (clock w - last) + fst (uniform env (-5) 5 w))%Q as Hw
    by reflexivity.
  unfold MIN_DOMAIN_GAP in *.
  split.
  - rewrite Hc. split.
    + pose proof (Q.le_max_l 0 (throttle_wait env dom w)). lra.
    + assert (Qmax 0 (throttle_wait env dom w) <= 8)%Q; [| lra].
      apply Q.max_lub; lra.
  - intros Hgap.
    assert (throttle_wait env dom w <= 0)%Q as Hle by lra.
    split.
    + rewrite Hc, Q.max_l by done. ring.
    + rewrite Htr. rewrite (proj2 (Qltb_false 0 (throttle_wait env dom w)) Hle).
      apply app_nil_r.
Qed.

Lemma throttle_sleep_bounded_witness :
  exists w1,
    _throttle (ext := Fixture.ext) (Fixture.constant_env 200 "")
      "https://shop.example/p" Fixture.world0 = (Ok tt, w1) /\
    trace w1 = [].
Proof.
  destruct (throttle_sleep_bounded (ext := Fixture.ext) (Fixture.constant_env 200 "")
              "https://shop.example/p" "shop.example" Fixture.world0)
    as (w1 & Ht & _ & Hq).
  - reflexivity.
  - split; [intros n; simpl; split; intros H; discriminate H
           | intros n target; simpl; intros H; discriminate H].
  - simpl. intros H; discriminate H.
  - exists w1. split; [exact Ht |]. apply Hq. simpl. intros H; discriminate H.
Defined.

(** ** The selector strategy at its edges *)

(** X19. A selector that bs4 rejects makes the whole extraction raise: the
    fallbacks are not tried. A matched element whose attribute is missing or
    whose text does not normalise is passed over, and extraction goes on as
    if the rule had no selector. *)
Theorem selector_edge_cases {ext : Externals} (cfg : Config)
  (url html selector attr : string) (r : regex) (hint : option string) :
  selector <> "" ->
  (forall e, select_one (BeautifulSoup html) selector = Raise e ->
     extract_from cfg url html selector attr r hint = Raise e) /\
  (select_one (BeautifulSoup html) selector = Ok None ->
     extract_from cfg url html selector attr r hint
     = extract_from cfg url html "" attr r hint) /\
  (forall node, select_one (BeautifulSoup html) selector = Ok (Some node) ->
     norm_price (raw_of node attr) r = None ->
     extract_from cfg url html selector attr r hint
     = extract_from cfg url html "" attr r hint) /\
  (forall node, select_one (BeautifulSoup html) selector = Ok (Some node) ->
     attr <> "" -> attr <> "inner_text" -> tag_get node attr = None ->
     extract_from cfg url html selector attr r hint
     = extract_from cfg url html "" attr r hint).
Proof.
  intros Hs. apply String.eqb_neq in Hs.
  assert (forall node, select_one (BeautifulSoup html) selector = Ok (Some node) ->
            norm_price (raw_of node attr) r = None ->
            extract_from cfg url html selector attr r hint
            = extract_from cfg url html "" attr r hint) as Hnode.
  { intros node Hn Hv. unfold extract_from, selector_price.
    rewrite Hs, Hn, Hv. reflexivity. }
  split; [| split; [| split; [exact Hnode |]]].
  - intros e He. unfold extract_from, selector_price. by rewrite Hs, He.
  - intros Hn. unfold extract_from, selector_price. rewrite Hs, Hn. reflexivity.
  - intros node Hn Ha Hi Hg. apply (Hnode node Hn).
    unfold raw_of. apply String.eqb_neq in Ha, Hi. by rewrite Ha, Hi, Hg.
Qed.

Lemma selector_edge_cases_witness :
  extract_from (ext := Fixture.ext) default_config "https://shop.example/p"
    Fixture.product_page "span.price" "data-price" DEFAULT_REGEX (Some "Rower")
  = Ok 999%Q.
Proof.
  destruct (selector_edge_cases (ext := Fixture.ext) default_config
              "https://shop.example/p" Fixture.product_page "span.price"
              "data-price" DEFAULT_REGEX (Some "Rower")) as (_ & _ & _ & H);
    [discriminate |].
  rewrite (H Fixture.price_tag); [reflexivity | reflexivity | discriminate
                                 | discriminate | reflexivity].
Defined.
